(** * Leveling bot: the XP / level ledger, the activity gatekeeper, the
      role-reward resolver, the guild configuration store and the voice
      presence tracker, embedded from the JavaScript sources.

    Numbers that the program keeps integral (experience, levels, epoch
    milliseconds, per-message rates, cooldown seconds) are [Z]; the
    multipliers, which the command layer reads with [getNumber], are held
    as rationals [Q], and the products and quotients that the amounts of
    a grant are floored from are computed in IEEE 754 doubles (module
    [Double]), as JavaScript computes them.  JavaScript maps used as
    dictionaries are [gmap]s, role sets are [gset]s, and the reward
    table, whose iteration order the code depends on, is an association
    list.

    A handler is an [async] function: between two of its [await]s it
    runs alone, and at an [await] other handlers may run.  Each handler
    is given twice: as the function of its whole run when nothing else
    runs at its awaits, and cut at its awaits, with schedules that
    interleave the pieces of several handlers. *)

From Stdlib Require Import ZArith QArith Qround Lia Ascii SpecFloat.
Close Scope Q_scope.
From stdpp Require Import gmap strings list sorting.

Local Open Scope Z_scope.

(** A call either returns or throws. *)
Inductive outcome (A : Type) :=
| Returned (a : A)
| Thrown (message : string).
Arguments Returned {A} a.
Arguments Thrown {A} message.

(** [!id] on a string. *)
Definition missing (id : string) : bool := bool_decide (id = "").

(** ** JavaScript numbers *)

Module Double.

(** A [Number]: an IEEE 754 binary64 value.  The operations are those
    of the Standard Library's [SpecFloat] at precision 53 and exponent
    bound 1024, which round to nearest, ties to even. *)
Definition double : Type := spec_float.

Definition prec : Z := 53.
Definition emax : Z := 1024.

(** The [Number] of an integer. *)
Definition ofInteger (z : Z) : double := binary_normalize prec emax z 0 false.

Definition mul (x y : double) : double := SFmul prec emax x y.
Definition div (x y : double) : double := SFdiv prec emax x y.

(** The [Number] of a rational: the double nearest to it.  A rational
    that is a double is given back as it is. *)
Definition ofRational (q : Q) : double :=
  div (ofInteger (Qnum q)) (ofInteger (Zpos (Qden q))).

(** [x || 1.0]: zero and [NaN] are falsy. *)
Definition orOne (x : double) : double :=
  match x with
  | S754_zero _ | S754_nan => ofInteger 1
  | _ => x
  end.

(** [Math.max(0, x)] *)
Definition maxZero (x : double) : double :=
  match x with
  | S754_nan => S754_nan
  | S754_zero _ => S754_zero false
  | _ => if SFltb x (S754_zero false) then S754_zero false else x
  end.

(** [Math.floor(x)] of a finite [x]; [None] for an infinity or [NaN]. *)
Definition floor (x : double) : option Z :=
  match x with
  | S754_zero _ => Some 0
  | S754_finite sign m e =>
      let n := if sign then Z.neg m else Z.pos m in
      Some (if e <? 0 then n / 2 ^ (- e) else n * 2 ^ e)
  | S754_infinity _ | S754_nan => None
  end.

(** [Math.max(1, Math.floor(x))] as an amount of experience.  The
    products floored here are finite as long as rates, durations and
    multipliers stay below 10^290; where they are not, the code's
    amount is no integer and the amount is left at 1. *)
Definition wholeAtLeastOne (x : double) : Z :=
  match floor x with
  | Some n => Z.max 1 n
  | None => 1
  end.

End Double.

(** ** LevelingManager: the level curve *)

Module Level.

(** [xpForLevel(level)]: [if (level <= 0) return 0;
    return 5 * level ** 2 + 50 * level + 100]. *)
Definition xpForLevel (level : Z) : Z :=
  if level <=? 0 then 0 else 5 * level ^ 2 + 50 * level + 100.

(** The [while (xp >= xpNeededForNextLevel) { level++; ... }] loop of
    [getLevelFromXP], with the iteration budget made explicit. *)
Fixpoint levelLoop (fuel : nat) (xp level : Z) : option Z :=
  match fuel with
  | O => None
  | S fuel' =>
      if xp >=? xpForLevel (level + 1)
      then levelLoop fuel' xp (level + 1)
      else Some level
  end.

(** Budget handed to the loop: the level never exceeds the square root
    of the experience. *)
Definition levelFuel (xp : Z) : nat := S (Z.to_nat (Z.sqrt xp)).

Definition getLevelFromXP_run (xp : Z) : option Z :=
  if xp <=? 0 then Some 0 else levelLoop (levelFuel xp) xp 0.

(** [getLevelFromXP(xp)]. *)
Definition getLevelFromXP (xp : Z) : Z :=
  match getLevelFromXP_run xp with
  | Some l => l
  | None => 0
  end.

End Level.

(** ** LevelingManager: the ledger over the [UserLevel] collection and the
       cache

    Each method is given as the function of its whole run, that is,
    with no other call on the ledger between its database operations;
    the handlers that call them are also given cut at their awaits. *)

Module Ledger.
Import Level.

(** A [UserLevel] document; [guildId] and [userId] are the key it is
    stored under.  [updatedAt] is kept by the schema's [timestamps]
    option, which stamps every update operation. *)
Record UserLevel := mkUserLevel {
  xp : Z;
  level : Z;
  lastMessageTimestamp : Z;
  totalMessages : Z;
  totalVoiceDurationMillis : Z;
  updatedAt : Z
}.

(** What [system.emit] publishes from the ledger.  The role events of a
    level-up are produced by the resolver of module [Roles]; they act on
    guild members and leave the ledger as it is. *)
Inductive Event :=
| XpGained (guildId userId : string) (amount : Z) (source : string)
           (newData : UserLevel)
| LevelUp (guildId userId : string) (oldLevel newLevel : Z) (user : UserLevel)
| XpLost (guildId userId : string) (amount : Z) (reason : string)
         (newData : UserLevel)
| LevelDown (guildId userId : string) (oldLevel newLevel : Z)
            (user : UserLevel)
| ErrorEvent (message : string).

(** The collection, the cache (keyed by the cache-key string) and the
    events emitted so far. *)
Record State := mkState {
  db : gmap (string * string) UserLevel;
  cache : gmap string UserLevel;
  events : list Event
}.

(** [`level-${guildId}-${userId}`] *)
Definition cacheKey (guildId userId : string) : string :=
  "level-" +:+ guildId +:+ "-" +:+ userId.

Definition zeroRecord (now : Z) : UserLevel :=
  {| xp := 0; level := 0; lastMessageTimestamp := 0; totalMessages := 0;
     totalVoiceDurationMillis := 0; updatedAt := now |}.

Definition touch (now : Z) (d : UserLevel) : UserLevel :=
  {| xp := xp d; level := level d;
     lastMessageTimestamp := lastMessageTimestamp d;
     totalMessages := totalMessages d;
     totalVoiceDurationMillis := totalVoiceDurationMillis d;
     updatedAt := now |}.

(** [$set: { xp, level }] *)
Definition setXpLevel (now newXP newLevel : Z) (d : UserLevel) : UserLevel :=
  {| xp := newXP; level := newLevel;
     lastMessageTimestamp := lastMessageTimestamp d;
     totalMessages := totalMessages d;
     totalVoiceDurationMillis := totalVoiceDurationMillis d;
     updatedAt := now |}.

(** [$set: { lastMessageTimestamp: now }, $inc: { totalMessages: 1 }] *)
Definition stampMessage (now : Z) (d : UserLevel) : UserLevel :=
  {| xp := xp d; level := level d;
     lastMessageTimestamp := now;
     totalMessages := totalMessages d + 1;
     totalVoiceDurationMillis := totalVoiceDurationMillis d;
     updatedAt := now |}.

Definition emit (e : list Event) (s : State) : State :=
  {| db := db s; cache := cache s; events := events s ++ e |}.

(** [getUserLevelData(guildId, userId)]: the cached record, or on a miss
    the upserted document ([$setOnInsert] with zero defaults), which is
    then cached. *)
Definition getUserLevelData (now : Z) (guildId userId : string) (s : State)
  : outcome UserLevel * State :=
  if missing guildId || missing userId
  then (Thrown "guildId dan userId diperlukan untuk getUserLevelData.", s)
  else
    match cache s !! cacheKey guildId userId with
    | Some userData => (Returned userData, s)
    | None =>
        let userData :=
          match db s !! (guildId, userId) with
          | Some d => touch now d
          | None => zeroRecord now
          end in
        (Returned userData,
         {| db := <[(guildId, userId) := userData]> (db s);
            cache := <[cacheKey guildId userId := userData]> (cache s);
            events := events s |})
    end.

Record AddResult := mkAddResult {
  oldLevel : Z;
  newLevel : Z;
  gainedXp : Z;
  user : UserLevel
}.

(** [addXP(guildId, userId, amount, source)]; [None] is [null]. *)
Definition addXP (now : Z) (guildId userId : string) (amount : Z)
    (source : string) (s : State) : outcome (option AddResult) * State :=
  if amount <=? 0 then (Returned None, s)
  else
    match getUserLevelData now guildId userId s with
    | (Thrown m, s1) => (Thrown m, s1)
    | (Returned userData, s1) =>
        let oldL := level userData in
        let newXP := xp userData + amount in
        let newL := getLevelFromXP newXP in
        match db s1 !! (guildId, userId) with
        | None =>
            (Returned (Some {| oldLevel := oldL; newLevel := oldL;
                               gainedXp := 0; user := userData |}),
             emit [ErrorEvent ("Failed to update XP/Level for " +:+ userId
                               +:+ "@" +:+ guildId)] s1)
        | Some doc =>
            let updatedData := setXpLevel now newXP newL doc in
            let s2 :=
              {| db := <[(guildId, userId) := updatedData]> (db s1);
                 cache := <[cacheKey guildId userId := updatedData]> (cache s1);
                 events := events s1 |} in
            (Returned (Some {| oldLevel := oldL; newLevel := newL;
                               gainedXp := amount; user := updatedData |}),
             emit (XpGained guildId userId amount source updatedData
                   :: (if newL >? oldL
                       then [LevelUp guildId userId oldL newL updatedData]
                       else [])) s2)
        end
    end.

(** [removeXP(guildId, userId, amount, reason)]; [None] is [null]. *)
Definition removeXP (now : Z) (guildId userId : string) (amount : Z)
    (reason : string) (s : State) : outcome (option UserLevel) * State :=
  if amount <=? 0 then (Returned None, s)
  else
    match getUserLevelData now guildId userId s with
    | (Thrown m, s1) => (Thrown m, s1)
    | (Returned userData, s1) =>
        let oldL := level userData in
        let newXP := Z.max 0 (xp userData - amount) in
        let newL := getLevelFromXP newXP in
        match db s1 !! (guildId, userId) with
        | None =>
            (Returned None,
             emit [ErrorEvent ("Failed to remove XP for " +:+ userId
                               +:+ "@" +:+ guildId)] s1)
        | Some doc =>
            let updatedData := setXpLevel now newXP newL doc in
            let s2 :=
              {| db := <[(guildId, userId) := updatedData]> (db s1);
                 cache := <[cacheKey guildId userId := updatedData]> (cache s1);
                 events := events s1 |} in
            (Returned (Some updatedData),
             emit (XpLost guildId userId amount reason updatedData
                   :: (if newL <? oldL
                       then [LevelDown guildId userId oldL newL updatedData]
                       else [])) s2)
        end
    end.

(** The order of [.sort({ xp: -1, updatedAt: -1 })]: more experience
    first, then the later update first. *)
Definition leaderboardOrder (a b : (string * string) * UserLevel) : Prop :=
  xp (snd b) < xp (snd a) \/
  (xp (snd a) = xp (snd b) /\ updatedAt (snd b) <= updatedAt (snd a)).

#[global] Instance leaderboardOrder_dec a b : Decision (leaderboardOrder a b).
Proof. unfold leaderboardOrder. apply _. Defined.

(** The filter [{ guildId: guildId, xp: { $gt: 0 } }]. *)
Definition onLeaderboard (guildId : string)
    (e : (string * string) * UserLevel) : bool :=
  bool_decide (fst (fst e) = guildId) && (0 <? xp (snd e)).

(** [Math.max(1, Math.min(limit, 50))] *)
Definition safeLimit (limit : Z) : Z := Z.max 1 (Z.min limit 50).

(** The documents that [find] selects. *)
Definition ranked (guildId : string) (s : State)
  : list ((string * string) * UserLevel) :=
  filter (fun e => onLeaderboard guildId e = true) (map_to_list (db s)).

(** [getLeaderboard(guildId, limit)]: find, sort, limit. *)
Definition getLeaderboard (guildId : string) (limit : Z) (s : State)
  : outcome (list ((string * string) * UserLevel)) :=
  if missing guildId then Thrown "guildId diperlukan untuk getLeaderboard."
  else
    Returned
      (take (Z.to_nat (safeLimit limit))
         (merge_sort leaderboardOrder (ranked guildId s))).

(** The record of a user as the collection has it; a user without a
    document reads as the zero record. *)
Definition current (guildId userId : string) (s : State) : UserLevel :=
  default (zeroRecord 0) (db s !! (guildId, userId)).

(** The cache entry of a user, when there is one, is the stored
    document: every write path of the ledger leaves it so. *)
Definition coherentAt (guildId userId : string) (s : State) : Prop :=
  forall d, cache s !! cacheKey guildId userId = Some d ->
            db s !! (guildId, userId) = Some d.

Definition isLevelDown (e : Event) : bool :=
  match e with
  | LevelDown _ _ _ _ _ => true
  | _ => false
  end.

End Ledger.

(** ** GuildConfigManager *)

Module GuildConfig.

(** A string-typed property of a plain object: absent, [null] or a
    string. *)
Inductive jsString :=
| JUndefined
| JNull
| JStr (s : string).

(** A dictionary-typed property: absent (or [null]), a plain object, or a
    [Map] instance. *)
Inductive jsDict (E : Type) :=
| DAbsent
| DObject (entries : E)
| DMap (entries : E).
Arguments DAbsent {E}.
Arguments DObject {E} entries.
Arguments DMap {E} entries.

(** A configuration object before normalisation: a lean document of the
    [GuildConfig] collection, the default configuration handed to the
    constructor, or the [newSettings] of an update.  [None] is a
    nullish property. *)
Record RawConfig := mkRawConfig {
  r_roleMultipliers : jsDict (gmap string Q);
  r_channelMultipliers : jsDict (gmap string Q);
  r_levelRoles : jsDict (list (string * string));
  r_ignoredRoles : option (list string);
  r_ignoredChannels : option (list string);
  r_xpPerMessage : option Z;
  r_xpPerMinuteVoice : option Z;
  r_messageCooldownSeconds : option Z;
  r_levelUpMessageEnabled : option bool;
  r_enablePenaltySystem : option bool;
  r_leaderboardStyle : jsString;
  r_roleRemovalStrategy : jsString
}.

(** A normalised configuration, as the managers consume it. *)
Record Config := mkConfig {
  roleMultipliers : gmap string Q;
  channelMultipliers : gmap string Q;
  levelRoles : list (string * string);
  ignoredRoles : list string;
  ignoredChannels : list string;
  xpPerMessage : Z;
  xpPerMinuteVoice : Z;
  messageCooldownSeconds : Z;
  levelUpMessageEnabled : bool;
  enablePenaltySystem : bool;
  leaderboardStyle : string;
  roleRemovalStrategy : string
}.

Inductive ConfigEvent :=
| ConfigUpdated (guildId : string) (newConfig : Config)
| ConfigError (message : string).

Record Store := mkStore {
  docs : gmap string RawConfig;
  ccache : gmap string Config;
  cevents : list ConfigEvent
}.

Definition validStrategies : list string :=
  ["keep_all"; "highest_only"; "remove_previous"].

Definition validStyles : list string := ["card"; "text"].

(** [list.includes(value)] for a property that may not be a string. *)
Definition includes (l : list string) (v : jsString) : bool :=
  match v with
  | JStr s => bool_decide (s ∈ l)
  | _ => false
  end.

(** [new Map(Object.entries(value || {}))]: a [Map] instance has no own
    enumerable properties, so only a plain object contributes entries. *)
Definition entriesOf {E} (empty : E) (d : jsDict E) : E :=
  match d with
  | DObject e => e
  | _ => empty
  end.

(** [a ?? b ?? c] *)
Definition nullish (a b : option Z) (c : Z) : Z :=
  match a with
  | Some v => v
  | None => match b with Some v => v | None => c end
  end.

(** [_normalizeConfig(config)]; [dflt] is [this.defaultConfig], which is
    still undefined while the constructor normalises the defaults. *)
Definition _normalizeConfig (dflt : option Config) (config : RawConfig)
  : Config :=
  {| roleMultipliers := entriesOf ∅ (r_roleMultipliers config);
     channelMultipliers := entriesOf ∅ (r_channelMultipliers config);
     levelRoles := entriesOf [] (r_levelRoles config);
     ignoredRoles := default [] (r_ignoredRoles config);
     ignoredChannels := default [] (r_ignoredChannels config);
     xpPerMessage :=
       nullish (r_xpPerMessage config) (xpPerMessage <$> dflt) 15;
     xpPerMinuteVoice :=
       nullish (r_xpPerMinuteVoice config) (xpPerMinuteVoice <$> dflt) 5;
     messageCooldownSeconds :=
       nullish (r_messageCooldownSeconds config)
               (messageCooldownSeconds <$> dflt) 60;
     levelUpMessageEnabled :=
       match r_levelUpMessageEnabled config with
       | Some false => false
       | _ => true
       end;
     enablePenaltySystem :=
       match r_enablePenaltySystem config with
       | Some true => true
       | _ => false
       end;
     leaderboardStyle :=
       match r_leaderboardStyle config with
       | JStr s => if bool_decide (s ∈ validStyles) then s else "card"
       | _ => "card"
       end;
     roleRemovalStrategy :=
       match r_roleRemovalStrategy config with
       | JStr s => if bool_decide (s ∈ validStrategies) then s else "keep_all"
       | _ => "keep_all"
       end |}.

(** The constructor: [this.defaultConfig = this._normalizeConfig(defaultConfig)]. *)
Definition makeDefault (defaultConfig : RawConfig) : Config :=
  _normalizeConfig None defaultConfig.

Definition orDict {E} (over base : jsDict E) : jsDict E :=
  match over with
  | DAbsent => base
  | _ => over
  end.

Definition orString (over base : jsString) : jsString :=
  match over with
  | JUndefined => base
  | _ => over
  end.

Definition orOpt {A} (over base : option A) : option A :=
  match over with
  | Some _ => over
  | None => base
  end.

(** [{ ...this.defaultConfig, ...doc }]: the properties of the document
    lie over those of the normalised defaults, whose dictionaries are
    [Map] instances. *)
Definition overDefaults (d : Config) (doc : RawConfig) : RawConfig :=
  {| r_roleMultipliers :=
       orDict (r_roleMultipliers doc) (DMap (roleMultipliers d));
     r_channelMultipliers :=
       orDict (r_channelMultipliers doc) (DMap (channelMultipliers d));
     r_levelRoles := orDict (r_levelRoles doc) (DMap (levelRoles d));
     r_ignoredRoles := orOpt (r_ignoredRoles doc) (Some (ignoredRoles d));
     r_ignoredChannels :=
       orOpt (r_ignoredChannels doc) (Some (ignoredChannels d));
     r_xpPerMessage := orOpt (r_xpPerMessage doc) (Some (xpPerMessage d));
     r_xpPerMinuteVoice :=
       orOpt (r_xpPerMinuteVoice doc) (Some (xpPerMinuteVoice d));
     r_messageCooldownSeconds :=
       orOpt (r_messageCooldownSeconds doc) (Some (messageCooldownSeconds d));
     r_levelUpMessageEnabled :=
       orOpt (r_levelUpMessageEnabled doc) (Some (levelUpMessageEnabled d));
     r_enablePenaltySystem :=
       orOpt (r_enablePenaltySystem doc) (Some (enablePenaltySystem d));
     r_leaderboardStyle :=
       orString (r_leaderboardStyle doc) (JStr (leaderboardStyle d));
     r_roleRemovalStrategy :=
       orString (r_roleRemovalStrategy doc) (JStr (roleRemovalStrategy d)) |}.

(** [`config-${guildId}`] *)
Definition configKey (guildId : string) : string := "config-" +:+ guildId.

(** [getConfig(guildId)]: cache, then database, then defaults. *)
Definition getConfig (dflt : Config) (guildId : string) (st : Store)
  : outcome Config * Store :=
  if missing guildId
  then (Thrown "guildId diperlukan untuk getConfig.", st)
  else
    match ccache st !! configKey guildId with
    | Some cachedConfig => (Returned cachedConfig, st)
    | None =>
        let finalConfig :=
          match docs st !! guildId with
          | None => dflt
          | Some dbConfig =>
              _normalizeConfig (Some dflt) (overDefaults dflt dbConfig)
          end in
        (Returned finalConfig,
         {| docs := docs st;
            ccache := <[configKey guildId := finalConfig]> (ccache st);
            cevents := cevents st |})
    end.

(** Truthiness of a string-typed property. *)
Definition truthy (v : jsString) : bool :=
  match v with
  | JStr s => negb (bool_decide (s = ""))
  | _ => false
  end.

(** [updateData[field] instanceof Map] is turned into a plain object by
    [Object.fromEntries]; a nullish one is deleted. *)
Definition asObject {E} (d : jsDict E) : jsDict E :=
  match d with
  | DMap e => DObject e
  | _ => d
  end.

(** The two guards of [updateConfig] that [delete] a truthy value outside
    its enumeration from the update. *)
Definition dropInvalid (valid : list string) (v : jsString) : jsString :=
  if truthy v && negb (includes valid v) then JUndefined else v.

Definition prepareUpdate (newSettings : RawConfig) : RawConfig :=
  {| r_roleMultipliers := asObject (r_roleMultipliers newSettings);
     r_channelMultipliers := asObject (r_channelMultipliers newSettings);
     r_levelRoles := asObject (r_levelRoles newSettings);
     r_ignoredRoles := r_ignoredRoles newSettings;
     r_ignoredChannels := r_ignoredChannels newSettings;
     r_xpPerMessage := r_xpPerMessage newSettings;
     r_xpPerMinuteVoice := r_xpPerMinuteVoice newSettings;
     r_messageCooldownSeconds := r_messageCooldownSeconds newSettings;
     r_levelUpMessageEnabled := r_levelUpMessageEnabled newSettings;
     r_enablePenaltySystem := r_enablePenaltySystem newSettings;
     r_leaderboardStyle :=
       dropInvalid validStyles (r_leaderboardStyle newSettings);
     r_roleRemovalStrategy :=
       dropInvalid validStrategies (r_roleRemovalStrategy newSettings) |}.

(** The schema's validators, run on the properties of [$set]
    ([runValidators: true]): [min] on the numbers, [enum] on the two
    strings, [required] on [roleRemovalStrategy]. *)
Definition atLeast (lo : Z) (v : option Z) : bool :=
  match v with
  | Some x => lo <=? x
  | None => true
  end.

Definition schemaValid (u : RawConfig) : bool :=
  atLeast 0 (r_xpPerMessage u) &&
  atLeast 0 (r_xpPerMinuteVoice u) &&
  atLeast 1 (r_messageCooldownSeconds u) &&
  match r_leaderboardStyle u with
  | JStr s => bool_decide (s ∈ validStyles)
  | _ => true
  end &&
  match r_roleRemovalStrategy u with
  | JUndefined => true
  | JNull => false
  | JStr s => bool_decide (s ∈ validStrategies)
  end.

(** The document a first upsert starts from ([setDefaultsOnInsert]). *)
Definition schemaDefaults : RawConfig :=
  {| r_roleMultipliers := DObject ∅;
     r_channelMultipliers := DObject ∅;
     r_levelRoles := DObject [];
     r_ignoredRoles := Some [];
     r_ignoredChannels := Some [];
     r_xpPerMessage := Some 15;
     r_xpPerMinuteVoice := Some 5;
     r_messageCooldownSeconds := Some 60;
     r_levelUpMessageEnabled := Some true;
     r_enablePenaltySystem := Some false;
     r_leaderboardStyle := JStr "card";
     r_roleRemovalStrategy := JStr "keep_all" |}.

(** [$set: updateData] on a document. *)
Definition applySet (u doc : RawConfig) : RawConfig :=
  {| r_roleMultipliers := orDict (r_roleMultipliers u) (r_roleMultipliers doc);
     r_channelMultipliers :=
       orDict (r_channelMultipliers u) (r_channelMultipliers doc);
     r_levelRoles := orDict (r_levelRoles u) (r_levelRoles doc);
     r_ignoredRoles := orOpt (r_ignoredRoles u) (r_ignoredRoles doc);
     r_ignoredChannels := orOpt (r_ignoredChannels u) (r_ignoredChannels doc);
     r_xpPerMessage := orOpt (r_xpPerMessage u) (r_xpPerMessage doc);
     r_xpPerMinuteVoice :=
       orOpt (r_xpPerMinuteVoice u) (r_xpPerMinuteVoice doc);
     r_messageCooldownSeconds :=
       orOpt (r_messageCooldownSeconds u) (r_messageCooldownSeconds doc);
     r_levelUpMessageEnabled :=
       orOpt (r_levelUpMessageEnabled u) (r_levelUpMessageEnabled doc);
     r_enablePenaltySystem :=
       orOpt (r_enablePenaltySystem u) (r_enablePenaltySystem doc);
     r_leaderboardStyle :=
       orString (r_leaderboardStyle u) (r_leaderboardStyle doc);
     r_roleRemovalStrategy :=
       orString (r_roleRemovalStrategy u) (r_roleRemovalStrategy doc) |}.

(** [updateConfig(guildId, newSettings)]: a failed validation rejects
    the whole update; the error is emitted and thrown again. *)
Definition updateConfig (dflt : Config) (guildId : string)
    (newSettings : RawConfig) (st : Store) : outcome Config * Store :=
  if missing guildId
  then (Thrown "guildId dan newSettings diperlukan untuk updateConfig.", st)
  else
    let updateData := prepareUpdate newSettings in
    if schemaValid updateData then
      let updatedConfigLean :=
        applySet updateData (default schemaDefaults (docs st !! guildId)) in
      let finalConfig :=
        _normalizeConfig (Some dflt) (overDefaults dflt updatedConfigLean) in
      (Returned finalConfig,
       {| docs := <[guildId := updatedConfigLean]> (docs st);
          ccache := <[configKey guildId := finalConfig]> (ccache st);
          cevents := cevents st ++ [ConfigUpdated guildId finalConfig] |})
    else
      (Thrown "Validation failed",
       {| docs := docs st; ccache := ccache st;
          cevents := cevents st
            ++ [ConfigError ("Failed to update config for " +:+ guildId)] |}).

(** What the invariant of the specification asks of a configuration. *)
Definition enumerated (c : Config) : Prop :=
  roleRemovalStrategy c ∈ validStrategies /\ leaderboardStyle c ∈ validStyles.

(** Every configuration in the cache is enumerated; [getConfig] and
    [updateConfig] are the only writers of the cache. *)
Definition cacheEnumerated (st : Store) : Prop :=
  forall key c, ccache st !! key = Some c -> enumerated c.

(** An object without properties: the default configuration left out,
    or an update that sets nothing. *)
Definition noSettings : RawConfig :=
  {| r_roleMultipliers := DAbsent;
     r_channelMultipliers := DAbsent;
     r_levelRoles := DAbsent;
     r_ignoredRoles := None;
     r_ignoredChannels := None;
     r_xpPerMessage := None;
     r_xpPerMinuteVoice := None;
     r_messageCooldownSeconds := None;
     r_levelUpMessageEnabled := None;
     r_enablePenaltySystem := None;
     r_leaderboardStyle := JUndefined;
     r_roleRemovalStrategy := JUndefined |}.

(** [{ roleRemovalStrategy: value }] *)
Definition strategySetting (value : jsString) : RawConfig :=
  {| r_roleMultipliers := DAbsent;
     r_channelMultipliers := DAbsent;
     r_levelRoles := DAbsent;
     r_ignoredRoles := None;
     r_ignoredChannels := None;
     r_xpPerMessage := None;
     r_xpPerMinuteVoice := None;
     r_messageCooldownSeconds := None;
     r_levelUpMessageEnabled := None;
     r_enablePenaltySystem := None;
     r_leaderboardStyle := JUndefined;
     r_roleRemovalStrategy := value |}.

(** A store in which guild [g1] has chosen [highest_only]. *)
Definition highestOnlyStore : Store :=
  {| docs := {[ "g1" := applySet (strategySetting (JStr "highest_only"))
                                 schemaDefaults ]};
     ccache := ∅;
     cevents := [] |}.

End GuildConfig.

(** ** XPManager: the activity gatekeeper for messages *)

Module XP.
Import Ledger GuildConfig.

(** What [handleMessageXP] reads of a [Message]: [guild] is the id of
    the guild ([None] outside one), [member] the ids of the roles in
    [member.roles.cache] ([None] when there is no member). *)
Record Message := mkMessage {
  author_bot : bool;
  author_id : string;
  guild : option string;
  content : string;
  system : bool;
  member : option (list string);
  channel_id : string
}.

(** [multiplier && multiplier > highestRoleMultiplier] *)
Definition raises (highest multiplier : Q) : bool :=
  negb (Qeq_bool multiplier 0) &&
  (if Qlt_le_dec highest multiplier then true else false).

(** The [forEach] over the member's roles, starting from [1.0]. *)
Definition highestRoleMultiplier (cfg : Config) (roles : list string) : Q :=
  fold_left
    (fun highest role =>
       match roleMultipliers cfg !! role with
       | Some multiplier =>
           if raises highest multiplier then multiplier else highest
       | None => highest
       end)
    roles 1%Q.

(** [Math.max(0, x)] on the rationals, for the amount as the
    specification words it. *)
Definition maxZero (x : Q) : Q :=
  if Qlt_le_dec x 0 then 0%Q else x.

(** Lines 97-119 of [handleMessageXP]: the final multiplier, a double.
    [finalMultiplier] starts at [1.0] and is multiplied by the highest
    role multiplier when the table has entries, then by the channel's
    multiplier, [|| 1.0], when the channel has one. *)
Definition finalMultiplier (cfg : Config) (roles : list string)
    (channelId : string) : Double.double :=
  let m1 :=
    if (0 <? size (roleMultipliers cfg))%nat
    then Double.mul (Double.ofInteger 1)
           (Double.ofRational (highestRoleMultiplier cfg roles))
    else Double.ofInteger 1 in
  let m2 :=
    match channelMultipliers cfg !! channelId with
    | Some c => Double.mul m1 (Double.orOne (Double.ofRational c))
    | None => m1
    end in
  Double.maxZero m2.

(** [Math.max(1, Math.floor(baseXpPerMessage * finalMultiplier))] *)
Definition gainedXP (cfg : Config) (roles : list string) (channelId : string)
  : Z :=
  Double.wholeAtLeastOne
    (Double.mul (Double.ofInteger (xpPerMessage cfg))
                (finalMultiplier cfg roles channelId)).

(** The checks that come before the cooldown: author, guild, content,
    member, base rate, ignored channel, ignored role. *)
Definition passesFilters (cfg : Config) (msg : Message) : bool :=
  negb (author_bot msg) &&
  bool_decide (guild msg <> None) &&
  negb (bool_decide (content msg = "")) &&
  negb (system msg) &&
  bool_decide (member msg <> None) &&
  (0 <? xpPerMessage cfg) &&
  negb (bool_decide (channel_id msg ∈ ignoredChannels cfg)) &&
  negb (existsb (fun role => bool_decide (role ∈ ignoredRoles cfg))
                (default [] (member msg))).

(** [UserLevel.updateOne(...)] of the timestamp and the message counter,
    followed by [cacheManager.del(cacheKey)]. *)
Definition recordMessage (now : Z) (guildId userId : string) (s : State)
  : State :=
  {| db := alter (stampMessage now) (guildId, userId) (db s);
     cache := delete (cacheKey guildId userId) (cache s);
     events := events s |}.

(** [handleMessageXP(message)] under the configuration [cfg] that
    [getConfig] resolved for the guild, at [Date.now() = now], when no
    other handler runs at its awaits: the whole run as one function.
    [resume] below is the same handler cut at its awaits. *)
Definition handleMessageXP (cfg : Config) (now : Z) (msg : Message)
    (s : State) : State :=
  if negb (passesFilters cfg msg) then s
  else
    let guildId := default "" (guild msg) in
    let userId := author_id msg in
    let roles := default [] (member msg) in
    match getUserLevelData now guildId userId s with
    | (Thrown m, s1) =>
        emit [ErrorEvent ("Message XP handling error: " +:+ m)] s1
    | (Returned userData, s1) =>
        let cooldownMillis := messageCooldownSeconds cfg * 1000 in
        let lastTimestamp := lastMessageTimestamp userData in
        if now <? lastTimestamp + cooldownMillis then s1
        else
          let amount := gainedXP cfg roles (channel_id msg) in
          let s2 := recordMessage now guildId userId s1 in
          match addXP now guildId userId amount "message" s2 with
          | (Thrown m, s3) =>
              emit [ErrorEvent ("Message XP handling error: " +:+ m)] s3
          | (Returned _, s3) => s3
          end
    end.

(** *** The handler cut at its awaits *)










Definition isXpGained (e : Event) : bool :=
  match e with
  | XpGained _ _ _ _ _ => true
  | _ => false
  end.

(** The number of experience grants the ledger has announced. *)
Definition grants (s : State) : nat :=
  length (List.filter isXpGained (events s)).

(** The amount as the specification words it: the largest configured
    multiplier among the actor's roles that have one (1 if none), times
    the channel's multiplier if it has one (1 otherwise), clamped at 0,
    then [max(1, floor(baseRate * m))]. *)
Definition specRoleMultiplier (cfg : Config) (roles : list string) : Q :=
  match omap (fun role => roleMultipliers cfg !! role) roles with
  | [] => 1%Q
  | m :: ms =>
      fold_left (fun hi x => if Qlt_le_dec hi x then x else hi) ms m
  end.

Definition specGainedXP (cfg : Config) (roles : list string)
    (channelId : string) : Z :=
  let m := (specRoleMultiplier cfg roles
            * default 1%Q (channelMultipliers cfg !! channelId))%Q in
  Z.max 1 (Qfloor (inject_Z (xpPerMessage cfg) * maxZero m)%Q).

(** A guild that grants 15 points per message, with a cooldown of 60
    seconds and the role [r-half] configured at the multiplier 0.5. *)
Definition halfRateConfig : Config :=
  {| roleMultipliers := {[ "r-half" := (1 # 2)%Q ]};
     channelMultipliers := ∅;
     levelRoles := [];
     ignoredRoles := [];
     ignoredChannels := [];
     xpPerMessage := 15;
     xpPerMinuteVoice := 5;
     messageCooldownSeconds := 60;
     levelUpMessageEnabled := true;
     enablePenaltySystem := false;
     leaderboardStyle := "card";
     roleRemovalStrategy := "keep_all" |}.

(** A guild that grants 100 points per message and 100 per minute of
    voice, with the role [r-boost] configured at the multiplier 1.15. *)
Definition boostConfig : Config :=
  {| roleMultipliers := {[ "r-boost" := (115 # 100)%Q ]};
     channelMultipliers := ∅;
     levelRoles := [];
     ignoredRoles := [];
     ignoredChannels := [];
     xpPerMessage := 100;
     xpPerMinuteVoice := 100;
     messageCooldownSeconds := 60;
     levelUpMessageEnabled := true;
     enablePenaltySystem := false;
     leaderboardStyle := "card";
     roleRemovalStrategy := "keep_all" |}.

(** A message of the member [u1], who holds [r-half], in guild [g1]. *)
Definition sampleMessage (text : string) : Message :=
  {| author_bot := false; author_id := "u1"; guild := Some "g1";
     content := text; system := false; member := Some ["r-half"];
     channel_id := "c1" |}.

(** A message of the member [u2], who holds [r-boost], in guild [g1]. *)
Definition boostedMessage (text : string) : Message :=
  {| author_bot := false; author_id := "u2"; guild := Some "g1";
     content := text; system := false; member := Some ["r-boost"];
     channel_id := "c1" |}.

End XP.

(** ** LevelingManager.addXP: the role rewards of a level-up *)

Module Roles.

(** [parseInt(levelStr, 10)]: leading white space, an optional sign,
    then the longest run of decimal digits; [None] is [NaN]. *)
Definition isSpace (c : ascii) : bool :=
  let n := nat_of_ascii c in
  ((n =? 32) || ((9 <=? n) && (n <=? 13)))%nat.

Definition digitOf (c : ascii) : option Z :=
  let n := nat_of_ascii c in
  if ((48 <=? n) && (n <=? 57))%nat then Some (Z.of_nat n - 48) else None.

Fixpoint skipSpaces (s : string) : string :=
  match s with
  | String c rest => if isSpace c then skipSpaces rest else s
  | EmptyString => s
  end.

Fixpoint readDigits (s : string) (acc : option Z) : option Z :=
  match s with
  | String c rest =>
      match digitOf c with
      | Some d => readDigits rest (Some (10 * default 0 acc + d))
      | None => acc
      end
  | EmptyString => acc
  end.

Definition parseInt (s : string) : option Z :=
  match skipSpaces s with
  | String "-"%char rest => Z.opp <$> readDigits rest None
  | String "+"%char rest => readDigits rest None
  | rest => readDigits rest None
  end.

(** Comparisons with [NaN] are false. *)
Definition levelSatisfies (p : Z -> bool) (levelStr : string) : bool :=
  match parseInt levelStr with
  | Some requiredLevel => p requiredLevel
  | None => false
  end.

(** The addition loop: [newLevel >= requiredLevel && oldLevel <
    requiredLevel && !member.roles.cache.has(roleId)]. *)
Definition rolesToAdd (levelRolesMap : list (string * string))
    (oldLevel newLevel : Z) (held : gset string) : list string :=
  omap (fun e : string * string =>
          if levelSatisfies (fun req => (newLevel >=? req) && (oldLevel <? req))
                            (fst e)
             && negb (bool_decide (snd e ∈ held))
          then Some (snd e) else None)
       levelRolesMap.

(** First loop of [highest_only]: the reward of the highest level
    reached, starting from [(-1, null)]. *)
Definition highestQualified (levelRolesMap : list (string * string))
    (newLevel : Z) : Z * option string :=
  fold_left
    (fun (acc : Z * option string) (e : string * string) =>
       if levelSatisfies (fun req => (newLevel >=? req) && (req >? fst acc))
                         (fst e)
       then (default (fst acc) (parseInt (fst e)), Some (snd e))
       else acc)
    levelRolesMap (-1, None).

(** Second loop of [highest_only]. *)
Definition removeHighestOnly (levelRolesMap : list (string * string))
    (newLevel : Z) (currentMemberRoles : gset string) : list string :=
  let highestRoleId := snd (highestQualified levelRolesMap newLevel) in
  omap (fun e : string * string =>
          if negb (bool_decide (Some (snd e) = highestRoleId))
             && bool_decide (snd e ∈ currentMemberRoles)
          then Some (snd e) else None)
       levelRolesMap.

(** The inner loop of [remove_previous]: is [roleId] the reward of
    [newLevel] itself? *)
Definition isRewardForCurrentLevel (levelRolesMap : list (string * string))
    (newLevel : Z) (roleId : string) : bool :=
  existsb (fun e : string * string =>
             levelSatisfies (fun lvl => lvl =? newLevel) (fst e)
             && bool_decide (snd e = roleId))
          levelRolesMap.

(** The [remove_previous] branch. *)
Definition removePrevious (levelRolesMap : list (string * string))
    (newLevel : Z) (currentMemberRoles : gset string) : list string :=
  omap (fun e : string * string =>
          if levelSatisfies (fun req => req <? newLevel) (fst e)
             && bool_decide (snd e ∈ currentMemberRoles)
             && negb (isRewardForCurrentLevel levelRolesMap newLevel (snd e))
          then Some (snd e) else None)
       levelRolesMap.

(** [config.roleRemovalStrategy || "keep_all"], then the branch of the
    strategy. *)
Definition rolesToRemove (strategy : string)
    (levelRolesMap : list (string * string)) (newLevel : Z)
    (currentMemberRoles : gset string) : list string :=
  let roleRemovalStrategy :=
    if bool_decide (strategy = "") then "keep_all" else strategy in
  if bool_decide (roleRemovalStrategy = "keep_all") then []
  else if bool_decide (roleRemovalStrategy = "highest_only")
  then removeHighestOnly levelRolesMap newLevel currentMemberRoles
  else if bool_decide (roleRemovalStrategy = "remove_previous")
  then removePrevious levelRolesMap newLevel currentMemberRoles
  else [].

Record RoleChange := mkRoleChange {
  added : list string;
  removed : list string;
  holds : gset string
}.

(** The role handling of a level-up for a member found in the guild,
    when both role mutations succeed.  [held] is [member.roles.cache]
    before the call.  The removal pass reads [member.roles.cache] again
    after [member.roles.add] was awaited; [refreshed] tells whether the
    roles just added are visible in it by then.  [member.roles.add] of
    a list sets the member's roles to the cached ones and the list;
    [member.roles.remove] of a list, which is called only for a list
    that is not empty, sets them to the cached ones without the list:
    computed from a cache that does not show the roles just added, it
    drops them again. *)
Definition handleLevelUpRoles (refreshed : bool) (strategy : string)
    (levelRolesMap : list (string * string)) (oldLevel newLevel : Z)
    (held : gset string) : RoleChange :=
  if bool_decide (levelRolesMap = []) then
    {| added := []; removed := []; holds := held |}
  else
    let toAdd := rolesToAdd levelRolesMap oldLevel newLevel held in
    let afterAdd := held ∪ list_to_set toAdd in
    let currentMemberRoles := if refreshed then afterAdd else held in
    let toRemove :=
      rolesToRemove strategy levelRolesMap newLevel currentMemberRoles in
    {| added := toAdd; removed := toRemove;
       holds := if bool_decide (toRemove = []) then afterAdd
                else currentMemberRoles ∖ list_to_set toRemove |}.

(** The reward table of the examples: level 5 gives A, level 10 gives
    B, level 15 gives C. *)
Definition tierRewards : list (string * string) :=
  [("5", "A"); ("10", "B"); ("15", "C")].

End Roles.

(** ** VoiceManager: the voice presence tracker *)

Module Voice.

(** What the tracker reads of a [VoiceState]. *)
Record VoiceState := mkVoiceState {
  channelId : option string;
  deaf : bool;
  suppress : bool
}.

(** One call [xpManager.handleVoiceXP(guildId, userId, durationMillis)]:
    the key it was made for, the tracked start it was computed from,
    the clock reading it was computed at, and the duration handed over. *)
Record Flush := mkFlush {
  f_key : string;
  f_start : Z;
  f_stop : Z;
  f_duration : Z
}.

(** [voiceJoinTimes], whether the interval timer [xpInterval] is set,
    and the calls made to [handleVoiceXP] so far. *)
Record Tracker := mkTracker {
  voiceJoinTimes : gmap string Z;
  xpInterval : bool;
  calls : list Flush
}.

(** [this.intervalMinutes * 60 * 1000] *)
Definition intervalMillis : Z := 5 * 60 * 1000.

(** [this.intervalMillis * 0.95], which is exactly 285000. *)
Definition sweepThreshold : Z := 285000.

(** [`${guildId}-${userId}`] *)
Definition voiceKey (guildId userId : string) : string :=
  guildId +:+ "-" +:+ userId.

(** [channelId && !deaf && !suppress] *)
Definition validForXp (v : VoiceState) : bool :=
  bool_decide (channelId v <> None) && negb (deaf v) && negb (suppress v).

(** Truthiness of [voiceJoinTimes.get(key)]. *)
Definition tracked (joinTime : option Z) : bool :=
  match joinTime with
  | Some t => negb (t =? 0)
  | None => false
  end.

(** [_processXpGainOnExit] at [Date.now() = now]. *)
Definition _processXpGainOnExit (now : Z) (key : string) (joinTime : Z)
    (s : Tracker) : Tracker :=
  let durationMillis := now - joinTime in
  if durationMillis >? 10000
  then {| voiceJoinTimes := voiceJoinTimes s; xpInterval := xpInterval s;
          calls := calls s ++ [mkFlush key joinTime now durationMillis] |}
  else s.

Definition setJoin (key : string) (t : Z) (s : Tracker) : Tracker :=
  {| voiceJoinTimes := <[key := t]> (voiceJoinTimes s);
     xpInterval := xpInterval s; calls := calls s |}.

Definition deleteJoin (key : string) (s : Tracker) : Tracker :=
  {| voiceJoinTimes := delete key (voiceJoinTimes s);
     xpInterval := xpInterval s; calls := calls s |}.

(** [handleVoiceStateUpdate(oldState, newState)] for the member behind
    [key]; [isUser] is [member && !member.user.bot].  This is the whole
    run of the handler when nothing else runs while it awaits
    [_processXpGainOnExit]; [updateUntilAwait] below is the handler cut
    at that await. *)
Definition handleVoiceStateUpdate (now : Z) (key : string) (isUser : bool)
    (oldState newState : VoiceState) (s : Tracker) : Tracker :=
  if negb isUser then s
  else
    let joinTime := voiceJoinTimes s !! key in
    let isValidForXp := validForXp newState in
    let wasValidForXp := validForXp oldState in
    if negb wasValidForXp && isValidForXp then
      if negb (tracked joinTime) then setJoin key now s else s
    else if wasValidForXp && negb isValidForXp then
      match joinTime with
      | Some t =>
          if tracked joinTime
          then deleteJoin key (_processXpGainOnExit now key t s)
          else s
      | None => s
      end
    else s.

(** What the sweep finds out about the member behind a key: the guild
    is not in the client's cache; the member is no longer eligible (not
    found, a bot, out of voice, deafened or suppressed), with the clock
    reading of the flush; or the member is still eligible. *)
Inductive Presence :=
| GuildGone
| Ineligible (flushedAt : Z)
| Eligible.

(** One turn of the loop of [checkVoiceActivity], when nothing else
    runs while it awaits [handleVoiceXP]; [sweepUntilAwait] below is the
    turn cut at that await. *)
Definition sweepEntry (presence : string -> Presence) (now : Z)
    (s : Tracker) (entry : string * Z) : Tracker :=
  let key := fst entry in
  let joinTime := snd entry in
  match presence key with
  | GuildGone => deleteJoin key s
  | Ineligible flushedAt =>
      deleteJoin key (_processXpGainOnExit flushedAt key joinTime s)
  | Eligible =>
      if now - joinTime >=? sweepThreshold
      then setJoin key now
             {| voiceJoinTimes := voiceJoinTimes s;
                xpInterval := xpInterval s;
                calls := calls s
                  ++ [mkFlush key joinTime now intervalMillis] |}
      else s
  end.

(** [checkVoiceActivity()]: [now] is read once, then every entry is
    visited. *)
Definition checkVoiceActivity (presence : string -> Presence) (now : Z)
    (s : Tracker) : Tracker :=
  fold_left (sweepEntry presence now) (map_to_list (voiceJoinTimes s)) s.

(** The call that [shutdown] makes for an entry tracked for more than a
    second. *)
Definition shutdownFlush (now : Z) (entry : string * Z) : option Flush :=
  let durationMillis := now - snd entry in
  if durationMillis >? 1000
  then Some (mkFlush (fst entry) (snd entry) now durationMillis)
  else None.

(** [shutdown()]: only with the timer set; stops it, flushes, clears. *)
Definition shutdown (now : Z) (s : Tracker) : Tracker :=
  if xpInterval s then
    {| voiceJoinTimes := ∅;
       xpInterval := false;
       calls := calls s
         ++ omap (shutdownFlush now) (map_to_list (voiceJoinTimes s)) |}
  else s.

(** *** The handlers cut at their awaits *)










(** What can happen to the tracker when each handler runs to its end
    before the next starts, with the clock readings it takes.
    A sweep reads the clock when it starts; its flushes read it again
    and are over by [finished]. *)
Inductive Input :=
| VoiceUpdate (now : Z) (key : string) (isUser : bool)
              (oldState newState : VoiceState)
| Sweep (now : Z) (presence : string -> Presence) (finished : Z)
| Shutdown (now : Z).

Definition step (s : Tracker) (i : Input) : Tracker :=
  match i with
  | VoiceUpdate now key isUser oldState newState =>
      handleVoiceStateUpdate now key isUser oldState newState s
  | Sweep now presence _ => checkVoiceActivity presence now s
  | Shutdown now => shutdown now s
  end.

Definition run (s : Tracker) (inputs : list Input) : Tracker :=
  fold_left step inputs s.

(** The constructor's state. *)
Definition start : Tracker :=
  {| voiceJoinTimes := ∅; xpInterval := true; calls := [] |}.




(** The calls made for one key, in the order they were made. *)
Definition callsFor (key : string) (s : Tracker) : list Flush :=
  filter (fun c => f_key c = key) (calls s).



(** The call, if any, that an input makes for a key tracked since [t];
    [timer] is [xpInterval] before the input.  This and [joinAfter] are
    the code seen from one key; [step_calls] and [step_join] prove them
    equal to the code. *)
Definition flushOf (timer : bool) (i : Input) (key : string) (t : Z)
  : list Flush :=
  match i with
  | VoiceUpdate now key' isUser oldState newState =>
      if bool_decide (key' = key) && isUser && validForXp oldState
         && negb (validForXp newState) && negb (t =? 0)
         && (now - t >? 10000)
      then [mkFlush key t now (now - t)] else []
  | Sweep now presence _ =>
      match presence key with
      | GuildGone => []
      | Ineligible flushedAt =>
          if flushedAt - t >? 10000
          then [mkFlush key t flushedAt (flushedAt - t)] else []
      | Eligible =>
          if now - t >=? sweepThreshold
          then [mkFlush key t now intervalMillis] else []
      end
  | Shutdown now =>
      if timer && (now - t >? 1000)
      then [mkFlush key t now (now - t)] else []
  end.

(** The entry of a key after one turn of the sweep's loop on it. *)
Definition sweptJoin (presence : string -> Presence) (now : Z)
    (key : string) (t : Z) (joinTime : option Z) : option Z :=
  match presence key with
  | GuildGone => None
  | Ineligible _ => None
  | Eligible => if now - t >=? sweepThreshold then Some now else joinTime
  end.




(** A member in a voice channel, and one outside. *)
Definition inVoice : VoiceState :=
  {| channelId := Some "voice-1"; deaf := false; suppress := false |}.

Definition outOfVoice : VoiceState :=
  {| channelId := None; deaf := false; suppress := false |}.

(** A session: the member joins a voice channel, a sweep finds the
    member still eligible five minutes later, then the member leaves. *)
Definition sampleSession : list Input :=
  [ VoiceUpdate 1000 "g1-u1" true outOfVoice inVoice;
    Sweep 301000 (fun _ => Eligible) 301050;
    VoiceUpdate 400000 "g1-u1" true inVoice outOfVoice ].

End Voice.

(** ** LevelingManager: ranks and resets; XPManager: voice grants and
       penalties *)

Module Standing.
Import Level Ledger GuildConfig XP.

(** The events of the two resets; they are handed back beside the
    result of the call that emits them. *)
Inductive ResetEvent :=
| UserLevelReset (guildId userId : string)
| GuildLevelsReset (guildId : string) (count : Z).

(** [countDocuments({ guildId, xp: { $gt: bound } })] *)
Definition countAbove (guildId : string) (bound : Z) (s : State) : Z :=
  Z.of_nat
    (length (filter (fun e : (string * string) * UserLevel =>
                       fst (fst e) = guildId /\ bound < xp (snd e))
                    (map_to_list (db s)))).

(** [getUserRank(guildId, userId)]: 0 for a user without experience,
    else one more than the number of documents of the guild with more
    experience. *)
Definition getUserRank (now : Z) (guildId userId : string) (s : State)
  : outcome Z * State :=
  if missing guildId || missing userId
  then (Thrown "guildId dan userId diperlukan untuk getUserRank.", s)
  else
    match getUserLevelData now guildId userId s with
    | (Thrown m, s1) =>
        (Returned 0,
         emit [ErrorEvent ("Failed to get rank for " +:+ userId +:+ "@"
                           +:+ guildId +:+ ": " +:+ m)] s1)
    | (Returned userData, s1) =>
        if xp userData <=? 0 then (Returned 0, s1)
        else (Returned (countAbove guildId (xp userData) s1 + 1), s1)
    end.

(** [$set] of [resetUserLevel]. *)
Definition resetDoc (now : Z) (d : UserLevel) : UserLevel :=
  {| xp := 0; level := 0; lastMessageTimestamp := 0; totalMessages := 0;
     totalVoiceDurationMillis := 0; updatedAt := now |}.

(** [resetUserLevel(guildId, userId)]: the document, if there is one, is
    zeroed in place, the cache entry is deleted, the event is emitted;
    the result tells whether a document was matched. *)
Definition resetUserLevel (now : Z) (guildId userId : string) (s : State)
  : (bool * list ResetEvent) * State :=
  if missing guildId || missing userId then ((false, []), s)
  else
    ((bool_decide (is_Some (db s !! (guildId, userId))),
      [UserLevelReset guildId userId]),
     {| db := alter (resetDoc now) (guildId, userId) (db s);
        cache := delete (cacheKey guildId userId) (cache s);
        events := events s |}).

(** [`level-${guildId}-`], the prefix of the cache keys of a guild. *)
Definition guildPrefix (guildId : string) : string :=
  "level-" +:+ guildId +:+ "-".

(** [resetGuildLevels(guildId)]: [deleteMany({ guildId })], then the
    cache keys that start with the guild's prefix are deleted; the
    result is the number of documents deleted ([None] is [null]). *)
Definition resetGuildLevels (guildId : string) (s : State)
  : (option Z * list ResetEvent) * State :=
  if missing guildId then ((None, []), s)
  else
    let deletedCount :=
      Z.of_nat (length (filter (fun e : (string * string) * UserLevel =>
                                  fst (fst e) = guildId)
                               (map_to_list (db s)))) in
    ((Some deletedCount, [GuildLevelsReset guildId deletedCount]),
     {| db := filter (fun e : (string * string) * UserLevel =>
                        fst (fst e) <> guildId) (db s);
        cache := filter (fun e : string * UserLevel =>
                           String.prefix (guildPrefix guildId) (fst e)
                           = false) (cache s);
        events := events s |}).

(** [applyPenalty(guildId, userId, amount, reason)] under the
    configuration resolved for the guild. *)
Definition applyPenalty (cfg : Config) (now : Z) (guildId userId : string)
    (amount : Z) (reason : string) (s : State)
  : outcome (option UserLevel) * State :=
  if amount <=? 0 then (Returned None, s)
  else if negb (enablePenaltySystem cfg) then (Returned None, s)
  else removeXP now guildId userId amount reason s.

(** What [handleVoiceXP] reads of the member it fetches. *)
Record VoiceMember := mkVoiceMember {
  vm_bot : bool;
  vm_roles : list string;
  vm_deaf : bool;
  vm_suppress : bool;
  vm_channel : option string
}.

(** The checks of [handleVoiceXP] on the member; [None] stands for a
    guild missing from the cache or a member that cannot be fetched. *)
Definition voiceEligible (cfg : Config) (m : option VoiceMember) : bool :=
  match m with
  | None => false
  | Some m =>
      negb (vm_bot m) &&
      negb (existsb (fun role => bool_decide (role ∈ ignoredRoles cfg))
                    (vm_roles m)) &&
      negb (vm_deaf m) && negb (vm_suppress m) &&
      negb (match vm_channel m with
            | Some c => bool_decide (c ∈ ignoredChannels cfg)
            | None => false
            end)
  end.

(** The amount of a voice grant, in the doubles the code computes it
    in: [durationMillis / (1000 * 60)], times the rate, times the
    multiplier ([1.0], multiplied by the highest role multiplier when
    the table has entries, then [Math.max(0, ...)]), floored, at least
    1. *)
Definition voiceGainedXP (cfg : Config) (roles : list string)
    (durationMillis : Z) : Z :=
  let durationMinutes :=
    Double.div (Double.ofInteger durationMillis)
               (Double.ofInteger (1000 * 60)) in
  let baseXP :=
    Double.mul durationMinutes (Double.ofInteger (xpPerMinuteVoice cfg)) in
  let m1 :=
    if (0 <? size (roleMultipliers cfg))%nat
    then Double.mul (Double.ofInteger 1)
           (Double.ofRational (highestRoleMultiplier cfg roles))
    else Double.ofInteger 1 in
  Double.wholeAtLeastOne (Double.mul baseXP (Double.maxZero m1)).

(** [$inc: { totalVoiceDurationMillis: Math.round(durationMillis) }] *)
Definition addVoiceTime (now durationMillis : Z) (d : UserLevel) : UserLevel :=
  {| xp := xp d; level := level d;
     lastMessageTimestamp := lastMessageTimestamp d;
     totalMessages := totalMessages d;
     totalVoiceDurationMillis := totalVoiceDurationMillis d + durationMillis;
     updatedAt := now |}.

(** [UserLevel.updateOne] of the voice counter (no upsert), followed by
    [cacheManager.del(cacheKey)]. *)
Definition recordVoice (now durationMillis : Z) (guildId userId : string)
    (s : State) : State :=
  {| db := alter (addVoiceTime now durationMillis) (guildId, userId) (db s);
     cache := delete (cacheKey guildId userId) (cache s);
     events := events s |}.

(** [handleVoiceXP(guildId, userId, durationMillis)] under the
    configuration resolved for the guild and the member fetched: the
    function of its whole run, with no other call on the ledger in
    between. *)
Definition handleVoiceXP (cfg : Config) (m : option VoiceMember) (now : Z)
    (guildId userId : string) (durationMillis : Z) (s : State) : State :=
  if durationMillis <=? 0 then s
  else if xpPerMinuteVoice cfg <=? 0 then s
  else if negb (voiceEligible cfg m) then s
  else
    let roles := default [] (vm_roles <$> m) in
    let amount := voiceGainedXP cfg roles durationMillis in
    let s1 := recordVoice now durationMillis guildId userId s in
    match addXP now guildId userId amount "voice" s1 with
    | (Thrown msg, s2) =>
        emit [ErrorEvent ("Voice XP handling error: " +:+ msg)] s2
    | (Returned _, s2) => s2
    end.

(** Everything that the managers do to the ledger. *)
Inductive Op :=
| Read (now : Z) (guildId userId : string)
| Grant (now : Z) (guildId userId : string) (amount : Z) (source : string)
| Revoke (now : Z) (guildId userId : string) (amount : Z) (reason : string)
| Penalty (cfg : Config) (now : Z) (guildId userId : string) (amount : Z)
          (reason : string)
| MessageSeen (cfg : Config) (now : Z) (msg : Message)
| VoiceTime (cfg : Config) (m : option VoiceMember) (now : Z)
            (guildId userId : string) (durationMillis : Z)
| Rank (now : Z) (guildId userId : string)
| ResetUser (now : Z) (guildId userId : string)
| ResetGuild (guildId : string).

Definition perform (s : State) (op : Op) : State :=
  match op with
  | Read now g u => snd (getUserLevelData now g u s)
  | Grant now g u amount source => snd (addXP now g u amount source s)
  | Revoke now g u amount reason => snd (removeXP now g u amount reason s)
  | Penalty cfg now g u amount reason =>
      snd (applyPenalty cfg now g u amount reason s)
  | MessageSeen cfg now msg => handleMessageXP cfg now msg s
  | VoiceTime cfg m now g u d => handleVoiceXP cfg m now g u d s
  | Rank now g u => snd (getUserRank now g u s)
  | ResetUser now g u => snd (resetUserLevel now g u s)
  | ResetGuild g => snd (resetGuildLevels g s)
  end.

(** A ledger with no document, no cache entry and no event. *)
Definition emptyLedger : State := {| db := ∅; cache := ∅; events := [] |}.

(** A record as the schema wants it: experience not negative, and the
    level that of the experience. *)
Definition sound (d : UserLevel) : Prop :=
  0 <= xp d /\ level d = getLevelFromXP (xp d).

Definition allSound (s : State) : Prop :=
  (forall k d, db s !! k = Some d -> sound d) /\
  (forall k d, cache s !! k = Some d -> sound d).

(** An id without the separator of the cache keys. *)
Definition dashFree (id : string) : Prop :=
  "-"%char ∉ String.list_ascii_of_string id.

(** Lines of the [rank] command: the experience gathered inside the
    current level, and the experience that the level spans. *)
Definition currentLevelXP (userData : UserLevel) : Z :=
  xp userData - xpForLevel (level userData).

Definition requiredXPForNext (userData : UserLevel) : Z :=
  xpForLevel (level userData + 1) - xpForLevel (level userData).

End Standing.

(** ** The ledger as a whole: whose record an operation touches *)

Module Upkeep.
Import Level Ledger GuildConfig XP Standing.

(** The guild an operation is about. *)
Definition opGuild (op : Op) : string :=
  match op with
  | Read _ g _ | Grant _ g _ _ _ | Revoke _ g _ _ _ | Penalty _ _ g _ _ _
  | VoiceTime _ _ _ g _ _ | Rank _ g _ | ResetUser _ g _ | ResetGuild g => g
  | MessageSeen _ _ msg => default "" (guild msg)
  end.

(** No cache entry of a guild with a dash-free id differs from the
    stored document. *)
Definition coherent (s : State) : Prop :=
  forall g u, dashFree g -> coherentAt g u s.

(** The filter of [countDocuments({ guildId, xp: { $gt: bound } })]. *)
Definition above (g : string) (bound : Z)
    (e : (string * string) * UserLevel) : Prop :=
  fst (fst e) = g /\ bound < xp (snd e).

End Upkeep.

(** ** The [levelDown] handler *)

Module LevelDownHandler.
Import Roles.

(** The loop over [levelRolesMap.entries()]: an entry whose level does
    not parse is skipped; [requiredLevel > data.newLevel &&
    currentMemberRoles.has(roleId)]. *)
Definition rolesToRemove (levelRolesMap : list (string * string))
    (newLevel : Z) (currentMemberRoles : gset string) : list string :=
  omap (fun e : string * string =>
          if levelSatisfies (fun requiredLevel => requiredLevel >? newLevel)
                            (fst e)
             && bool_decide (snd e ∈ currentMemberRoles)
          then Some (snd e) else None)
       levelRolesMap.

(** [execute(levelingSystem, data)] for a member found in the guild,
    when [member.roles.remove] succeeds: the roles removed, in the order
    of the [roleRemoved] events, and the roles held afterwards. *)
Definition execute (levelRolesMap : list (string * string)) (newLevel : Z)
    (held : gset string) : list string * gset string :=
  if bool_decide (levelRolesMap = []) then ([], held)
  else
    let toRemove := rolesToRemove levelRolesMap newLevel held in
    (toRemove, held ∖ list_to_set toRemove).

End LevelDownHandler.

(** ** GuildConfigManager.deleteConfig and the [levelconfig] command *)

Module LevelConfigCommand.
Import GuildConfig.

(** [deleteConfig(guildId)]: [deleteOne], then the cache entry is
    dropped; the guilds of the [configDeleted] events are handed back
    beside the result. *)
Definition deleteConfig (guildId : string) (st : Store)
  : (bool * list string) * Store :=
  if missing guildId then ((false, []), st)
  else
    let deleted := bool_decide (is_Some (docs st !! guildId)) in
    ((deleted, if deleted then [guildId] else []),
     {| docs := delete guildId (docs st);
        ccache := delete (configKey guildId) (ccache st);
        cevents := cevents st |}).

(** The subcommands that build an [update] from their options and the
    current configuration. *)
Inductive Subcommand :=
| XpMessage (amount : Z)
| XpVoice (amount : Z)
| Cooldown (seconds : Z)
| PenaltySystem (enabled : bool)
| LeaderboardStyle (style : string)
| Toggle (enabled : bool)
| IgnoresAddRole (id : string)
| IgnoresRemoveRole (id : string)
| IgnoresAddChannel (id : string)
| IgnoresRemoveChannel (id : string)
| MultipliersSetRole (id : string) (multiplier : Q)
| MultipliersRemoveRole (id : string)
| MultipliersSetChannel (id : string) (multiplier : Q)
| MultipliersRemoveChannel (id : string)
| RoleStrategy (strategy : string).

(** An [update] object with the given properties, [levelRoles] left
    out. *)
Definition settings (roleM channelM : jsDict (gmap string Q))
    (roles channels : option (list string)) (perMessage perMinute cool : option Z)
    (notify penalty : option bool) (style strategy : jsString) : RawConfig :=
  {| r_roleMultipliers := roleM;
     r_channelMultipliers := channelM;
     r_levelRoles := DAbsent;
     r_ignoredRoles := roles;
     r_ignoredChannels := channels;
     r_xpPerMessage := perMessage;
     r_xpPerMinuteVoice := perMinute;
     r_messageCooldownSeconds := cool;
     r_levelUpMessageEnabled := notify;
     r_enablePenaltySystem := penalty;
     r_leaderboardStyle := style;
     r_roleRemovalStrategy := strategy |}.

(** The [switch] of [execute]; [None] is [update = null]. *)
Definition buildUpdate (currentConfig : Config) (c : Subcommand)
  : option RawConfig :=
  match c with
  | XpMessage amount =>
      Some (settings DAbsent DAbsent None None (Some amount) None None
                     None None JUndefined JUndefined)
  | XpVoice amount =>
      Some (settings DAbsent DAbsent None None None (Some amount) None
                     None None JUndefined JUndefined)
  | Cooldown seconds =>
      Some (settings DAbsent DAbsent None None None None (Some seconds)
                     None None JUndefined JUndefined)
  | PenaltySystem enabled =>
      Some (settings DAbsent DAbsent None None None None None
                     None (Some enabled) JUndefined JUndefined)
  | LeaderboardStyle style =>
      Some (settings DAbsent DAbsent None None None None None
                     None None (JStr style) JUndefined)
  | Toggle enabled =>
      Some (settings DAbsent DAbsent None None None None None
                     (Some enabled) None JUndefined JUndefined)
  | IgnoresAddRole id =>
      if negb (bool_decide (id ∈ ignoredRoles currentConfig))
      then Some (settings DAbsent DAbsent
                          (Some (ignoredRoles currentConfig ++ [id])) None
                          None None None None None JUndefined JUndefined)
      else None
  | IgnoresRemoveRole id =>
      if bool_decide (id ∈ ignoredRoles currentConfig)
      then Some (settings DAbsent DAbsent
                          (Some (filter (fun x => x <> id)
                                        (ignoredRoles currentConfig))) None
                          None None None None None JUndefined JUndefined)
      else None
  | IgnoresAddChannel id =>
      if negb (bool_decide (id ∈ ignoredChannels currentConfig))
      then Some (settings DAbsent DAbsent None
                          (Some (ignoredChannels currentConfig ++ [id]))
                          None None None None None JUndefined JUndefined)
      else None
  | IgnoresRemoveChannel id =>
      if bool_decide (id ∈ ignoredChannels currentConfig)
      then Some (settings DAbsent DAbsent None
                          (Some (filter (fun x => x <> id)
                                        (ignoredChannels currentConfig)))
                          None None None None None JUndefined JUndefined)
      else None
  | MultipliersSetRole id multiplier =>
      Some (settings (DMap (<[id := multiplier]>
                              (roleMultipliers currentConfig))) DAbsent
                     None None None None None None None
                     JUndefined JUndefined)
  | MultipliersRemoveRole id =>
      if bool_decide (is_Some (roleMultipliers currentConfig !! id))
      then Some (settings (DMap (delete id (roleMultipliers currentConfig)))
                          DAbsent None None None None None None None
                          JUndefined JUndefined)
      else None
  | MultipliersSetChannel id multiplier =>
      Some (settings DAbsent
                     (DMap (<[id := multiplier]>
                              (channelMultipliers currentConfig)))
                     None None None None None None None
                     JUndefined JUndefined)
  | MultipliersRemoveChannel id =>
      if bool_decide (is_Some (channelMultipliers currentConfig !! id))
      then Some (settings DAbsent
                          (DMap (delete id (channelMultipliers currentConfig)))
                          None None None None None None None
                          JUndefined JUndefined)
      else None
  | RoleStrategy strategy =>
      Some (settings DAbsent DAbsent None None None None None
                     None None JUndefined (JStr strategy))
  end.

(** [interaction.options.getSubcommand()] *)
Definition subcommand (c : Subcommand) : string :=
  match c with
  | XpMessage _ => "xp_message"
  | XpVoice _ => "xp_voice"
  | Cooldown _ => "cooldown"
  | PenaltySystem _ => "penalty_system"
  | LeaderboardStyle _ => "leaderboard_style"
  | Toggle _ => "toggle"
  | IgnoresAddRole _ => "add_role"
  | IgnoresRemoveRole _ | MultipliersRemoveRole _ => "remove_role"
  | IgnoresAddChannel _ => "add_channel"
  | IgnoresRemoveChannel _ | MultipliersRemoveChannel _ => "remove_channel"
  | MultipliersSetRole _ _ => "set_role"
  | MultipliersSetChannel _ _ => "set_channel"
  | RoleStrategy _ => "role_strategy"
  end.

Definition commandError (c : Subcommand) (message : string) (st : Store)
  : Store :=
  {| docs := docs st; ccache := ccache st;
     cevents := cevents st
       ++ [ConfigError ("Levelconfig command error (" +:+ subcommand c
                        +:+ "): " +:+ message)] |}.

(** [execute(interaction, levelingSystem)] for these subcommands: the
    current configuration is read, the update is built and, unless it
    is [null], handed to [updateConfig]; an error is caught and
    emitted. *)
Definition execute (dflt : Config) (guildId : string) (c : Subcommand)
    (st : Store) : Store :=
  match getConfig dflt guildId st with
  | (Thrown m, st1) => commandError c m st1
  | (Returned currentConfig, st1) =>
      match buildUpdate currentConfig c with
      | None => st1
      | Some update =>
          match updateConfig dflt guildId update st1 with
          | (Thrown m, st2) => commandError c m st2
          | (Returned _, st2) => st2
          end
      end
  end.

(** The configuration a guild runs under: what [getConfig] answers. *)
Definition configOf (dflt : Config) (guildId : string) (st : Store)
  : outcome Config :=
  fst (getConfig dflt guildId st).

(** The cache holds, for each guild with an entry, what the collection
    gives for it. *)
Definition cacheFresh (dflt : Config) (st : Store) : Prop :=
  forall g c, ccache st !! configKey g = Some c ->
    c = match docs st !! g with
        | None => dflt
        | Some dbConfig =>
            _normalizeConfig (Some dflt) (overDefaults dflt dbConfig)
        end.

(** The cache entry of a guild runs out; entries are set with a time
    to live of 1800 seconds. *)
Definition expire (guildId : string) (st : Store) : Store :=
  {| docs := docs st;
     ccache := delete (configKey guildId) (ccache st);
     cevents := cevents st |}.

(** Everything that is done to the configuration store. *)
Inductive ConfigOp :=
| Get (guildId : string)
| Update (guildId : string) (newSettings : RawConfig)
| Delete (guildId : string)
| Command (guildId : string) (c : Subcommand)
| Expire (guildId : string).

Definition performConfig (dflt : Config) (st : Store) (op : ConfigOp)
  : Store :=
  match op with
  | Get g => snd (getConfig dflt g st)
  | Update g newSettings => snd (updateConfig dflt g newSettings st)
  | Delete g => snd (deleteConfig g st)
  | Command g c => execute dflt g c st
  | Expire g => expire g st
  end.

Definition emptyStore : Store := {| docs := ∅; ccache := ∅; cevents := [] |}.

End LevelConfigCommand.

(** ** The [voiceStateUpdate] event and the keys of the tracker *)

Module VoiceStateUpdateEvent.
Import Voice.

(** [execute(client, oldState, newState)]: without a voice manager, or
    when channel, deafening and suppression are all unchanged, the
    event is dropped; else it goes to [handleVoiceStateUpdate]. *)
Definition execute (voiceManager : bool) (now : Z) (key : string)
    (isUser : bool) (oldState newState : VoiceState) (s : Tracker)
  : Tracker :=
  if negb voiceManager then s
  else if bool_decide (channelId oldState = channelId newState)
          && Bool.eqb (deaf oldState) (deaf newState)
          && Bool.eqb (suppress oldState) (suppress newState)
  then s
  else handleVoiceStateUpdate now key isUser oldState newState s.

(** An id without the separator of the keys. *)
Definition dashFree_string (id : string) : Prop :=
  "-"%char ∉ String.list_ascii_of_string id.

(** [key.split("-")] *)
Fixpoint split_dash (key : string) : list string :=
  match key with
  | EmptyString => [EmptyString]
  | String c rest =>
      if Ascii.eqb c "-" then EmptyString :: split_dash rest
      else match split_dash rest with
           | piece :: pieces => String c piece :: pieces
           | [] => [String c EmptyString]
           end
  end.

(** [const [guildId, userId] = key.split("-")]; [None] is
    [undefined]. *)
Definition sweepIds (key : string) : option string * option string :=
  let pieces := split_dash key in
  (pieces !! 0%nat, pieces !! 1%nat).

(** What a call to [handleVoiceXP] may hand over: the span it measured,
    longer than a second, or the fixed interval for a span of at least
    95% of it. *)
Definition fairCredit (c : Flush) : Prop :=
  (f_duration c = f_stop c - f_start c /\ 1000 < f_duration c) \/
  (f_duration c = intervalMillis /\ sweepThreshold <= f_stop c - f_start c).

End VoiceStateUpdateEvent.

(** * Properties *)

Section LevelFacts.
Import Level.

Lemma xpForLevel_pos (l : Z) :
  0 < l -> xpForLevel l = 5 * l ^ 2 + 50 * l + 100.
Proof.
  intros Hl. unfold xpForLevel.
  destruct (Z.leb_spec l 0); [lia | reflexivity].
Qed.

Lemma xpForLevel_nonpos (l : Z) : l <= 0 -> xpForLevel l = 0.
Proof.
  intros Hl. unfold xpForLevel.
  destruct (Z.leb_spec l 0); [reflexivity | lia].
Qed.

Lemma xpForLevel_strict_mono (a b : Z) :
  0 <= a -> a < b -> xpForLevel a < xpForLevel b.
Proof.
  intros Ha Hab. rewrite (xpForLevel_pos b) by lia.
  destruct (Z.eq_dec a 0) as [-> | Hne].
  - rewrite xpForLevel_nonpos by lia. nia.
  - rewrite xpForLevel_pos by lia. nia.
Qed.

Lemma xpForLevel_mono (a b : Z) :
  0 <= a -> a <= b -> xpForLevel a <= xpForLevel b.
Proof.
  intros Ha Hab. destruct (Z.eq_dec a b) as [-> | Hne]; [lia |].
  apply Z.lt_le_incl, xpForLevel_strict_mono; lia.
Qed.

(** A level whose threshold is reached lies under the square root of the
    experience: this is what bounds the loop. *)
Lemma threshold_le_sqrt (xp l : Z) :
  0 < l -> xpForLevel l <= xp -> l <= Z.sqrt xp.
Proof.
  intros Hl Hx. rewrite xpForLevel_pos in Hx by lia.
  rewrite <- (Z.sqrt_square l) by lia.
  apply Z.sqrt_le_mono. nia.
Qed.

(** The loop stops, and it stops on the level whose bracket holds [xp]. *)
Lemma levelLoop_bracket (fuel : nat) (xp level : Z) :
  0 <= level -> xpForLevel level <= xp ->
  (Z.to_nat (Z.sqrt xp - level) < fuel)%nat ->
  exists l, levelLoop fuel xp level = Some l /\ level <= l /\
            xpForLevel l <= xp < xpForLevel (l + 1).
Proof.
  revert level. induction fuel as [| fuel IH]; intros level Hl Hx Hf; [lia |].
  cbn [levelLoop].
  destruct (Z.geb_spec xp (xpForLevel (level + 1))) as [Hge | Hlt].
  - assert (Hs : level + 1 <= Z.sqrt xp) by (apply threshold_le_sqrt; lia).
    destruct (IH (level + 1)) as (l & Hrun & Hle & Hbr); [lia | lia | lia |].
    exists l. split; [exact Hrun | split; [lia | exact Hbr]].
  - exists level. split; [reflexivity | split; lia].
Qed.

(** Totality: the budget of [getLevelFromXP_run] is always enough. *)
Lemma getLevelFromXP_run_total (xp : Z) :
  getLevelFromXP_run xp = Some (getLevelFromXP xp).
Proof.
  unfold getLevelFromXP, getLevelFromXP_run.
  destruct (Z.leb_spec xp 0) as [Hle | Hpos]; [reflexivity |].
  destruct (levelLoop_bracket (levelFuel xp) xp 0) as (l & Hrun & _ & _).
  - lia.
  - rewrite xpForLevel_nonpos; lia.
  - unfold levelFuel. pose proof (Z.sqrt_nonneg xp). lia.
  - rewrite Hrun. reflexivity.
Qed.

Lemma getLevelFromXP_nonpos (xp : Z) : xp <= 0 -> getLevelFromXP xp = 0.
Proof.
  intros Hle. unfold getLevelFromXP, getLevelFromXP_run.
  destruct (Z.leb_spec xp 0); [reflexivity | lia].
Qed.

(** For positive experience the result is the level of the bracket. *)
Lemma getLevelFromXP_bracket (xp : Z) :
  0 < xp ->
  0 <= getLevelFromXP xp /\
  xpForLevel (getLevelFromXP xp) <= xp < xpForLevel (getLevelFromXP xp + 1).
Proof.
  intros Hpos. unfold getLevelFromXP, getLevelFromXP_run.
  destruct (Z.leb_spec xp 0) as [Hle | _]; [lia |].
  destruct (levelLoop_bracket (levelFuel xp) xp 0) as (l & Hrun & Hl & Hbr).
  - lia.
  - rewrite xpForLevel_nonpos; lia.
  - unfold levelFuel. pose proof (Z.sqrt_nonneg xp). lia.
  - rewrite Hrun. split; [lia | exact Hbr].
Qed.

(** The bracket determines the level. *)
Lemma getLevelFromXP_unique (xp l : Z) :
  0 <= l -> xpForLevel l <= xp < xpForLevel (l + 1) ->
  getLevelFromXP xp = l.
Proof.
  intros Hl [Hlo Hhi].
  destruct (Z.le_gt_cases xp 0) as [Hxp | Hxp].
  - rewrite getLevelFromXP_nonpos by exact Hxp.
    destruct (Z.eq_dec l 0) as [-> | Hne]; [reflexivity |].
    rewrite xpForLevel_pos in Hlo by lia. nia.
  - destruct (getLevelFromXP_bracket xp Hxp) as (Hg & Hglo & Hghi).
    set (g := getLevelFromXP xp) in *.
    destruct (Z.lt_trichotomy g l) as [Hlt | [Heq | Hgt]]; [| exact Heq |].
    + pose proof (xpForLevel_mono (g + 1) l ltac:(lia) ltac:(lia)). lia.
    + pose proof (xpForLevel_mono (l + 1) g ltac:(lia) ltac:(lia)). lia.
Qed.

Lemma getLevelFromXP_nonneg (xp : Z) : 0 <= getLevelFromXP xp.
Proof.
  destruct (Z.le_gt_cases xp 0) as [Hxp | Hxp].
  - rewrite getLevelFromXP_nonpos; lia.
  - apply getLevelFromXP_bracket; exact Hxp.
Qed.


End LevelFacts.

(** ** The level curve at its boundaries *)

Section LevelBoundaries.
Import Level.

(** C1, as amended.  The threshold of level 0 is 0 and that of a
    level [L >= 1] is [5 * L^2 + 50 * L + 100].  For every level
    [L >= 0] the threshold [xpForLevel L] is mapped back to [L]; one
    point below the threshold of a level [L >= 1] the level is
    [L - 1]; below the threshold of level 0 the level stays 0.  Level 1
    needs exactly 155 points: 154 give level 0 and 155 give level 1. *)
Theorem level_boundary_exact (L : Z) :
  0 <= L ->
  xpForLevel 0 = 0 /\
  (1 <= L -> xpForLevel L = 5 * L ^ 2 + 50 * L + 100) /\
  getLevelFromXP (xpForLevel L) = L /\
  (1 <= L -> getLevelFromXP (xpForLevel L - 1) = L - 1) /\
  getLevelFromXP (xpForLevel 0 - 1) = 0 /\
  xpForLevel 1 = 155 /\ getLevelFromXP 154 = 0 /\ getLevelFromXP 155 = 1.
Proof.
  intros HL. split; [reflexivity |].
  split; [intros H1; apply xpForLevel_pos; lia |].
  repeat split; try reflexivity.
  - apply getLevelFromXP_unique; [exact HL |].
    split; [lia | apply xpForLevel_strict_mono; lia].
  - intros H1. apply getLevelFromXP_unique; [lia |].
    replace (L - 1 + 1) with L by lia.
    pose proof (xpForLevel_strict_mono (L - 1) L ltac:(lia) ltac:(lia)).
    lia.
Qed.

Lemma level_boundary_exact_witness :
  0 <= 7 /\
  xpForLevel 0 = 0 /\
  (1 <= 7 -> xpForLevel 7 = 5 * 7 ^ 2 + 50 * 7 + 100) /\
  getLevelFromXP (xpForLevel 7) = 7 /\
  (1 <= 7 -> getLevelFromXP (xpForLevel 7 - 1) = 7 - 1) /\
  getLevelFromXP (xpForLevel 0 - 1) = 0 /\
  xpForLevel 1 = 155 /\ getLevelFromXP 154 = 0 /\ getLevelFromXP 155 = 1.
Proof. split; [lia | apply (level_boundary_exact 7); lia]. Defined.

(** C1 as stated fails at [L = 0]: one point below the threshold of
    level 0 the level is 0, not -1. *)
Lemma level_below_zero_threshold :
  ~ (0 <= 0 ->
     getLevelFromXP (xpForLevel 0) = 0 /\
     getLevelFromXP (xpForLevel 0 - 1) = 0 - 1).
Proof. intros H. destruct (H ltac:(lia)) as [_ Hbad]. discriminate Hbad. Qed.

End LevelBoundaries.

(** ** The ledger: reads, grants and revocations *)

Section LedgerFacts.
Import Level Ledger.

Lemma missing_false (id : string) : id <> "" -> missing id = false.
Proof. intros H. unfold missing. apply bool_decide_eq_false. exact H. Qed.

(** What a read returns and leaves behind. *)
Lemma getUserLevelData_read now g u s :
  g <> "" -> u <> "" -> coherentAt g u s ->
  exists d s1,
    getUserLevelData now g u s = (Returned d, s1) /\
    db s1 !! (g, u) = Some d /\
    cache s1 !! cacheKey g u = Some d /\
    events s1 = events s /\
    xp d = xp (current g u s) /\
    level d = level (current g u s) /\
    lastMessageTimestamp d = lastMessageTimestamp (current g u s).
Proof.
  intros Hg Hu Hco. unfold getUserLevelData, current.
  rewrite (missing_false g Hg), (missing_false u Hu). cbn [orb].
  destruct (cache s !! cacheKey g u) as [d |] eqn:Hc.
  - exists d, s. rewrite (Hco d Hc). cbn. auto 10.
  - eexists _, _. split; [reflexivity |]. cbn [db cache events].
    rewrite !lookup_insert_eq.
    destruct (db s !! (g, u)) as [d |]; cbn; auto 10.
Qed.

(** A grant of a positive amount on a coherent ledger. *)
Lemma addXP_grant now g u amount source s :
  0 < amount -> g <> "" -> u <> "" -> coherentAt g u s ->
  exists d' s',
    addXP now g u amount source s
    = (Returned (Some {| oldLevel := level (current g u s);
                         newLevel := level d';
                         gainedXp := amount; user := d' |}), s') /\
    db s' !! (g, u) = Some d' /\
    cache s' !! cacheKey g u = Some d' /\
    xp d' = xp (current g u s) + amount /\
    level d' = getLevelFromXP (xp (current g u s) + amount) /\
    lastMessageTimestamp d' = lastMessageTimestamp (current g u s) /\
    events s' = events s
      ++ XpGained g u amount source d'
         :: (if level d' >? level (current g u s)
             then [LevelUp g u (level (current g u s)) (level d') d']
             else []).
Proof.
  intros Ha Hg Hu Hco. unfold addXP.
  destruct (Z.leb_spec amount 0) as [Hle | _]; [lia |].
  destruct (getUserLevelData_read now g u s Hg Hu Hco)
    as (d & s1 & Hread & Hdb & Hcache & Hev & Hxp & Hlv & Hts).
  rewrite Hread, Hdb, <- Hxp, <- Hlv, <- Hts.
  eexists (setXpLevel now (xp d + amount) (getLevelFromXP (xp d + amount)) d),
          _.
  split; [reflexivity |].
  cbn [emit db cache events setXpLevel xp level lastMessageTimestamp].
  rewrite !lookup_insert_eq, Hev. auto 10.
Qed.

(** A revocation of a positive amount on a coherent ledger. *)
Lemma removeXP_revoke now g u amount reason s :
  0 < amount -> g <> "" -> u <> "" -> coherentAt g u s ->
  exists d' s',
    removeXP now g u amount reason s = (Returned (Some d'), s') /\
    db s' !! (g, u) = Some d' /\
    cache s' !! cacheKey g u = Some d' /\
    xp d' = Z.max 0 (xp (current g u s) - amount) /\
    level d' = getLevelFromXP (xp d') /\
    events s' = events s
      ++ XpLost g u amount reason d'
         :: (if level d' <? level (current g u s)
             then [LevelDown g u (level (current g u s)) (level d') d']
             else []).
Proof.
  intros Ha Hg Hu Hco. unfold removeXP.
  destruct (Z.leb_spec amount 0) as [Hle | _]; [lia |].
  destruct (getUserLevelData_read now g u s Hg Hu Hco)
    as (d & s1 & Hread & Hdb & Hcache & Hev & Hxp & Hlv & Hts).
  rewrite Hread, Hdb, <- Hxp, <- Hlv.
  eexists (setXpLevel now (Z.max 0 (xp d - amount))
             (getLevelFromXP (Z.max 0 (xp d - amount))) d), _.
  split; [reflexivity |].
  cbn [emit db cache events setXpLevel xp level lastMessageTimestamp].
  rewrite !lookup_insert_eq, Hev. auto 10.
Qed.

Lemma coherentAt_same g u s d :
  db s !! (g, u) = Some d -> cache s !! cacheKey g u = Some d ->
  coherentAt g u s.
Proof. intros Hdb Hc d' Hd'. congruence. Qed.

Lemma coherentAt_uncached g u s :
  cache s !! cacheKey g u = None -> coherentAt g u s.
Proof. intros Hc d Hd. congruence. Qed.

Lemma current_stored g u s d :
  db s !! (g, u) = Some d -> current g u s = d.
Proof. intros H. unfold current. rewrite H. reflexivity. Qed.

(** C6.  Granting [a] and then [b] to a user who has no document and no
    cache entry leaves the same experience and level as granting
    [a + b] at once, namely [a + b] and its level, in the collection
    and in the records returned. *)
Theorem addXP_additive now1 now2 now3 g u a b source (s : State) :
  0 < a -> 0 < b -> g <> "" -> u <> "" ->
  db s !! (g, u) = None -> cache s !! cacheKey g u = None ->
  exists r2 s2 r3 s3,
    addXP now2 g u b source (snd (addXP now1 g u a source s))
      = (Returned (Some r2), s2) /\
    addXP now3 g u (a + b) source s = (Returned (Some r3), s3) /\
    (xp (user r2), level (user r2)) = (xp (user r3), level (user r3)) /\
    (xp (current g u s2), level (current g u s2))
      = (xp (current g u s3), level (current g u s3)) /\
    xp (current g u s2) = a + b /\
    level (current g u s2) = getLevelFromXP (a + b).
Proof.
  intros Ha Hb Hg Hu Hdb Hc.
  pose proof (coherentAt_uncached g u s Hc) as Hco.
  assert (Hzero : xp (current g u s) = 0)
    by (unfold current; rewrite Hdb; reflexivity).
  destruct (addXP_grant now1 g u a source s Ha Hg Hu Hco)
    as (d1 & s1 & Hrun1 & Hdb1 & Hc1 & Hxp1 & _).
  destruct (addXP_grant now2 g u b source s1 Hb Hg Hu
              (coherentAt_same g u s1 d1 Hdb1 Hc1))
    as (d2 & s2 & Hrun2 & Hdb2 & _ & Hxp2 & Hlv2 & _).
  destruct (addXP_grant now3 g u (a + b) source s ltac:(lia) Hg Hu Hco)
    as (d3 & s3 & Hrun3 & Hdb3 & _ & Hxp3 & Hlv3 & _).
  rewrite Hrun1. cbn [snd].
  rewrite (current_stored g u s1 d1 Hdb1) in Hrun2, Hxp2, Hlv2.
  rewrite Hxp1, Hzero in Hxp2, Hlv2. rewrite Hzero in Hxp3, Hlv3.
  eexists _, s2, _, s3. split; [exact Hrun2 |]. split; [exact Hrun3 |].
  cbn [user].
  rewrite (current_stored g u s2 d2 Hdb2), (current_stored g u s3 d3 Hdb3).
  rewrite Hxp2, Hlv2, Hxp3, Hlv3.
  replace (0 + (a + b)) with (0 + a + b) by lia.
  repeat split; f_equal; lia.
Qed.

Lemma addXP_additive_witness :
  exists r2 s2 r3 s3,
    addXP 2000 "g1" "u1" 100 "message"
      (snd (addXP 1000 "g1" "u1" 60 "message" (mkState ∅ ∅ [])))
      = (Returned (Some r2), s2) /\
    addXP 3000 "g1" "u1" (60 + 100) "message" (mkState ∅ ∅ [])
      = (Returned (Some r3), s3) /\
    (xp (user r2), level (user r2)) = (xp (user r3), level (user r3)) /\
    (xp (current "g1" "u1" s2), level (current "g1" "u1" s2))
      = (xp (current "g1" "u1" s3), level (current "g1" "u1" s3)) /\
    xp (current "g1" "u1" s2) = 60 + 100 /\
    level (current "g1" "u1" s2) = getLevelFromXP (60 + 100).
Proof.
  apply (addXP_additive 1000 2000 3000 "g1" "u1" 60 100 "message"
           (mkState ∅ ∅ []));
    [lia | lia | discriminate | discriminate | reflexivity | reflexivity].
Defined.

(** C8.  A non-positive amount makes both [addXP] and [removeXP] return
    [null] at once: the collection, the cache and the list of emitted
    events are those of before. *)
Theorem nonpositive_amount_rejected now g u amount text (s : State) :
  amount <= 0 ->
  addXP now g u amount text s = (Returned None, s) /\
  removeXP now g u amount text s = (Returned None, s).
Proof.
  intros Hle. unfold addXP, removeXP.
  destruct (Z.leb_spec amount 0) as [_ | Hpos]; [split; reflexivity | lia].
Qed.

Lemma nonpositive_amount_rejected_witness :
  addXP 1000 "g1" "u1" 0 "plugin" (mkState ∅ ∅ [])
    = (Returned None, mkState ∅ ∅ []) /\
  removeXP 1000 "g1" "u1" 0 "plugin" (mkState ∅ ∅ [])
    = (Returned None, mkState ∅ ∅ []).
Proof.
  apply (nonpositive_amount_rejected 1000 "g1" "u1" 0 "plugin"
           (mkState ∅ ∅ [])).
  lia.
Defined.

(** C5.  For a positive amount, [removeXP] stores
    [max(0, xp - amount)], which is never negative, together with the
    level of that experience, and among the events it emits there is a
    [levelDown] exactly when the new level is below the old one.  The
    level of no experience is 0. *)
Theorem removeXP_floors_at_zero now g u amount reason (s : State) :
  0 < amount -> g <> "" -> u <> "" -> coherentAt g u s ->
  exists d' s' emitted,
    removeXP now g u amount reason s = (Returned (Some d'), s') /\
    db s' !! (g, u) = Some d' /\
    xp d' = Z.max 0 (xp (current g u s) - amount) /\
    0 <= xp d' /\
    level d' = getLevelFromXP (xp d') /\
    events s' = events s ++ emitted /\
    (existsb isLevelDown emitted = true
     <-> level d' < level (current g u s)) /\
    getLevelFromXP 0 = 0.
Proof.
  intros Ha Hg Hu Hco.
  destruct (removeXP_revoke now g u amount reason s Ha Hg Hu Hco)
    as (d' & s' & Hrun & Hdb & _ & Hxp & Hlv & Hev).
  eexists d', s', _. split; [exact Hrun |]. split; [exact Hdb |].
  split; [exact Hxp |]. split; [lia |]. split; [exact Hlv |].
  split; [exact Hev |]. split; [| reflexivity].
  destruct (Z.ltb_spec (level d') (level (current g u s))) as [Hlt | Hge];
    cbn; split; intros H; try lia; try reflexivity; discriminate H.
Qed.

Lemma removeXP_floors_at_zero_witness :
  exists d' s' emitted,
    removeXP 5000 "g1" "u1" 500 "penalty"
      (mkState {[ ("g1", "u1") := mkUserLevel 200 1 0 3 0 4000 ]} ∅ [])
      = (Returned (Some d'), s') /\
    db s' !! ("g1", "u1") = Some d' /\
    xp d' = Z.max 0
      (xp (current "g1" "u1"
             (mkState {[ ("g1", "u1") := mkUserLevel 200 1 0 3 0 4000 ]} ∅ []))
       - 500) /\
    0 <= xp d' /\
    level d' = getLevelFromXP (xp d') /\
    events s' = [] ++ emitted /\
    (existsb isLevelDown emitted = true
     <-> level d' < level (current "g1" "u1"
             (mkState {[ ("g1", "u1") := mkUserLevel 200 1 0 3 0 4000 ]} ∅ []))) /\
    getLevelFromXP 0 = 0.
Proof.
  apply (removeXP_floors_at_zero 5000 "g1" "u1" 500 "penalty"
           (mkState {[ ("g1", "u1") := mkUserLevel 200 1 0 3 0 4000 ]} ∅ []));
    [lia | discriminate | discriminate |].
  intros d Hd. cbn in Hd. rewrite lookup_empty in Hd. discriminate Hd.
Defined.

End LedgerFacts.

(** ** The leaderboard *)

Section LeaderboardFacts.
Import Ledger.

#[local] Instance leaderboardOrder_total : Total leaderboardOrder.
Proof. intros a b. unfold leaderboardOrder. lia. Qed.

#[local] Instance leaderboardOrder_trans : Transitive leaderboardOrder.
Proof. intros a b c. unfold leaderboardOrder. lia. Qed.

Lemma safeLimit_range (limit : Z) : 1 <= safeLimit limit <= 50.
Proof. unfold safeLimit. lia. Qed.

Lemma ranked_elem (g : string) (s : State) (e : (string * string) * UserLevel) :
  e ∈ ranked g s <-> db s !! e.1 = Some e.2 /\ e.1.1 = g /\ 0 < xp e.2.
Proof.
  unfold ranked. rewrite list_elem_of_filter. unfold onLeaderboard.
  rewrite andb_true_iff, bool_decide_eq_true, Z.ltb_lt.
  destruct e as [k d]. rewrite elem_of_map_to_list. cbn. tauto.
Qed.

Lemma ranked_NoDup (g : string) (s : State) : NoDup (ranked g s).
Proof. unfold ranked. apply NoDup_filter, NoDup_map_to_list. Qed.

Lemma take_drop_split {A} (n : nat) (l : list A) (x : A) :
  x ∈ l -> x ∉ take n l -> x ∈ drop n l.
Proof.
  intros Hin Hnot. rewrite <- (take_drop n l) in Hin.
  apply elem_of_app in Hin. tauto.
Qed.

Lemma ranked_length (g : string) (s : State) :
  length (ranked g s)
  = size (filter (fun e : (string * string) * UserLevel =>
                    e.1.1 = g /\ 0 < xp e.2) (db s)).
Proof.
  rewrite <- length_map_to_list. apply Permutation_length.
  apply NoDup_Permutation.
  - apply ranked_NoDup.
  - apply NoDup_map_to_list.
  - intros [k d]. rewrite ranked_elem, elem_of_map_to_list.
    rewrite map_lookup_filter_Some. cbn. tauto.
Qed.

Lemma ranked_keys_NoDup (g : string) (s : State) : NoDup (ranked g s).*1.
Proof.
  apply (sublist_NoDup _ (map_to_list (db s)).*1).
  - apply NoDup_fst_map_to_list.
  - apply fmap_sublist. unfold ranked. apply sublist_filter.
Qed.

Lemma StronglySorted_pair {A} (R : A -> A -> Prop) (l : list A) :
  StronglySorted R l ->
  forall i j a b, (i < j)%nat -> l !! i = Some a -> l !! j = Some b -> R a b.
Proof.
  induction 1 as [| x l Hl IH Hall]; intros i j a b Hij Hi Hj.
  - rewrite lookup_nil in Hi. discriminate Hi.
  - destruct j as [| j]; [lia |]. cbn in Hj. destruct i as [| i].
    + cbn in Hi. injection Hi as <-.
      rewrite Forall_forall in Hall. apply Hall.
      apply (list_elem_of_lookup_2 _ j). exact Hj.
    + cbn in Hi. apply (IH i j); [lia | assumption | assumption].
Qed.

(** C7.  [getLeaderboard] returns the first [N] of the guild's documents
    with positive experience, in the order of more experience first
    and, at equal experience, the later update first, [N] being the
    limit itself when it lies in 1..50, 1 when it is smaller and 50 when
    it is larger: the board has [min N k] entries when [k] documents of
    the guild have positive experience; every entry is a stored
    document of the guild with positive experience and no user is
    listed twice; an entry has more experience than every entry after
    it, or the same and was updated no earlier; and every document of
    the guild with positive experience that is left out has less
    experience than each entry, or the same and was updated no later.
    With the limit 10 and 3 such documents the board has exactly 3
    entries. *)
Theorem leaderboard_top (g : string) (limit : Z) (s : State) :
  g <> "" ->
  let N := if limit <? 1 then 1 else if 50 <? limit then 50 else limit in
  let k := size (filter (fun e : (string * string) * UserLevel =>
                           e.1.1 = g /\ 0 < xp e.2) (db s)) in
  exists board,
    getLeaderboard g limit s = Returned board /\
    Z.of_nat (length board) = Z.min N (Z.of_nat k) /\
    NoDup board.*1 /\
    (forall e, e ∈ board ->
               db s !! e.1 = Some e.2 /\ e.1.1 = g /\ 0 < xp e.2) /\
    (forall i j a b,
        (i < j)%nat -> board !! i = Some a -> board !! j = Some b ->
        xp b.2 < xp a.2 \/
        (xp a.2 = xp b.2 /\ updatedAt b.2 <= updatedAt a.2)) /\
    (forall key d a,
        db s !! key = Some d -> key.1 = g -> 0 < xp d ->
        (key, d) ∉ board -> a ∈ board ->
        xp d < xp a.2 \/ (xp a.2 = xp d /\ updatedAt d <= updatedAt a.2)) /\
    (limit = 10 -> k = 3%nat -> length board = 3%nat).
Proof.
  intros Hg N k. unfold getLeaderboard.
  rewrite (missing_false g Hg).
  assert (HN : safeLimit limit = N).
  { subst N. unfold safeLimit.
    destruct (Z.ltb_spec limit 1); [lia |].
    destruct (Z.ltb_spec 50 limit); lia. }
  set (n := Z.to_nat (safeLimit limit)).
  set (sorted := merge_sort leaderboardOrder (ranked g s)).
  assert (Hperm : sorted ≡ₚ ranked g s) by apply merge_sort_Permutation.
  assert (Hsorted : StronglySorted leaderboardOrder sorted)
    by apply (StronglySorted_merge_sort leaderboardOrder).
  assert (Hlen : length (take n sorted) = Nat.min n k).
  { rewrite length_take, Hperm, ranked_length. reflexivity. }
  exists (take n sorted). split; [reflexivity |].
  split.
  { rewrite Hlen. subst n. rewrite HN.
    assert (1 <= N) by (rewrite <- HN; apply safeLimit_range). lia. }
  rewrite <- (take_drop n sorted) in Hsorted.
  split.
  { apply (sublist_NoDup _ sorted.*1).
    - rewrite Hperm. apply ranked_keys_NoDup.
    - apply fmap_sublist, sublist_take. }
  split.
  { intros e He. apply ranked_elem. rewrite <- Hperm.
    apply (elem_of_sublist _ _ _ He), sublist_take. }
  split.
  { intros i j a b Hij Hi Hj.
    pose proof (StronglySorted_pair leaderboardOrder (take n sorted)
                  (StronglySorted_app_1_l _ _ _ Hsorted) i j a b Hij Hi Hj)
      as Hord.
    exact Hord. }
  split.
  { intros key d a Hd Hkey Hxp Hout Ha.
    assert (Hord : leaderboardOrder a (key, d)).
    { apply (StronglySorted_app_1_elem_of _ _ _ a (key, d) Hsorted Ha).
      apply take_drop_split; [| exact Hout].
      rewrite Hperm. apply ranked_elem. cbn. auto. }
    exact Hord. }
  intros -> H3. rewrite Hlen, H3. subst n. reflexivity.
Qed.

Lemma leaderboard_top_witness :
  exists board,
    getLeaderboard "g1" 2
      (mkState
         (<[("g1", "u1") := mkUserLevel 200 1 0 0 0 10]>
          (<[("g1", "u2") := mkUserLevel 200 1 0 0 0 20]>
           (<[("g1", "u3") := mkUserLevel 900 7 0 0 0 5]>
            (<[("g1", "u4") := mkUserLevel 0 0 0 0 0 30]> ∅))))
         ∅ [])
      = Returned board /\
    map fst board = [("g1", "u3"); ("g1", "u2")].
Proof.
  destruct (leaderboard_top "g1" 2
    (mkState
       (<[("g1", "u1") := mkUserLevel 200 1 0 0 0 10]>
        (<[("g1", "u2") := mkUserLevel 200 1 0 0 0 20]>
         (<[("g1", "u3") := mkUserLevel 900 7 0 0 0 5]>
          (<[("g1", "u4") := mkUserLevel 0 0 0 0 0 30]> ∅))))
       ∅ []) ltac:(discriminate)) as (board & Hrun & _).
  exists board. split; [exact Hrun |].
  vm_compute in Hrun. injection Hrun as <-. reflexivity.
Defined.

End LeaderboardFacts.

(** ** The message gatekeeper *)

Section GatekeeperFacts.
Import Level Ledger GuildConfig XP.

Lemma gainedXP_pos cfg roles channelId : 1 <= gainedXP cfg roles channelId.
Proof.
  unfold gainedXP, Double.wholeAtLeastOne.
  destruct (Double.floor _); lia.
Qed.

(** The running maximum of the role loop starts at 1 and only rises. *)
Lemma highestRoleMultiplier_ge_1 cfg roles :
  (1 <= highestRoleMultiplier cfg roles)%Q.
Proof.
  unfold highestRoleMultiplier.
  assert (H : forall hi, (1 <= hi)%Q ->
    (1 <= fold_left
            (fun highest role =>
               match roleMultipliers cfg !! role with
               | Some multiplier =>
                   if raises highest multiplier then multiplier else highest
               | None => highest
               end) roles hi)%Q).
  { induction roles as [| r roles IH]; intros hi Hhi; [exact Hhi |].
    cbn [fold_left]. apply IH.
    destruct (roleMultipliers cfg !! r) as [m |]; [| exact Hhi].
    unfold raises. destruct (Qeq_bool m 0); cbn [negb andb]; [exact Hhi |].
    destruct (Qlt_le_dec hi m) as [Hlt | _]; [| exact Hhi].
    apply Qlt_le_weak. eapply Qle_lt_trans; [exact Hhi | exact Hlt]. }
  apply H. apply Qle_refl.
Qed.

Lemma grants_after (s1 s2 : State) (e : list Event) :
  events s2 = events s1 ++ e ->
  grants s2 = (grants s1 + length (List.filter isXpGained e))%nat.
Proof.
  intros H. unfold grants. rewrite H, List.filter_app, length_app. reflexivity.
Qed.

(** One message that passes the filters, on a coherent ledger: the
    cooldown test decides alone whether it is granted. *)
Lemma handleMessageXP_gate cfg now msg g (s : State) :
  passesFilters cfg msg = true -> guild msg = Some g ->
  g <> "" -> author_id msg <> "" -> coherentAt g (author_id msg) s ->
  coherentAt g (author_id msg) (handleMessageXP cfg now msg s) /\
  if now <? lastMessageTimestamp (current g (author_id msg) s)
            + messageCooldownSeconds cfg * 1000
  then grants (handleMessageXP cfg now msg s) = grants s /\
       lastMessageTimestamp
         (current g (author_id msg) (handleMessageXP cfg now msg s))
       = lastMessageTimestamp (current g (author_id msg) s)
  else grants (handleMessageXP cfg now msg s) = S (grants s) /\
       lastMessageTimestamp
         (current g (author_id msg) (handleMessageXP cfg now msg s))
       = now.
Proof.
  intros Hpass Hguild Hg Hu Hco. unfold handleMessageXP.
  rewrite Hpass, Hguild. cbn [negb default from_option id].
  set (u := author_id msg) in *.
  destruct (getUserLevelData_read now g u s Hg Hu Hco)
    as (d & s1 & Hread & Hdb & Hcache & Hev & _ & _ & Hts).
  rewrite Hread, Hts.
  destruct (now <? lastMessageTimestamp (current g u s)
                   + messageCooldownSeconds cfg * 1000).
  - split; [exact (coherentAt_same g u s1 d Hdb Hcache) |].
    split; [unfold grants; rewrite Hev; reflexivity |].
    rewrite (current_stored g u s1 d Hdb). exact Hts.
  - set (s2 := recordMessage now g u s1).
    assert (Hdb2 : db s2 !! (g, u) = Some (stampMessage now d))
      by (cbn; rewrite lookup_alter_eq, Hdb; reflexivity).
    assert (Hc2 : cache s2 !! cacheKey g u = None)
      by (cbn; apply lookup_delete_eq).
    destruct (addXP_grant now g u
                (gainedXP cfg (default [] (member msg)) (channel_id msg))
                "message" s2)
      as (d' & s3 & Hrun & Hdb3 & Hc3 & _ & _ & Hts3 & Hev3);
      [pose proof (gainedXP_pos cfg (default [] (member msg))
                     (channel_id msg)); lia
      | exact Hg | exact Hu | exact (coherentAt_uncached g u s2 Hc2) |].
    rewrite Hrun.
    split; [exact (coherentAt_same g u s3 d' Hdb3 Hc3) |].
    split.
    + rewrite (grants_after s2 s3 _ Hev3).
      replace (grants s2) with (grants s)
        by (unfold grants; cbn [s2 recordMessage events]; rewrite Hev;
            reflexivity).
      cbn [List.filter isXpGained].
      destruct (level d' >? level (current g u s2)); cbn; lia.
    + rewrite (current_stored g u s3 d' Hdb3), Hts3,
              (current_stored g u s2 _ Hdb2).
      reflexivity.
Qed.








(** C2, at an input where the code departs from it.  With 15 points per
    message and a single role configured at the multiplier 0.5, the code
    grants 15 points where the specification's formula gives
    [max(1, floor(15 * 0.5)) = 7]: the running maximum of the role loop
    starts at 1, so no role multiplier below 1 is ever applied. *)
Theorem fractional_role_multiplier_ignored :
  gainedXP halfRateConfig ["r-half"] "c1" = 15 /\
  specGainedXP halfRateConfig ["r-half"] "c1" = 7 /\
  (forall cfg roles, (1 <= highestRoleMultiplier cfg roles)%Q).
Proof.
  split; [vm_compute; reflexivity |].
  split; [vm_compute; reflexivity |].
  apply highestRoleMultiplier_ge_1.
Qed.

End GatekeeperFacts.

(** ** The role rewards of a level-up *)

(** Settle a decidable goal by evaluating its decision procedure. *)
Ltac decide_by_computation :=
  match goal with
  | |- ?P => apply (bool_decide_unpack P); vm_compute; exact I
  end.

Section RoleFacts.
Import Roles.

Lemma isRewardForCurrentLevel_spec levelRolesMap newLevel roleId :
  isRewardForCurrentLevel levelRolesMap newLevel roleId = true <->
  exists levelStr, (levelStr, roleId) ∈ levelRolesMap /\
                   parseInt levelStr = Some newLevel.
Proof.
  unfold isRewardForCurrentLevel. rewrite existsb_exists. split.
  - intros ([levelStr r] & Hin & Hok). apply andb_true_iff in Hok.
    destruct Hok as [Hlvl Hr]. apply bool_decide_eq_true in Hr.
    cbn [fst snd] in *. subst r. exists levelStr.
    split; [apply list_elem_of_In; exact Hin |].
    unfold levelSatisfies in Hlvl.
    destruct (parseInt levelStr) as [l |]; [| discriminate].
    apply Z.eqb_eq in Hlvl. congruence.
  - intros (levelStr & Hin & Hp). exists (levelStr, roleId).
    split; [apply list_elem_of_In; exact Hin |].
    cbn [fst snd]. unfold levelSatisfies. rewrite Hp, Z.eqb_refl.
    rewrite bool_decide_eq_true_2; reflexivity.
Qed.

(** Membership in the list that the [remove_previous] branch builds. *)
Lemma removePrevious_elem levelRolesMap newLevel
    (currentMemberRoles : gset string) roleId :
  roleId ∈ removePrevious levelRolesMap newLevel currentMemberRoles <->
  (exists levelStr requiredLevel,
      (levelStr, roleId) ∈ levelRolesMap /\
      parseInt levelStr = Some requiredLevel /\
      requiredLevel < newLevel) /\
  roleId ∈ currentMemberRoles /\
  ~ (exists levelStr, (levelStr, roleId) ∈ levelRolesMap /\
                      parseInt levelStr = Some newLevel).
Proof.
  unfold removePrevious. rewrite list_elem_of_omap.
  rewrite <- isRewardForCurrentLevel_spec. split.
  - intros ([levelStr r] & Hin & Hsel). cbn [fst snd] in Hsel.
    destruct (levelSatisfies _ levelStr) eqn:Hlvl; [| discriminate].
    destruct (bool_decide (r ∈ currentMemberRoles)) eqn:Hheld;
      [| discriminate].
    destruct (isRewardForCurrentLevel levelRolesMap newLevel r) eqn:Hcur;
      [discriminate |].
    cbn in Hsel. injection Hsel as <-.
    apply bool_decide_eq_true in Hheld.
    unfold levelSatisfies in Hlvl.
    destruct (parseInt levelStr) as [l |] eqn:Hp; [| discriminate].
    apply Z.ltb_lt in Hlvl.
    split; [exists levelStr, l; auto |]. split; [exact Hheld |].
    rewrite Hcur. discriminate.
  - intros ((levelStr & l & Hin & Hp & Hlt) & Hheld & Hcur).
    exists (levelStr, roleId). split; [exact Hin |]. cbn [fst snd].
    unfold levelSatisfies. rewrite Hp.
    destruct (Z.ltb_spec l newLevel); [| lia].
    rewrite (bool_decide_eq_true_2 _ Hheld).
    destruct (isRewardForCurrentLevel levelRolesMap newLevel roleId);
      [exfalso; apply Hcur; reflexivity | reflexivity].
Qed.

(** C3, as amended.  Under [remove_previous] the roles marked for
    removal are exactly the rewards of a level below the new one that
    the member holds when the removal pass runs and that are not also
    the reward of the new level itself.  With the rewards 5:A, 10:B,
    15:C and a jump from level 4 to level 12 of a member holding none
    of them, A and B are added; both lie below 12 and neither is the
    reward of level 12, so the removal pass marks both when it sees the
    roles just added, leaving none held, and marks none when it does
    not, leaving A and B held. *)
Theorem remove_previous_marks_lower_tiers :
  (forall levelRolesMap newLevel (currentMemberRoles : gset string) roleId,
      roleId ∈ rolesToRemove "remove_previous" levelRolesMap newLevel
                 currentMemberRoles <->
      (exists levelStr requiredLevel,
          (levelStr, roleId) ∈ levelRolesMap /\
          parseInt levelStr = Some requiredLevel /\
          requiredLevel < newLevel) /\
      roleId ∈ currentMemberRoles /\
      ~ (exists levelStr, (levelStr, roleId) ∈ levelRolesMap /\
                          parseInt levelStr = Some newLevel)) /\
  (forall refreshed,
      added (handleLevelUpRoles refreshed "remove_previous" tierRewards
               4 12 ∅) = ["A"; "B"]) /\
  removed (handleLevelUpRoles true "remove_previous" tierRewards 4 12 ∅)
    = ["A"; "B"] /\
  holds (handleLevelUpRoles true "remove_previous" tierRewards 4 12 ∅) = ∅ /\
  removed (handleLevelUpRoles false "remove_previous" tierRewards 4 12 ∅)
    = [] /\
  holds (handleLevelUpRoles false "remove_previous" tierRewards 4 12 ∅)
    = {[ "A"; "B" ]}.
Proof.
  split; [intros; apply removePrevious_elem |].
  split; [intros []; reflexivity |].
  split; [reflexivity |].
  split; [decide_by_computation |].
  split; [reflexivity |].
  decide_by_computation.
Qed.

(** C3 as stated fails on its example: after the jump from 4 to 12 the
    member does not hold exactly B, whether or not the removal pass sees
    the roles just added. *)
Lemma remove_previous_jump_not_only_B :
  ~ (added (handleLevelUpRoles true "remove_previous" tierRewards 4 12 ∅)
       = ["A"; "B"] /\
     holds (handleLevelUpRoles true "remove_previous" tierRewards 4 12 ∅)
       = {[ "B" ]}) /\
  ~ (added (handleLevelUpRoles false "remove_previous" tierRewards 4 12 ∅)
       = ["A"; "B"] /\
     holds (handleLevelUpRoles false "remove_previous" tierRewards 4 12 ∅)
       = {[ "B" ]}).
Proof.
  split; intros [_ H]; pose proof (bool_decide_pack _ H) as Hb;
    vm_compute in Hb; exact Hb.
Qed.

End RoleFacts.

(** ** The guild configuration store *)

Section ConfigFacts.
Import GuildConfig.

Lemma _normalizeConfig_enumerated dflt config :
  enumerated (_normalizeConfig dflt config).
Proof.
  unfold enumerated, _normalizeConfig, validStrategies, validStyles.
  cbn [roleRemovalStrategy leaderboardStyle]. split.
  - destruct (r_roleRemovalStrategy config) as [| | v]; try set_solver.
    case_bool_decide; [assumption | set_solver].
  - destruct (r_leaderboardStyle config) as [| | v]; try set_solver.
    case_bool_decide; [assumption | set_solver].
Qed.

Lemma cacheEnumerated_insert st key c docs' events' :
  cacheEnumerated st -> enumerated c ->
  cacheEnumerated {| docs := docs'; ccache := <[key := c]> (ccache st);
                     cevents := events' |}.
Proof.
  intros Hst Hc key' c' Hlook. cbn [ccache] in Hlook.
  destruct (decide (key = key')) as [<- | Hne].
  - rewrite lookup_insert_eq in Hlook. congruence.
  - rewrite lookup_insert_ne in Hlook by exact Hne. exact (Hst key' c' Hlook).
Qed.

Lemma getConfig_enumerated defaultConfig g (st : Store) cfg st' :
  cacheEnumerated st ->
  getConfig (makeDefault defaultConfig) g st = (Returned cfg, st') ->
  enumerated cfg /\ cacheEnumerated st'.
Proof.
  intros Hst. unfold getConfig.
  destruct (missing g); [discriminate |].
  destruct (ccache st !! configKey g) as [cached |] eqn:Hc.
  - intros [= <- <-]. split; [exact (Hst _ _ Hc) | exact Hst].
  - intros [= <- <-].
    assert (Hfinal : enumerated
              match docs st !! g with
              | Some dbConfig =>
                  _normalizeConfig (Some (makeDefault defaultConfig))
                    (overDefaults (makeDefault defaultConfig) dbConfig)
              | None => makeDefault defaultConfig
              end)
      by (destruct (docs st !! g); apply _normalizeConfig_enumerated).
    split; [exact Hfinal |].
    apply cacheEnumerated_insert; assumption.
Qed.

Lemma updateConfig_enumerated defaultConfig g newSettings (st : Store) cfg st' :
  cacheEnumerated st ->
  updateConfig (makeDefault defaultConfig) g newSettings st
    = (Returned cfg, st') ->
  enumerated cfg /\ cacheEnumerated st'.
Proof.
  intros Hst. unfold updateConfig.
  destruct (missing g); [discriminate |].
  destruct (schemaValid (prepareUpdate newSettings)); [| discriminate].
  intros [= <- <-].
  split; [apply _normalizeConfig_enumerated |].
  apply cacheEnumerated_insert;
    [exact Hst | apply _normalizeConfig_enumerated].
Qed.

(** A truthy value outside the enumeration is taken out of the update,
    so the stored value stays. *)
Lemma dropInvalid_outside valid v :
  v <> "" -> v ∉ valid -> dropInvalid valid (JStr v) = JUndefined.
Proof.
  intros Hne Hout. unfold dropInvalid, truthy, includes.
  rewrite (bool_decide_eq_false_2 _ Hne), (bool_decide_eq_false_2 _ Hout).
  reflexivity.
Qed.

(** C9, as amended.  Every configuration that [getConfig] or
    [updateConfig] returns has its role removal strategy among
    keep_all, highest_only, remove_previous and its leaderboard style
    among card, text, and so has every configuration they cache.  On
    the read path a stored value outside the enumeration is replaced by
    keep_all, respectively card.  On the update path a non-empty value
    outside the enumeration is dropped from the update, so the document
    keeps the value it had. *)
Theorem config_enumerations_hold defaultConfig g (st : Store) :
  cacheEnumerated st ->
  (forall cfg st',
      getConfig (makeDefault defaultConfig) g st = (Returned cfg, st') ->
      enumerated cfg /\ cacheEnumerated st') /\
  (forall newSettings cfg st',
      updateConfig (makeDefault defaultConfig) g newSettings st
        = (Returned cfg, st') ->
      enumerated cfg /\ cacheEnumerated st') /\
  (forall dflt config,
      includes validStrategies (r_roleRemovalStrategy config) = false ->
      roleRemovalStrategy (_normalizeConfig dflt config) = "keep_all") /\
  (forall dflt config,
      includes validStyles (r_leaderboardStyle config) = false ->
      leaderboardStyle (_normalizeConfig dflt config) = "card") /\
  (forall newSettings doc v,
      r_roleRemovalStrategy newSettings = JStr v ->
      v <> "" -> v ∉ validStrategies ->
      r_roleRemovalStrategy (applySet (prepareUpdate newSettings) doc)
        = r_roleRemovalStrategy doc) /\
  (forall newSettings doc v,
      r_leaderboardStyle newSettings = JStr v ->
      v <> "" -> v ∉ validStyles ->
      r_leaderboardStyle (applySet (prepareUpdate newSettings) doc)
        = r_leaderboardStyle doc).
Proof.
  intros Hst.
  split; [intros cfg st'; apply getConfig_enumerated; exact Hst |].
  split; [intros new cfg st'; apply updateConfig_enumerated; exact Hst |].
  split.
  { intros dflt config Hinv. unfold _normalizeConfig, includes in *.
    cbn [roleRemovalStrategy].
    destruct (r_roleRemovalStrategy config); try reflexivity.
    rewrite Hinv. reflexivity. }
  split.
  { intros dflt config Hinv. unfold _normalizeConfig, includes in *.
    cbn [leaderboardStyle].
    destruct (r_leaderboardStyle config); try reflexivity.
    rewrite Hinv. reflexivity. }
  split.
  - intros new doc v Hv Hne Hout. cbn. rewrite Hv.
    rewrite (dropInvalid_outside _ v Hne Hout). reflexivity.
  - intros new doc v Hv Hne Hout. cbn. rewrite Hv.
    rewrite (dropInvalid_outside _ v Hne Hout). reflexivity.
Qed.

Lemma config_enumerations_hold_witness :
  exists cfg st',
    getConfig (makeDefault noSettings) "g1" highestOnlyStore
      = (Returned cfg, st') /\
    enumerated cfg /\ cacheEnumerated st' /\
    roleRemovalStrategy cfg = "highest_only".
Proof.
  eexists _, _. split; [reflexivity |].
  assert (Hst : cacheEnumerated highestOnlyStore).
  { intros key c Hc. cbn in Hc. rewrite lookup_empty in Hc. discriminate Hc. }
  destruct (config_enumerations_hold noSettings "g1" highestOnlyStore Hst)
    as [Hget _].
  destruct (Hget _ _ eq_refl) as [Hcfg Hcache].
  split; [exact Hcfg |]. split; [exact Hcache | reflexivity].
Defined.

(** C9 as stated fails on the update path: an invalid strategy handed
    to [updateConfig] is not turned into keep_all; the guild keeps
    highest_only. *)
Lemma invalid_update_not_coerced :
  exists cfg st',
    updateConfig (makeDefault noSettings) "g1"
      (strategySetting (JStr "everything")) highestOnlyStore
      = (Returned cfg, st') /\
    includes validStrategies (JStr "everything") = false /\
    roleRemovalStrategy cfg = "highest_only" /\
    roleRemovalStrategy cfg <> "keep_all".
Proof.
  eexists _, _. split; [reflexivity |].
  split; [reflexivity |]. split; [reflexivity | discriminate].
Qed.

End ConfigFacts.

(** ** The voice presence tracker *)

Section VoiceFacts.
Import Voice.

(** *** The calls made for a key *)

Lemma callsFor_snoc key tbl tm (s : Tracker) (c : Flush) :
  callsFor key {| voiceJoinTimes := tbl; xpInterval := tm;
                  calls := calls s ++ [c] |}
  = callsFor key s ++ (if decide (f_key c = key) then [c] else []).
Proof.
  unfold callsFor. cbn [calls]. rewrite filter_app. reflexivity.
Qed.

Lemma exit_join now key t (s : Tracker) :
  voiceJoinTimes (_processXpGainOnExit now key t s) = voiceJoinTimes s.
Proof. unfold _processXpGainOnExit. destruct (now - t >? 10000); reflexivity. Qed.

Lemma exit_timer now key t (s : Tracker) :
  xpInterval (_processXpGainOnExit now key t s) = xpInterval s.
Proof. unfold _processXpGainOnExit. destruct (now - t >? 10000); reflexivity. Qed.

Lemma exit_calls now key t (s : Tracker) key' :
  callsFor key' (_processXpGainOnExit now key t s)
  = callsFor key' s
    ++ (if decide (key = key')
        then if now - t >? 10000 then [mkFlush key t now (now - t)] else []
        else []).
Proof.
  unfold _processXpGainOnExit. destruct (now - t >? 10000).
  - rewrite callsFor_snoc. cbn [f_key]. destruct (decide (key = key')); reflexivity.
  - destruct (decide (key = key')); rewrite app_nil_r; reflexivity.
Qed.

(** *** One turn of the sweep *)

Lemma sweepEntry_timer presence now (s : Tracker) entry :
  xpInterval (sweepEntry presence now s entry) = xpInterval s.
Proof.
  unfold sweepEntry. destruct (presence entry.1); cbn; auto using exit_timer.
  destruct (now - entry.2 >=? sweepThreshold); reflexivity.
Qed.

Lemma sweepEntry_join presence now (s : Tracker) key' t' key :
  voiceJoinTimes (sweepEntry presence now s (key', t')) !! key
  = if decide (key' = key)
    then sweptJoin presence now key t' (voiceJoinTimes s !! key)
    else voiceJoinTimes s !! key.
Proof.
  unfold sweepEntry, sweptJoin. cbn [fst snd].
  destruct (decide (key' = key)) as [-> | Hne].
  - destruct (presence key); cbn [deleteJoin voiceJoinTimes].
    + apply lookup_delete_eq.
    + apply lookup_delete_eq.
    + destruct (now - t' >=? sweepThreshold); [| reflexivity].
      cbn. apply lookup_insert_eq.
  - destruct (presence key'); cbn [deleteJoin voiceJoinTimes].
    + apply lookup_delete_ne; exact Hne.
    + rewrite lookup_delete_ne by exact Hne. rewrite exit_join. reflexivity.
    + destruct (now - t' >=? sweepThreshold); [| reflexivity].
      cbn. apply lookup_insert_ne; exact Hne.
Qed.

Lemma sweepEntry_calls presence now finished tm (s : Tracker) key' t' key :
  callsFor key (sweepEntry presence now s (key', t'))
  = callsFor key s
    ++ (if decide (key' = key)
        then flushOf tm (Sweep now presence finished) key t'
        else []).
Proof.
  unfold sweepEntry, flushOf. cbn [fst snd].
  destruct (decide (key' = key)) as [-> | Hne].
  - destruct (presence key) as [| at_ |].
    + rewrite app_nil_r. reflexivity.
    + change (callsFor key (deleteJoin key ?x)) with (callsFor key x).
      rewrite exit_calls. destruct (decide (key = key)); [reflexivity | congruence].
    + destruct (now - t' >=? sweepThreshold).
      * unfold setJoin. cbn [voiceJoinTimes xpInterval calls].
        rewrite callsFor_snoc. cbn [f_key].
        destruct (decide (key = key)); [reflexivity | congruence].
      * rewrite app_nil_r. reflexivity.
  - rewrite app_nil_r. destruct (presence key') as [| at_ |].
    + reflexivity.
    + change (callsFor key (deleteJoin key' ?x)) with (callsFor key x).
      rewrite exit_calls. destruct (decide (key' = key)); [congruence |].
      apply app_nil_r.
    + destruct (now - t' >=? sweepThreshold); [| reflexivity].
      unfold setJoin. cbn [voiceJoinTimes xpInterval calls].
      rewrite callsFor_snoc. cbn [f_key].
      destruct (decide (key' = key)); [congruence | apply app_nil_r].
Qed.

(** The loop over entries with distinct keys: a key that is not among
    them is left alone, a key that is gets its one turn. *)
Lemma sweep_loop presence now finished tm (l : list (string * Z)) :
  NoDup l.*1 ->
  forall (s : Tracker) key,
    xpInterval (fold_left (sweepEntry presence now) l s) = xpInterval s /\
    (key ∉ l.*1 ->
     voiceJoinTimes (fold_left (sweepEntry presence now) l s) !! key
       = voiceJoinTimes s !! key /\
     callsFor key (fold_left (sweepEntry presence now) l s)
       = callsFor key s) /\
    (forall t, (key, t) ∈ l ->
     voiceJoinTimes (fold_left (sweepEntry presence now) l s) !! key
       = sweptJoin presence now key t (voiceJoinTimes s !! key) /\
     callsFor key (fold_left (sweepEntry presence now) l s)
       = callsFor key s ++ flushOf tm (Sweep now presence finished) key t).
Proof.
  induction l as [| [key' t'] l IH]; intros Hnd s key.
  - cbn [fold_left]. split; [reflexivity |]. split; [auto |].
    intros t Hin. apply elem_of_nil in Hin. contradiction.
  - rewrite fmap_cons in Hnd. apply NoDup_cons in Hnd.
    destruct Hnd as [Hfresh Hnd]. cbn [fst] in Hfresh.
    cbn [fold_left].
    destruct (IH Hnd (sweepEntry presence now s (key', t')) key)
      as (Htm & Hout & Hin).
    pose proof (sweepEntry_join presence now s key' t' key) as Hj.
    pose proof (sweepEntry_calls presence now finished tm s key' t' key) as Hc.
    split; [rewrite Htm; apply sweepEntry_timer |]. split.
    + intros Hnot. rewrite fmap_cons, not_elem_of_cons in Hnot.
      destruct Hnot as [Hne Hnot]. cbn [fst] in Hne.
      destruct (Hout Hnot) as [-> ->]. rewrite Hj, Hc.
      destruct (decide (key' = key)); [congruence |].
      rewrite app_nil_r. auto.
    + intros t Ht. apply elem_of_cons in Ht. destruct Ht as [Heq | Ht].
      * injection Heq as -> ->.
        destruct (Hout Hfresh) as [-> ->]. rewrite Hj, Hc.
        destruct (decide (key' = key')); [auto | congruence].
      * assert (Hne : key' <> key).
        { intros ->. apply Hfresh.
          apply list_elem_of_fmap. exists (key, t). auto. }
        destruct (Hin t Ht) as [-> ->]. rewrite Hj, Hc.
        destruct (decide (key' = key)); [congruence |].
        rewrite app_nil_r. auto.
Qed.

Lemma not_in_keys (m : gmap string Z) key :
  m !! key = None -> key ∉ (map_to_list m).*1.
Proof.
  intros Hnone Hin. apply list_elem_of_fmap in Hin.
  destruct Hin as ([k t] & -> & Hin). cbn [fst] in Hnone.
  apply elem_of_map_to_list in Hin. congruence.
Qed.

(** *** The calls of a shutdown *)

Lemma shutdown_loop now (l : list (string * Z)) key :
  NoDup l.*1 ->
  (key ∉ l.*1 ->
   filter (fun c => f_key c = key) (omap (shutdownFlush now) l) = []) /\
  (forall t, (key, t) ∈ l ->
   filter (fun c => f_key c = key) (omap (shutdownFlush now) l)
   = if now - t >? 1000 then [mkFlush key t now (now - t)] else []).
Proof.
  induction l as [| [key' t'] l IH]; intros Hnd.
  - split; [reflexivity |]. intros t Hin. apply elem_of_nil in Hin.
    contradiction.
  - rewrite fmap_cons in Hnd. apply NoDup_cons in Hnd.
    destruct Hnd as [Hfresh Hnd]. cbn [fst] in Hfresh.
    destruct (IH Hnd) as [Hout Hin].
    assert (Hhead : forall rest,
      filter (fun c => f_key c = key)
        (omap (shutdownFlush now) ((key', t') :: rest))
      = (if decide (key' = key)
         then if now - t' >? 1000
              then [mkFlush key' t' now (now - t')] else []
         else [])
        ++ filter (fun c => f_key c = key) (omap (shutdownFlush now) rest)).
    { intros rest. cbn [omap list_omap]. unfold shutdownFlush at 1.
      cbn [fst snd].
      destruct (now - t' >? 1000).
      - destruct (decide (key' = key)) as [Heq | Hne].
        + rewrite filter_cons_True by exact Heq. reflexivity.
        + rewrite filter_cons_False by exact Hne. reflexivity.
      - destruct (decide (key' = key)); reflexivity. }
    rewrite Hhead. split.
    + intros Hnot. rewrite fmap_cons, not_elem_of_cons in Hnot.
      destruct Hnot as [Hne Hnot]. cbn [fst] in Hne.
      rewrite (Hout Hnot). destruct (decide (key' = key)); [congruence |].
      reflexivity.
    + intros t Ht. apply elem_of_cons in Ht. destruct Ht as [Heq | Ht].
      * injection Heq as -> ->. rewrite (Hout Hfresh).
        destruct (decide (key' = key')); [| congruence].
        apply app_nil_r.
      * assert (Hne : key' <> key).
        { intros ->. apply Hfresh.
          apply list_elem_of_fmap. exists (key, t). auto. }
        rewrite (Hin t Ht). destruct (decide (key' = key)); [congruence |].
        reflexivity.
Qed.

(** *** Every input, seen from one key *)


Lemma step_calls (s : Tracker) (i : Input) key :
  callsFor key (step s i)
  = callsFor key s
    ++ match voiceJoinTimes s !! key with
       | Some t => flushOf (xpInterval s) i key t
       | None => []
       end.
Proof.
  destruct i as [now key' isUser oldState newState | now presence finished
                | now]; cbn [step flushOf].
  - unfold handleVoiceStateUpdate.
    destruct isUser, (validForXp oldState) eqn:Hold,
             (validForXp newState) eqn:Hnew; cbn [negb andb];
      try (destruct (voiceJoinTimes s !! key);
           [destruct (bool_decide (key' = key)) |];
           cbn [andb]; rewrite app_nil_r; reflexivity).
    + destruct (bool_decide_reflect (key' = key)) as [-> | Hne];
        cbn [andb].
      * destruct (voiceJoinTimes s !! key) as [t |] eqn:Ht;
          [| rewrite app_nil_r; reflexivity].
        unfold tracked. destruct (t =? 0); cbn [negb];
          [rewrite app_nil_r; reflexivity |].
        change (callsFor key (deleteJoin key ?x)) with (callsFor key x).
        rewrite exit_calls.
        destruct (decide (key = key)); [reflexivity | congruence].
      * assert (Hsame : callsFor key
                  match voiceJoinTimes s !! key' with
                  | Some t =>
                      if tracked (voiceJoinTimes s !! key')
                      then deleteJoin key'
                             (_processXpGainOnExit now key' t s)
                      else s
                  | None => s
                  end = callsFor key s).
        { destruct (voiceJoinTimes s !! key') as [t' |]; [| reflexivity].
          destruct (tracked (Some t')); [| reflexivity].
          change (callsFor key (deleteJoin key' ?x)) with (callsFor key x).
          rewrite exit_calls.
          destruct (decide (key' = key)); [congruence | apply app_nil_r]. }
        rewrite Hsame.
        destruct (voiceJoinTimes s !! key); rewrite app_nil_r; reflexivity.
    + replace (callsFor key
                 (if negb (tracked (voiceJoinTimes s !! key'))
                  then setJoin key' now s else s))
        with (callsFor key s)
        by (destruct (negb (tracked (voiceJoinTimes s !! key'))); reflexivity).
      destruct (voiceJoinTimes s !! key);
        [destruct (bool_decide (key' = key)) |];
        cbn [andb]; rewrite app_nil_r; reflexivity.
  - unfold checkVoiceActivity.
    destruct (sweep_loop presence now finished (xpInterval s)
                (map_to_list (voiceJoinTimes s))
                (NoDup_fst_map_to_list _) s key) as (_ & Hout & Hin).
    destruct (voiceJoinTimes s !! key) as [t |] eqn:Ht.
    + destruct (Hin t) as [_ ->]; [apply elem_of_map_to_list; exact Ht |].
      reflexivity.
    + destruct (Hout (not_in_keys _ _ Ht)) as [_ ->].
      rewrite app_nil_r. reflexivity.
  - unfold shutdown. destruct (xpInterval s); cbn [andb].
    2:{ destruct (voiceJoinTimes s !! key); rewrite app_nil_r; reflexivity. }
    unfold callsFor. cbn [calls]. rewrite filter_app. f_equal.
    destruct (shutdown_loop now (map_to_list (voiceJoinTimes s)) key
                (NoDup_fst_map_to_list _)) as [Hout Hin].
    destruct (voiceJoinTimes s !! key) as [t |] eqn:Ht.
    + apply Hin. apply elem_of_map_to_list. exact Ht.
    + apply Hout, not_in_keys. exact Ht.
Qed.

(** *** What a run keeps true *)











(** *** The whole runs and the handlers cut at their awaits *)



(** *** Start times along a run *)




End VoiceFacts.

(** * Further properties of the code *)

(** ** The level curve as a whole *)

Section LevelCurve.
Import Level.

Lemma getLevelFromXP_le (xp1 xp2 : Z) :
  xp1 <= xp2 -> getLevelFromXP xp1 <= getLevelFromXP xp2.
Proof.
  intros Hle. destruct (Z.le_gt_cases xp1 0) as [H1 | H1].
  - rewrite (getLevelFromXP_nonpos xp1 H1). apply getLevelFromXP_nonneg.
  - destruct (getLevelFromXP_bracket xp1 H1) as (Hn1 & Hlo1 & _).
    destruct (getLevelFromXP_bracket xp2 ltac:(lia)) as (Hn2 & _ & Hhi2).
    destruct (Z.le_gt_cases (getLevelFromXP xp1) (getLevelFromXP xp2))
      as [Hok | Hbad]; [exact Hok | exfalso].
    pose proof (xpForLevel_mono (getLevelFromXP xp2 + 1) (getLevelFromXP xp1)
                  ltac:(lia) ltac:(lia)).
    lia.
Qed.

(** X1.  More experience never gives a lower level, and the level is
    never negative. *)
Theorem getLevelFromXP_monotone (xp1 xp2 : Z) :
  xp1 <= xp2 -> 0 <= getLevelFromXP xp1 <= getLevelFromXP xp2.
Proof.
  intros Hle. split; [apply getLevelFromXP_nonneg |].
  apply getLevelFromXP_le. exact Hle.
Qed.

Lemma getLevelFromXP_monotone_witness :
  0 <= getLevelFromXP 154 <= getLevelFromXP 155.
Proof. apply (getLevelFromXP_monotone 154 155). lia. Defined.

(** X2.  For experience that is not negative, the level is the one
    whose threshold is reached while the next one is not, and so the
    largest level whose threshold is reached. *)
Theorem getLevelFromXP_largest (xp L : Z) :
  0 <= xp ->
  (getLevelFromXP xp = L <->
   0 <= L /\ xpForLevel L <= xp < xpForLevel (L + 1)) /\
  (0 <= L -> xpForLevel L <= xp -> L <= getLevelFromXP xp).
Proof.
  intros Hxp.
  assert (Hown : 0 <= getLevelFromXP xp /\
                 xpForLevel (getLevelFromXP xp) <= xp
                 < xpForLevel (getLevelFromXP xp + 1)).
  { destruct (Z.eq_dec xp 0) as [-> | Hne]; [vm_compute; intuition discriminate |].
    apply getLevelFromXP_bracket. lia. }
  split.
  - split.
    + intros <-. exact Hown.
    + intros [HL Hbr]. apply getLevelFromXP_unique; assumption.
  - intros HL Hreach. destruct Hown as (_ & _ & Hhi).
    destruct (Z.le_gt_cases L (getLevelFromXP xp)) as [Hok | Hbad];
      [exact Hok | exfalso].
    pose proof (xpForLevel_mono (getLevelFromXP xp + 1) L
                  ltac:(pose proof (getLevelFromXP_nonneg xp); lia)
                  ltac:(lia)).
    lia.
Qed.

Lemma getLevelFromXP_largest_witness :
  (getLevelFromXP 1000 = 9 <->
   0 <= 9 /\ xpForLevel 9 <= 1000 < xpForLevel (9 + 1)) /\
  (0 <= 9 -> xpForLevel 9 <= 1000 -> 9 <= getLevelFromXP 1000).
Proof. apply (getLevelFromXP_largest 1000 9). lia. Defined.

End LevelCurve.

(** ** What every stored record satisfies *)

Section SoundFacts.
Import Level Ledger GuildConfig XP Standing.

Lemma sound_zero now : sound (zeroRecord now).
Proof. split; [cbn; lia | reflexivity]. Qed.

Lemma sound_same_xp (d d' : UserLevel) :
  xp d' = xp d -> level d' = level d -> sound d -> sound d'.
Proof. unfold sound. intros -> ->. auto. Qed.

Lemma sound_setXpLevel now newXP (d : UserLevel) :
  0 <= newXP -> sound (setXpLevel now newXP (getLevelFromXP newXP) d).
Proof. intros H. split; [exact H | reflexivity]. Qed.

Lemma allSound_emit e (s : State) : allSound s -> allSound (emit e s).
Proof. intros H. exact H. Qed.

Lemma allSound_store k key d (s : State) ev :
  allSound s -> sound d ->
  allSound {| db := <[k := d]> (db s); cache := <[key := d]> (cache s);
              events := ev |}.
Proof.
  intros [Hdb Hc] Hd. split; intros k' d' Hlook; cbn in Hlook.
  - apply lookup_insert_Some in Hlook.
    destruct Hlook as [[_ <-] | [_ Hlook]]; [exact Hd | exact (Hdb _ _ Hlook)].
  - apply lookup_insert_Some in Hlook.
    destruct Hlook as [[_ <-] | [_ Hlook]]; [exact Hd | exact (Hc _ _ Hlook)].
Qed.

Lemma allSound_alter (f : UserLevel -> UserLevel) k key (s : State) ev :
  (forall d, sound d -> sound (f d)) -> allSound s ->
  allSound {| db := alter f k (db s); cache := delete key (cache s);
              events := ev |}.
Proof.
  intros Hf [Hdb Hc]. split; intros k' d' Hlook; cbn in Hlook.
  - apply lookup_alter_Some in Hlook.
    destruct Hlook as [(_ & d & Hd & ->) | [_ Hlook]];
      [apply Hf; exact (Hdb _ _ Hd) | exact (Hdb _ _ Hlook)].
  - apply lookup_delete_Some in Hlook. exact (Hc _ _ (proj2 Hlook)).
Qed.

Lemma getUserLevelData_sound now g u (s : State) :
  allSound s ->
  allSound (snd (getUserLevelData now g u s)) /\
  (forall d, fst (getUserLevelData now g u s) = Returned d -> sound d).
Proof.
  intros Hs. unfold getUserLevelData.
  destruct (missing g || missing u); [split; [exact Hs | discriminate] |].
  destruct (cache s !! cacheKey g u) as [d |] eqn:Hc; cbn [fst snd].
  - split; [exact Hs |]. intros d' [= <-]. exact (proj2 Hs _ _ Hc).
  - assert (Hd : sound match db s !! (g, u) with
                       | Some d => touch now d
                       | None => zeroRecord now
                       end).
    { destruct (db s !! (g, u)) as [d |] eqn:Hdb; [| apply sound_zero].
      apply (sound_same_xp d); [reflexivity | reflexivity |].
      exact (proj1 Hs _ _ Hdb). }
    split; [apply allSound_store; assumption |].
    intros d' [= <-]. exact Hd.
Qed.

Lemma addXP_sound now g u amount source (s : State) :
  allSound s -> allSound (snd (addXP now g u amount source s)).
Proof.
  intros Hs. unfold addXP. destruct (Z.leb_spec amount 0); [exact Hs |].
  destruct (getUserLevelData_sound now g u s Hs) as [Hs1 Hd].
  destruct (getUserLevelData now g u s) as [[userData | m] s1];
    cbn [fst snd] in *; [| exact Hs1].
  specialize (Hd userData eq_refl).
  destruct (db s1 !! (g, u)) as [doc |]; cbn [snd]; [| exact Hs1].
  apply allSound_emit, allSound_store; [exact Hs1 |].
  apply sound_setXpLevel. destruct Hd. lia.
Qed.

Lemma removeXP_sound now g u amount reason (s : State) :
  allSound s -> allSound (snd (removeXP now g u amount reason s)).
Proof.
  intros Hs. unfold removeXP. destruct (Z.leb_spec amount 0); [exact Hs |].
  destruct (getUserLevelData_sound now g u s Hs) as [Hs1 Hd].
  destruct (getUserLevelData now g u s) as [[userData | m] s1];
    cbn [fst snd] in *; [| exact Hs1].
  destruct (db s1 !! (g, u)) as [doc |]; cbn [snd]; [| exact Hs1].
  apply allSound_emit, allSound_store; [exact Hs1 |].
  apply sound_setXpLevel. lia.
Qed.

Lemma handleMessageXP_sound cfg now msg (s : State) :
  allSound s -> allSound (handleMessageXP cfg now msg s).
Proof.
  intros Hs. unfold handleMessageXP.
  destruct (negb (passesFilters cfg msg)); [exact Hs |].
  destruct (getUserLevelData_sound now (default "" (guild msg))
              (author_id msg) s Hs) as [Hs1 _].
  destruct (getUserLevelData now (default "" (guild msg)) (author_id msg) s)
    as [[userData | m] s1]; cbn [fst snd] in *; [| exact Hs1].
  destruct (now <? _); [exact Hs1 |].
  assert (Hs2 : allSound (recordMessage now (default "" (guild msg))
                            (author_id msg) s1)).
  { apply allSound_alter; [| exact Hs1].
    intros d. apply sound_same_xp; reflexivity. }
  pose proof (addXP_sound now (default "" (guild msg)) (author_id msg)
                (gainedXP cfg (default [] (member msg)) (channel_id msg))
                "message" _ Hs2) as Hs3.
  destruct (addXP _ _ _ _ _ _) as [[r | m] s3]; exact Hs3.
Qed.

Lemma handleVoiceXP_sound cfg m now g u d (s : State) :
  allSound s -> allSound (handleVoiceXP cfg m now g u d s).
Proof.
  intros Hs. unfold handleVoiceXP.
  destruct (d <=? 0); [exact Hs |].
  destruct (xpPerMinuteVoice cfg <=? 0); [exact Hs |].
  destruct (negb (voiceEligible cfg m)); [exact Hs |].
  assert (Hs1 : allSound (recordVoice now d g u s)).
  { apply allSound_alter; [| exact Hs].
    intros doc. apply sound_same_xp; reflexivity. }
  pose proof (addXP_sound now g u
                (voiceGainedXP cfg (default [] (vm_roles <$> m)) d)
                "voice" _ Hs1) as Hs2.
  destruct (addXP _ _ _ _ _ _) as [[r | msg] s2]; exact Hs2.
Qed.

Lemma perform_sound (s : State) (op : Op) :
  allSound s -> allSound (perform s op).
Proof.
  intros Hs. destruct op; cbn [perform].
  - apply getUserLevelData_sound; exact Hs.
  - apply addXP_sound; exact Hs.
  - apply removeXP_sound; exact Hs.
  - unfold applyPenalty. destruct (amount <=? 0); [exact Hs |].
    destruct (negb (enablePenaltySystem cfg)); [exact Hs |].
    apply removeXP_sound; exact Hs.
  - apply handleMessageXP_sound; exact Hs.
  - apply handleVoiceXP_sound; exact Hs.
  - unfold getUserRank.
    destruct (missing guildId || missing userId); [exact Hs |].
    destruct (getUserLevelData_sound now guildId userId s Hs) as [Hs1 _].
    destruct (getUserLevelData now guildId userId s)
      as [[userData | m] s1]; cbn [fst snd] in *; [| exact Hs1].
    destruct (xp userData <=? 0); exact Hs1.
  - unfold resetUserLevel.
    destruct (missing guildId || missing userId); [exact Hs |].
    cbn [snd]. apply allSound_alter; [| exact Hs].
    intros d _. split; [cbn; lia | reflexivity].
  - unfold resetGuildLevels. destruct (missing guildId); [exact Hs |].
    cbn [snd]. destruct Hs as [Hdb Hc].
    split; intros k d Hlook; cbn in Hlook;
      apply map_lookup_filter_Some in Hlook; destruct Hlook as [Hlook _].
    + exact (Hdb _ _ Hlook).
    + exact (Hc _ _ Hlook).
Qed.

(** X3.  Whatever the managers do to a ledger that starts empty
    (reads, grants, revocations, penalties, messages, voice time, rank
    queries, resets, in any order and with any arguments), every stored
    document and every cached record has experience that is not
    negative and carries the level of its experience. *)
Theorem ledger_stays_sound (ops : list Op) :
  allSound (fold_left perform ops emptyLedger).
Proof.
  assert (H : forall s, allSound s -> allSound (fold_left perform ops s)).
  { induction ops as [| op ops IH]; intros s Hs; [exact Hs |].
    cbn [fold_left]. apply IH, perform_sound, Hs. }
  apply H. split; intros k d Hlook; cbn in Hlook;
    rewrite lookup_empty in Hlook; discriminate Hlook.
Qed.

(** X4.  On a sound and coherent record, a grant of a positive amount
    never lowers the level and announces no level-down, and a
    revocation of a positive amount never raises the level and
    announces no level-up; the experience moves by the amount, a
    revocation stopping at 0. *)
Theorem levels_follow_experience now g u amount text (s : State) :
  0 < amount -> g <> "" -> u <> "" ->
  coherentAt g u s -> sound (current g u s) ->
  (exists r s',
      addXP now g u amount text s = (Returned (Some r), s') /\
      oldLevel r = level (current g u s) /\
      oldLevel r <= newLevel r /\
      xp (user r) = xp (current g u s) + amount /\
      (forall e, e ∈ drop (length (events s)) (events s') ->
                 isLevelDown e = false)) /\
  (exists d s',
      removeXP now g u amount text s = (Returned (Some d), s') /\
      level d <= level (current g u s) /\
      xp d = Z.max 0 (xp (current g u s) - amount) /\
      (forall e, e ∈ drop (length (events s)) (events s') ->
                 match e with LevelUp _ _ _ _ _ => False | _ => True end)).
Proof.
  intros Ha Hg Hu Hco [Hxp Hlv]. split.
  - destruct (addXP_grant now g u amount text s Ha Hg Hu Hco)
      as (d' & s' & Hrun & _ & _ & Hxp' & Hlv' & _ & Hev).
    eexists _, s'. split; [exact Hrun |]. cbn [oldLevel newLevel user].
    split; [reflexivity |]. split.
    + rewrite Hlv', Hlv. apply getLevelFromXP_le. lia.
    + split; [exact Hxp' |]. intros e He.
      rewrite Hev, drop_app_length in He.
      apply elem_of_cons in He. destruct He as [-> | He]; [reflexivity |].
      destruct (level d' >? level (current g u s));
        [apply list_elem_of_singleton in He; subst e; reflexivity
        | apply elem_of_nil in He; contradiction].
  - destruct (removeXP_revoke now g u amount text s Ha Hg Hu Hco)
      as (d' & s' & Hrun & _ & _ & Hxp' & Hlv' & Hev).
    exists d', s'. split; [exact Hrun |]. split.
    + rewrite Hlv', Hlv, Hxp'. apply getLevelFromXP_le. lia.
    + split; [exact Hxp' |]. intros e He.
      rewrite Hev, drop_app_length in He.
      apply elem_of_cons in He. destruct He as [-> | He]; [exact I |].
      destruct (level d' <? level (current g u s));
        [apply list_elem_of_singleton in He; subst e; exact I
        | apply elem_of_nil in He; contradiction].
Qed.

Lemma levels_follow_experience_witness :
  exists r s',
    addXP 5000 "g1" "u1" 500 "plugin"
      (mkState {[ ("g1", "u1") := mkUserLevel 200 1 0 3 0 4000 ]} ∅ [])
    = (Returned (Some r), s') /\
    oldLevel r = 1 /\ newLevel r = 7.
Proof.
  destruct (levels_follow_experience 5000 "g1" "u1" 500 "plugin"
    (mkState {[ ("g1", "u1") := mkUserLevel 200 1 0 3 0 4000 ]} ∅ []))
    as [(r & s' & Hrun & _) _];
    [lia | discriminate | discriminate | | |].
  - intros d Hd. cbn in Hd. rewrite lookup_empty in Hd. discriminate Hd.
  - split; [vm_compute; discriminate | vm_compute; reflexivity].
  - exists r, s'. split; [exact Hrun |].
    vm_compute in Hrun. injection Hrun as <- _. split; reflexivity.
Defined.

End SoundFacts.

(** ** Cache keys and the freshness of the cache *)

Section CacheFacts.
Import Level Ledger GuildConfig XP Standing Upkeep.

Lemma dashFree_cons (c : ascii) (id : string) :
  dashFree (String c id) <-> c <> "-"%char /\ dashFree id.
Proof.
  unfold dashFree. cbn [String.list_ascii_of_string].
  rewrite not_elem_of_cons. split; intros [H1 H2]; split; auto.
Qed.

Lemma dash_split (g g' u u' : string) :
  dashFree g -> dashFree g' ->
  g +:+ String "-" u = g' +:+ String "-" u' -> g = g' /\ u = u'.
Proof.
  revert g'. induction g as [| c g IH]; intros [| c' g'] Hg Hg' Heq;
    cbn in Heq.
  - injection Heq as ->. auto.
  - injection Heq as <- _. apply dashFree_cons in Hg'. tauto.
  - injection Heq as -> _. apply dashFree_cons in Hg. tauto.
  - injection Heq as -> Heq.
    apply dashFree_cons in Hg, Hg'.
    destruct (IH g' (proj2 Hg) (proj2 Hg') Heq) as [-> ->]. auto.
Qed.

Lemma cacheKey_inj (g g' u u' : string) :
  dashFree g -> dashFree g' ->
  cacheKey g u = cacheKey g' u' -> g = g' /\ u = u'.
Proof.
  intros Hg Hg' Heq. unfold cacheKey in Heq. cbn in Heq.
  injection Heq as Heq. exact (dash_split g g' u u' Hg Hg' Heq).
Qed.

Lemma cacheKey_ne (g g' u u' : string) :
  dashFree g -> dashFree g' -> (g, u) <> (g', u') ->
  cacheKey g u <> cacheKey g' u'.
Proof.
  intros Hg Hg' Hne Heq.
  destruct (cacheKey_inj g g' u u' Hg Hg' Heq) as [-> ->]. apply Hne.
  reflexivity.
Qed.

Lemma prefix_level (a b : string) :
  String.prefix ("level-" +:+ a) ("level-" +:+ b) = String.prefix a b.
Proof. reflexivity. Qed.

Lemma prefix_own (g u : string) :
  String.prefix (guildPrefix g) (cacheKey g u) = true.
Proof.
  unfold guildPrefix, cacheKey. rewrite prefix_level.
  induction g as [| c g IH].
  - destruct u; reflexivity.
  - change (String.prefix (String c (g +:+ "-")) (String c (g +:+ "-" +:+ u))
            = true).
    cbn [String.prefix].
    destruct (ascii_dec c c) as [_ | Hne]; [exact IH | contradiction].
Qed.

Lemma prefix_other (g g' u : string) :
  dashFree g -> dashFree g' -> g <> g' ->
  String.prefix (guildPrefix g) (cacheKey g' u) = false.
Proof.
  intros Hg Hg' Hne. unfold guildPrefix, cacheKey. rewrite prefix_level.
  revert g' Hg' Hne. induction g as [| c g IH]; intros [| c' g'] Hg' Hne.
  - contradiction.
  - apply dashFree_cons in Hg'.
    change (String.prefix (String "-" EmptyString)
              (String c' (g' +:+ "-" +:+ u)) = false).
    cbn [String.prefix].
    destruct (ascii_dec "-" c') as [<- | _]; [tauto | reflexivity].
  - apply dashFree_cons in Hg.
    change (String.prefix (String c (g +:+ "-")) (String "-" u) = false).
    cbn [String.prefix].
    destruct (ascii_dec c "-") as [-> | _]; [tauto | reflexivity].
  - apply dashFree_cons in Hg, Hg'.
    change (String.prefix (String c (g +:+ "-"))
              (String c' (g' +:+ "-" +:+ u)) = false).
    cbn [String.prefix].
    destruct (ascii_dec c c') as [<- | _]; [| reflexivity].
    apply IH; [tauto | tauto | congruence].
Qed.

(** A write of the same record to the collection and the cache. *)
Lemma coherent_store g u d (s : State) ev :
  dashFree g -> coherent s ->
  coherent {| db := <[(g, u) := d]> (db s);
              cache := <[cacheKey g u := d]> (cache s); events := ev |}.
Proof.
  intros Hg Hco g' u' Hg' d' Hd'. cbn in *.
  destruct (decide ((g, u) = (g', u'))) as [[= <- <-] | Hne].
  - rewrite lookup_insert_eq in Hd'. rewrite lookup_insert_eq. exact Hd'.
  - rewrite lookup_insert_ne in Hd'
      by (apply cacheKey_ne; assumption).
    rewrite lookup_insert_ne by exact Hne.
    exact (Hco g' u' Hg' d' Hd').
Qed.

(** An update of the document with the cache entry dropped. *)
Lemma coherent_alter (f : UserLevel -> UserLevel) g u (s : State) ev :
  dashFree g -> coherent s ->
  coherent {| db := alter f (g, u) (db s);
              cache := delete (cacheKey g u) (cache s); events := ev |}.
Proof.
  intros Hg Hco g' u' Hg' d' Hd'. cbn in *.
  destruct (decide ((g, u) = (g', u'))) as [[= <- <-] | Hne].
  - rewrite lookup_delete_eq in Hd'. discriminate Hd'.
  - rewrite lookup_delete_ne in Hd'
      by (apply cacheKey_ne; assumption).
    rewrite lookup_alter_ne by exact Hne.
    exact (Hco g' u' Hg' d' Hd').
Qed.

Lemma getUserLevelData_coherent now g u (s : State) :
  dashFree g -> coherent s -> coherent (snd (getUserLevelData now g u s)).
Proof.
  intros Hg Hco. unfold getUserLevelData.
  destruct (missing g || missing u); [exact Hco |].
  destruct (cache s !! cacheKey g u); [exact Hco |].
  cbn [snd]. apply coherent_store; assumption.
Qed.

Lemma getUserLevelData_stored now g u (s : State) d s1 :
  dashFree g -> coherent s ->
  getUserLevelData now g u s = (Returned d, s1) ->
  db s1 !! (g, u) = Some d.
Proof.
  intros Hg Hco. unfold getUserLevelData.
  destruct (missing g || missing u); [discriminate |].
  destruct (cache s !! cacheKey g u) as [c |] eqn:Hc.
  - intros [= <- <-]. exact (Hco g u Hg c Hc).
  - intros [= <- <-]. cbn. apply lookup_insert_eq.
Qed.

Lemma addXP_coherent now g u amount source (s : State) :
  dashFree g -> coherent s -> coherent (snd (addXP now g u amount source s)).
Proof.
  intros Hg Hco. unfold addXP. destruct (amount <=? 0); [exact Hco |].
  pose proof (getUserLevelData_coherent now g u s Hg Hco) as Hco1.
  destruct (getUserLevelData now g u s) as [[userData | m] s1];
    cbn [snd] in *; [| exact Hco1].
  destruct (db s1 !! (g, u)); cbn [snd]; [| exact Hco1].
  intros g' u' Hg'. apply (coherent_store g u _ s1); assumption.
Qed.

Lemma removeXP_coherent now g u amount reason (s : State) :
  dashFree g -> coherent s ->
  coherent (snd (removeXP now g u amount reason s)).
Proof.
  intros Hg Hco. unfold removeXP. destruct (amount <=? 0); [exact Hco |].
  pose proof (getUserLevelData_coherent now g u s Hg Hco) as Hco1.
  destruct (getUserLevelData now g u s) as [[userData | m] s1];
    cbn [snd] in *; [| exact Hco1].
  destruct (db s1 !! (g, u)); cbn [snd]; [| exact Hco1].
  intros g' u' Hg'. apply (coherent_store g u _ s1); assumption.
Qed.

Lemma perform_coherent (s : State) (op : Op) :
  dashFree (opGuild op) -> coherent s -> coherent (perform s op).
Proof.
  intros Hg Hco. destruct op; cbn [perform opGuild] in *.
  - apply getUserLevelData_coherent; assumption.
  - apply addXP_coherent; assumption.
  - apply removeXP_coherent; assumption.
  - unfold applyPenalty. destruct (amount <=? 0); [exact Hco |].
    destruct (negb (enablePenaltySystem cfg)); [exact Hco |].
    apply removeXP_coherent; assumption.
  - unfold handleMessageXP.
    destruct (negb (passesFilters cfg msg)); [exact Hco |].
    pose proof (getUserLevelData_coherent now (default "" (guild msg))
                  (author_id msg) s Hg Hco) as Hco1.
    destruct (getUserLevelData now (default "" (guild msg)) (author_id msg) s)
      as [[userData | m] s1]; cbn [snd] in *; [| exact Hco1].
    destruct (now <? _); [exact Hco1 |].
    pose proof (addXP_coherent now (default "" (guild msg)) (author_id msg)
                  (gainedXP cfg (default [] (member msg)) (channel_id msg))
                  "message"
                  (recordMessage now (default "" (guild msg))
                     (author_id msg) s1) Hg
                  (coherent_alter _ _ _ s1 _ Hg Hco1)) as Hco3.
    destruct (addXP _ _ _ _ _ _) as [[r | m] s3]; exact Hco3.
  - unfold handleVoiceXP.
    destruct (durationMillis <=? 0); [exact Hco |].
    destruct (xpPerMinuteVoice cfg <=? 0); [exact Hco |].
    destruct (negb (voiceEligible cfg m)); [exact Hco |].
    pose proof (addXP_coherent now guildId userId
                  (voiceGainedXP cfg (default [] (vm_roles <$> m))
                     durationMillis)
                  "voice" (recordVoice now durationMillis guildId userId s) Hg
                  (coherent_alter _ _ _ s _ Hg Hco)) as Hco2.
    destruct (addXP _ _ _ _ _ _) as [[r | msg] s2]; exact Hco2.
  - unfold getUserRank.
    destruct (missing guildId || missing userId); [exact Hco |].
    pose proof (getUserLevelData_coherent now guildId userId s Hg Hco)
      as Hco1.
    destruct (getUserLevelData now guildId userId s)
      as [[userData | m] s1]; cbn [snd] in *; [| exact Hco1].
    destruct (xp userData <=? 0); exact Hco1.
  - unfold resetUserLevel.
    destruct (missing guildId || missing userId); [exact Hco |].
    cbn [snd]. apply coherent_alter; assumption.
  - unfold resetGuildLevels. destruct (missing guildId); [exact Hco |].
    cbn [snd]. intros g' u' Hg' d Hd. cbn in *.
    apply map_lookup_filter_Some in Hd. destruct Hd as [Hd Hpre].
    cbn in Hpre. apply map_lookup_filter_Some. split.
    + exact (Hco g' u' Hg' d Hd).
    + cbn. intros ->. rewrite prefix_own in Hpre. discriminate Hpre.
Qed.

(** X5.  The cache key of a user is the key of no other user as long as
    guild ids hold no dash, and without that two users can share one:
    the user [v] of guild [g-u] and the user [u-v] of guild [g] do. *)
Theorem cacheKey_collisions (g g' u u' : string) :
  (dashFree g -> dashFree g' -> cacheKey g u = cacheKey g' u' ->
   g = g' /\ u = u') /\
  cacheKey (g +:+ "-" +:+ u) u' = cacheKey g (u +:+ "-" +:+ u').
Proof.
  split; [apply cacheKey_inj |].
  unfold cacheKey. f_equal.
  induction g as [| c g IH]; [reflexivity |].
  change (String c ((g +:+ "-" +:+ u) +:+ "-" +:+ u')
          = String c (g +:+ "-" +:+ u +:+ "-" +:+ u')).
  rewrite IH. reflexivity.
Qed.

Lemma cacheKey_collisions_witness :
  cacheKey "1-2" "3" = cacheKey "1" "2-3".
Proof. exact (proj2 (cacheKey_collisions "1" "1" "2" "3")). Defined.

(** X6.  In a ledger that starts empty and is only used for guilds
    whose id holds no dash, the cache never holds a record that differs
    from the stored document of its user, whatever the managers do and
    in whatever order. *)
Theorem cache_never_stale (ops : list Op) :
  Forall (fun op => dashFree (opGuild op)) ops ->
  coherent (fold_left perform ops emptyLedger).
Proof.
  intros Hops.
  assert (H : forall s, coherent s -> coherent (fold_left perform ops s)).
  { induction Hops as [| op ops Hop _ IH]; intros s Hs; [exact Hs |].
    cbn [fold_left]. apply IH, perform_coherent; assumption. }
  apply H. intros g u _ d Hd. cbn in Hd.
  rewrite lookup_empty in Hd. discriminate Hd.
Qed.

Lemma cache_never_stale_witness :
  coherent (fold_left perform
              [Grant 10 "g1" "u1" 200 "plugin"; ResetUser 20 "g1" "u1";
               Revoke 30 "g1" "u2" 5 "manual"; ResetGuild "g1"]
              emptyLedger).
Proof.
  apply cache_never_stale.
  repeat constructor; cbn [opGuild]; unfold dashFree;
    apply (bool_decide_unpack _); vm_compute; exact I.
Defined.

End CacheFacts.

(** ** Ranks *)

Section RankFacts.
Import Level Ledger GuildConfig XP Standing Upkeep.

#[local] Existing Instance leaderboardOrder_total.
#[local] Existing Instance leaderboardOrder_trans.

Lemma countAbove_eq g bound (s : State) :
  countAbove g bound s
  = Z.of_nat (length (filter (above g bound) (map_to_list (db s)))).
Proof. reflexivity. Qed.

Lemma count_lookup {A} (P : (string * string) * A -> Prop)
    `{!forall e, Decision (P e)} (m : gmap (string * string) A) k v :
  m !! k = Some v ->
  length (filter P (map_to_list m))
  = ((if decide (P (k, v)) then 1 else 0)
     + length (filter P (map_to_list (delete k m))))%nat.
Proof.
  intros Hk. rewrite <- (map_to_list_delete m k v Hk).
  destruct (decide (P (k, v))) as [Hp | Hp].
  - rewrite filter_cons_True by exact Hp. reflexivity.
  - rewrite filter_cons_False by exact Hp. reflexivity.
Qed.

Lemma count_insert {A} (P : (string * string) * A -> Prop)
    `{!forall e, Decision (P e)} (m : gmap (string * string) A) k v :
  length (filter P (map_to_list (<[k := v]> m)))
  = ((if decide (P (k, v)) then 1 else 0)
     + length (filter P (map_to_list (delete k m))))%nat.
Proof.
  rewrite (count_lookup P (<[k := v]> m) k v) by apply lookup_insert_eq.
  rewrite delete_insert_eq. reflexivity.
Qed.

Lemma count_mono {A} (P Q : A -> Prop) `{!forall e, Decision (P e)}
    `{!forall e, Decision (Q e)} (l : list A) :
  (forall e, e ∈ l -> P e -> Q e) ->
  (length (filter P l) <= length (filter Q l))%nat.
Proof.
  induction l as [| x l IH]; intros Himp; [reflexivity |].
  assert (IH' : (length (filter P l) <= length (filter Q l))%nat).
  { apply IH. intros e He. apply Himp. right. exact He. }
  destruct (decide (P x)) as [Hp | Hp].
  - rewrite (filter_cons_True P) by exact Hp.
    rewrite (filter_cons_True Q) by (apply Himp; [left | exact Hp]).
    cbn [length]. lia.
  - rewrite (filter_cons_False P) by exact Hp.
    destruct (decide (Q x)) as [Hq | Hq].
    + rewrite (filter_cons_True Q) by exact Hq. cbn [length]. lia.
    + rewrite (filter_cons_False Q) by exact Hq. exact IH'.
Qed.

Lemma count_ext {A} (P Q : A -> Prop) `{!forall e, Decision (P e)}
    `{!forall e, Decision (Q e)} (l : list A) :
  (forall e, e ∈ l -> P e <-> Q e) ->
  length (filter P l) = length (filter Q l).
Proof.
  intros Hiff. apply Nat.le_antisymm; apply count_mono; intros e He;
    apply Hiff; exact He.
Qed.

Lemma count_zero {A} (P : A -> Prop) `{!forall e, Decision (P e)}
    (l : list A) :
  length (filter P l) = 0%nat <-> forall e, e ∈ l -> ~ P e.
Proof.
  rewrite length_zero_iff_nil. split.
  - intros Hnil e He Hp.
    assert (Hin : e ∈ filter P l) by (apply list_elem_of_filter; auto).
    rewrite Hnil in Hin. apply elem_of_nil in Hin. exact Hin.
  - intros Hno. apply elem_of_nil_inv. intros e He.
    apply list_elem_of_filter in He. destruct He as [Hp He].
    exact (Hno e He Hp).
Qed.

(** A read leaves the count of the documents above a bound that is not
    negative as it was. *)
Lemma countAbove_read now g u g' bound (s : State) :
  0 <= bound ->
  countAbove g' bound (snd (getUserLevelData now g u s))
  = countAbove g' bound s.
Proof.
  intros Hb. unfold getUserLevelData.
  destruct (missing g || missing u); [reflexivity |].
  destruct (cache s !! cacheKey g u); [reflexivity |].
  cbn [snd]. rewrite !countAbove_eq. cbn [db]. f_equal.
  rewrite count_insert.
  destruct (db s !! (g, u)) as [d |] eqn:Hd.
  - rewrite (count_lookup (above g' bound) (db s) (g, u) d Hd).
    reflexivity.
  - rewrite delete_id by exact Hd.
    unfold above. cbn.
    destruct (decide (g = g' /\ bound < 0)) as [[_ H] | _]; [lia |].
    reflexivity.
Qed.

Lemma current_read now g u g' u' (s : State) :
  xp (current g' u' (snd (getUserLevelData now g u s)))
  = xp (current g' u' s).
Proof.
  unfold getUserLevelData, current.
  destruct (missing g || missing u); [reflexivity |].
  destruct (cache s !! cacheKey g u); [reflexivity |].
  cbn [snd db].
  destruct (decide ((g, u) = (g', u'))) as [[= <- <-] | Hne].
  - rewrite lookup_insert_eq. destruct (db s !! (g, u)); reflexivity.
  - rewrite lookup_insert_ne by exact Hne. reflexivity.
Qed.

(** The value of a rank query on a coherent ledger. *)
Lemma getUserRank_value now g u (s : State) :
  g <> "" -> u <> "" -> coherentAt g u s ->
  exists s',
    getUserRank now g u s
    = (Returned (if xp (current g u s) <=? 0 then 0
                 else countAbove g (xp (current g u s)) s + 1), s') /\
    (forall g' u', xp (current g' u' s') = xp (current g' u' s)).
Proof.
  intros Hg Hu Hco. unfold getUserRank.
  rewrite (missing_false g Hg), (missing_false u Hu). cbn [orb].
  pose proof (countAbove_read now g u g (xp (current g u s)) s) as Hcount.
  pose proof (fun g' u' => current_read now g u g' u' s) as Hcur.
  destruct (getUserLevelData_read now g u s Hg Hu Hco)
    as (d & s1 & Hread & _ & _ & _ & Hxp & _).
  rewrite Hread in *. cbn [snd] in *. rewrite Hxp.
  exists s1. split; [| intros g' u'; apply Hcur].
  destruct (Z.leb_spec (xp (current g u s)) 0); [reflexivity |].
  rewrite Hcount by lia. reflexivity.
Qed.

Lemma countAbove_nonneg g bound (s : State) : 0 <= countAbove g bound s.
Proof. unfold countAbove. lia. Qed.

Lemma countAbove_strict g u d bound (s : State) :
  db s !! (g, u) = Some d -> bound < xp d ->
  countAbove g (xp d) s < countAbove g bound s.
Proof.
  intros Hd Hb. rewrite !countAbove_eq.
  rewrite (count_lookup (above g (xp d)) (db s) (g, u) d Hd).
  rewrite (count_lookup (above g bound) (db s) (g, u) d Hd).
  destruct (decide (above g (xp d) ((g, u), d))) as [[_ H] | _];
    [cbn in H; lia |].
  destruct (decide (above g bound ((g, u), d))) as [_ | H];
    [| exfalso; apply H; split; [reflexivity | exact Hb]].
  pose proof (count_mono (above g (xp d)) (above g bound)
                (map_to_list (delete (g, u) (db s)))) as Hmono.
  assert (Hle : (length (filter (above g (xp d))
                           (map_to_list (delete (g, u) (db s))))
                 <= length (filter (above g bound)
                              (map_to_list (delete (g, u) (db s)))))%nat).
  { apply Hmono. intros e _ [H1 H2]. split; [exact H1 | lia]. }
  lia.
Qed.

Lemma countAbove_size g bound (s : State) :
  countAbove g bound s
  = Z.of_nat (size (filter (fun e : (string * string) * UserLevel =>
                              e.1.1 = g /\ bound < xp e.2) (db s))).
Proof.
  rewrite countAbove_eq. f_equal.
  rewrite <- length_map_to_list. apply Permutation_length.
  apply NoDup_Permutation.
  - apply NoDup_filter, NoDup_map_to_list.
  - apply NoDup_map_to_list.
  - intros [k d]. rewrite list_elem_of_filter, !elem_of_map_to_list.
    rewrite map_lookup_filter_Some. unfold above. cbn. tauto.
Qed.

(** X7.  The rank of a user is 0 when the user has no experience, and
    otherwise one more than the number of the guild's documents with
    strictly more experience.  So it is 0 exactly when the user has no
    experience and 1 exactly when no document of the guild has more;
    two users with the same experience have the same rank, and a user
    with more experience than another ranked user has a strictly
    smaller rank.  The query changes nobody's experience. *)
Theorem rank_follows_experience now g u v (s : State) :
  g <> "" -> u <> "" -> v <> "" -> coherentAt g u s -> coherentAt g v s ->
  exists ru rv su sv,
    getUserRank now g u s = (Returned ru, su) /\
    getUserRank now g v s = (Returned rv, sv) /\
    ru = (if xp (current g u s) <=? 0 then 0
          else 1 + Z.of_nat
                     (size (filter
                              (fun e : (string * string) * UserLevel =>
                                 e.1.1 = g /\
                                 xp (current g u s) < xp e.2) (db s)))) /\
    (ru = 0 <-> xp (current g u s) <= 0) /\
    (ru = 1 <-> 0 < xp (current g u s) /\
                forall w d, db s !! (g, w) = Some d ->
                            xp d <= xp (current g u s)) /\
    (xp (current g u s) = xp (current g v s) -> ru = rv) /\
    (0 < xp (current g v s) < xp (current g u s) -> 1 <= ru < rv) /\
    (forall g' w, xp (current g' w su) = xp (current g' w s)).
Proof.
  intros Hg Hu Hv Hcu Hcv.
  destruct (getUserRank_value now g u s Hg Hu Hcu) as (su & Hru & Hsame).
  destruct (getUserRank_value now g v s Hg Hv Hcv) as (sv & Hrv & _).
  eexists _, _, su, sv. split; [exact Hru |]. split; [exact Hrv |].
  pose proof (countAbove_nonneg g (xp (current g u s)) s) as Hnn.
  split.
  { destruct (xp (current g u s) <=? 0); [reflexivity |].
    rewrite countAbove_size. lia. }
  split.
  { destruct (Z.leb_spec (xp (current g u s)) 0); lia. }
  split.
  { destruct (Z.leb_spec (xp (current g u s)) 0) as [Hle | Hlt];
      [split; [lia | intros [H _]; lia] |].
    rewrite countAbove_eq.
    assert (Hz : forall n : nat, Z.of_nat n + 1 = 1 <-> n = 0%nat) by lia.
    rewrite Hz, count_zero. split.
    - intros H. split; [exact Hlt |]. intros w d Hd.
      destruct (Z.le_gt_cases (xp d) (xp (current g u s))) as [Hle | Hgt];
        [exact Hle |].
      exfalso. apply (H ((g, w), d)).
      + apply elem_of_map_to_list. exact Hd.
      + split; [reflexivity | exact Hgt].
    - intros [_ H] [[g' w] d] He [Hg' Hgt]. cbn in Hg', Hgt. subst g'.
      apply elem_of_map_to_list in He. specialize (H w d He). lia. }
  split.
  { intros <-. reflexivity. }
  split.
  { intros [Hpos Hlt].
    destruct (Z.leb_spec (xp (current g u s)) 0); [lia |].
    destruct (Z.leb_spec (xp (current g v s)) 0); [lia |].
    assert (Hd : db s !! (g, u) = Some (current g u s)).
    { unfold current in *. destruct (db s !! (g, u)); [reflexivity |].
      cbn in *. lia. }
    pose proof (countAbove_strict g u _ _ s Hd Hlt). lia. }
  exact Hsame.
Qed.

Lemma rank_follows_experience_witness :
  exists su sv,
    getUserRank 50 "g1" "u4"
      (mkState
         (<[("g1", "u1") := mkUserLevel 900 9 0 0 0 10]>
          (<[("g1", "u2") := mkUserLevel 200 1 0 0 0 20]>
           (<[("g1", "u3") := mkUserLevel 200 1 0 0 0 30]>
            (<[("g1", "u4") := mkUserLevel 50 0 0 0 0 40]> ∅)))) ∅ [])
    = (Returned 4, su) /\
    getUserRank 50 "g1" "u3"
      (mkState
         (<[("g1", "u1") := mkUserLevel 900 9 0 0 0 10]>
          (<[("g1", "u2") := mkUserLevel 200 1 0 0 0 20]>
           (<[("g1", "u3") := mkUserLevel 200 1 0 0 0 30]>
            (<[("g1", "u4") := mkUserLevel 50 0 0 0 0 40]> ∅)))) ∅ [])
    = (Returned 2, sv).
Proof.
  destruct (rank_follows_experience 50 "g1" "u4" "u3"
    (mkState
       (<[("g1", "u1") := mkUserLevel 900 9 0 0 0 10]>
        (<[("g1", "u2") := mkUserLevel 200 1 0 0 0 20]>
         (<[("g1", "u3") := mkUserLevel 200 1 0 0 0 30]>
          (<[("g1", "u4") := mkUserLevel 50 0 0 0 0 40]> ∅)))) ∅ []))
    as (ru & rv & su & sv & Hu & Hv & _);
    [discriminate | discriminate | discriminate | | |].
  - intros d Hd. cbn in Hd. rewrite lookup_empty in Hd. discriminate Hd.
  - intros d Hd. cbn in Hd. rewrite lookup_empty in Hd. discriminate Hd.
  - exists su, sv. split.
    + rewrite Hu. vm_compute in Hu. injection Hu as <- _. reflexivity.
    + rewrite Hv. vm_compute in Hv. injection Hv as <- _. reflexivity.
Defined.

(** X8.  The user at position [i] (from 0) of the leaderboard has a
    rank between 1 and [i + 1]: one more than the number of entries
    before it with strictly more experience.  Without ties above it,
    rank and position agree. *)
Theorem rank_agrees_with_leaderboard now g limit i g0 u d board
    (s : State) :
  g <> "" -> u <> "" -> coherentAt g u s ->
  getLeaderboard g limit s = Returned board ->
  board !! i = Some ((g0, u), d) ->
  exists r s',
    getUserRank now g u s = (Returned r, s') /\
    r = 1 + Z.of_nat (length (filter (fun e => xp d < xp (snd e))
                                     (take i board))) /\
    1 <= r <= Z.of_nat i + 1.
Proof.
  intros Hg Hu Hco Hboard Hi.
  unfold getLeaderboard in Hboard. rewrite (missing_false g Hg) in Hboard.
  injection Hboard as <-.
  set (n := Z.to_nat (safeLimit limit)) in *.
  set (sorted := merge_sort leaderboardOrder (ranked g s)) in *.
  assert (Hperm : sorted ≡ₚ ranked g s) by apply merge_sort_Permutation.
  assert (Hsorted : StronglySorted leaderboardOrder sorted)
    by apply (StronglySorted_merge_sort leaderboardOrder).
  apply lookup_take_Some in Hi. destruct Hi as [Hi Hin].
  assert (Hel : ((g0, u), d) ∈ ranked g s).
  { rewrite <- Hperm. apply (list_elem_of_lookup_2 _ i). exact Hi. }
  apply ranked_elem in Hel. cbn in Hel. destruct Hel as (Hd & -> & Hpos).
  destruct (getUserRank_value now g u s Hg Hu Hco) as (s' & Hrun & _).
  rewrite (current_stored g u s d Hd) in Hrun.
  destruct (Z.leb_spec (xp d) 0) as [Hle | _]; [lia |].
  eexists _, s'. split; [exact Hrun |].
  assert (Hcount :
    countAbove g (xp d) s
    = Z.of_nat (length (filter (fun e : (string * string) * UserLevel =>
                                  xp d < xp (snd e)) (take i sorted)))).
  { rewrite countAbove_eq. f_equal.
    transitivity (length (filter (fun e : (string * string) * UserLevel =>
                                    xp d < xp (snd e)) (ranked g s))).
    { unfold ranked. rewrite list_filter_filter.
      apply count_ext. intros e _. unfold above, onLeaderboard.
      split.
      - intros [Hg1 Hx]. split; [exact Hx |].
        apply andb_true_iff. split;
          [apply bool_decide_eq_true; exact Hg1 | apply Z.ltb_lt; lia].
      - intros [Hx Hb]. apply andb_true_iff in Hb. destruct Hb as [Hb _].
        apply bool_decide_eq_true in Hb. auto. }
    rewrite <- Hperm.
    rewrite <- (take_drop_middle sorted i _ Hi) at 1.
    rewrite filter_app, length_app.
    rewrite <- (take_drop_middle sorted i _ Hi) in Hsorted.
    pose proof (StronglySorted_app_1_r _ _ _ Hsorted) as Htail.
    apply StronglySorted_inv in Htail. destruct Htail as [_ Hall].
    rewrite filter_cons_False by (cbn; lia).
    assert (Hnone : length (filter (fun e : (string * string) * UserLevel =>
                                      xp d < xp (snd e))
                                   (drop (S i) sorted)) = 0%nat).
    { apply count_zero. intros e He Hgt.
      rewrite Forall_forall in Hall. specialize (Hall e He).
      unfold leaderboardOrder in Hall. cbn in Hall. lia. }
    rewrite Hnone. lia. }
  rewrite Hcount.
  rewrite take_take, Nat.min_l by lia.
  split; [lia |].
  pose proof (length_filter (fun e : (string * string) * UserLevel =>
                               xp d < xp (snd e)) (take i sorted)) as Hf.
  rewrite length_take in Hf. lia.
Qed.

Lemma rank_agrees_with_leaderboard_witness :
  exists s',
    getUserRank 50 "g1" "u2"
      (mkState
         (<[("g1", "u1") := mkUserLevel 900 9 0 0 0 10]>
          (<[("g1", "u2") := mkUserLevel 200 1 0 0 0 20]> ∅)) ∅ [])
    = (Returned 2, s').
Proof.
  destruct (rank_agrees_with_leaderboard 50 "g1" 10 1 "g1" "u2"
    (mkUserLevel 200 1 0 0 0 20)
    [(("g1", "u1"), mkUserLevel 900 9 0 0 0 10);
     (("g1", "u2"), mkUserLevel 200 1 0 0 0 20)]
    (mkState
       (<[("g1", "u1") := mkUserLevel 900 9 0 0 0 10]>
        (<[("g1", "u2") := mkUserLevel 200 1 0 0 0 20]> ∅)) ∅ []))
    as (r & s' & Hrun & Hr & _);
    [discriminate | discriminate | | vm_compute; reflexivity | reflexivity |].
  - intros d Hd. cbn in Hd. rewrite lookup_empty in Hd. discriminate Hd.
  - exists s'. rewrite Hrun. vm_compute in Hr. rewrite Hr. reflexivity.
Defined.

End RankFacts.

(** ** Resets *)

Section ResetFacts.
Import Level Ledger GuildConfig XP Standing Upkeep.

Lemma map_to_list_filter_perm {A} (P : (string * string) * A -> Prop)
    `{!forall e, Decision (P e)} (m : gmap (string * string) A) :
  map_to_list (filter P m) ≡ₚ filter P (map_to_list m).
Proof.
  apply NoDup_Permutation.
  - apply NoDup_map_to_list.
  - apply NoDup_filter, NoDup_map_to_list.
  - intros [k v]. rewrite list_elem_of_filter, !elem_of_map_to_list.
    rewrite map_lookup_filter_Some. tauto.
Qed.

Lemma ranked_none g (s : State) :
  (forall u, db s !! (g, u) = None) -> ranked g s = [].
Proof.
  intros Hnone. apply elem_of_nil_inv. intros [[g' u] d] He.
  apply ranked_elem in He. cbn in He. destruct He as (Hd & -> & _).
  rewrite Hnone in Hd. discriminate Hd.
Qed.

(** X9.  A reset of a user zeroes the stored document in place and
    drops the cache entry, so that the next read gives the zero record,
    the next rank is 0 and a later grant starts from 0; every other
    document is left as it was.  For a user without a document no
    document is made and the result is false; the reset is announced
    all the same. *)
Theorem resetUserLevel_clears now now' g u a source (s : State) :
  g <> "" -> u <> "" -> 0 < a ->
  exists s',
    resetUserLevel now g u s
    = ((bool_decide (is_Some (db s !! (g, u))), [UserLevelReset g u]), s') /\
    db s' !! (g, u) = (fun _ => zeroRecord now) <$> db s !! (g, u) /\
    (forall k, k <> (g, u) -> db s' !! k = db s !! k) /\
    fst (getUserLevelData now' g u s') = Returned (zeroRecord now') /\
    fst (getUserRank now' g u s') = Returned 0 /\
    (exists r s2,
        addXP now' g u a source s' = (Returned (Some r), s2) /\
        oldLevel r = 0 /\ xp (user r) = a /\
        level (user r) = getLevelFromXP a /\
        totalMessages (user r) = 0 /\
        totalVoiceDurationMillis (user r) = 0).
Proof.
  intros Hg Hu Ha. unfold resetUserLevel.
  rewrite (missing_false g Hg), (missing_false u Hu). cbn [orb].
  eexists. split; [reflexivity |].
  set (s' := {| db := alter (resetDoc now) (g, u) (db s);
                cache := delete (cacheKey g u) (cache s);
                events := events s |}).
  assert (Hdb : db s' !! (g, u)
                = (fun _ => zeroRecord now) <$> db s !! (g, u)).
  { cbn. rewrite lookup_alter_eq. destruct (db s !! (g, u)); reflexivity. }
  assert (Hc : cache s' !! cacheKey g u = None) by apply lookup_delete_eq.
  assert (Hz : match db s' !! (g, u) with
               | Some d => touch now' d
               | None => zeroRecord now'
               end = zeroRecord now').
  { rewrite Hdb. destruct (db s !! (g, u)); reflexivity. }
  assert (Hread : getUserLevelData now' g u s'
                  = (Returned (zeroRecord now'),
                     {| db := <[(g, u) := zeroRecord now']> (db s');
                        cache := <[cacheKey g u := zeroRecord now']>
                                   (cache s');
                        events := events s' |})).
  { unfold getUserLevelData.
    rewrite (missing_false g Hg), (missing_false u Hu), Hc, Hz.
    reflexivity. }
  split; [exact Hdb |]. split.
  { intros k Hk. cbn. apply lookup_alter_ne. congruence. }
  split; [rewrite Hread; reflexivity |]. split.
  { unfold getUserRank.
    rewrite (missing_false g Hg), (missing_false u Hu), Hread.
    reflexivity. }
  unfold addXP.
  destruct (Z.leb_spec a 0) as [Hle | _]; [lia |].
  rewrite Hread. cbn [db]. rewrite lookup_insert_eq.
  eexists _, _. split; [reflexivity |]. cbn. auto.
Qed.

Lemma resetUserLevel_clears_witness :
  exists s',
    resetUserLevel 50 "g1" "u1"
      (mkState {[ ("g1", "u1") := mkUserLevel 900 9 40 12 7000 45 ]}
               {[ cacheKey "g1" "u1" := mkUserLevel 900 9 40 12 7000 45 ]}
               [])
    = ((true, [UserLevelReset "g1" "u1"]), s') /\
    fst (getUserLevelData 60 "g1" "u1" s') = Returned (zeroRecord 60).
Proof.
  destruct (resetUserLevel_clears 50 60 "g1" "u1" 5 "plugin"
    (mkState {[ ("g1", "u1") := mkUserLevel 900 9 40 12 7000 45 ]}
             {[ cacheKey "g1" "u1" := mkUserLevel 900 9 40 12 7000 45 ]}
             []))
    as (s' & Hrun & _ & _ & Hread & _); [discriminate | discriminate | lia |].
  exists s'. split; [exact Hrun | exact Hread].
Defined.

(** X10.  A reset of a guild deletes exactly the documents of the guild
    and returns and announces their number; no cache entry of a user of
    the guild is left, the leaderboard of the guild is empty and every
    rank in it is 0.  The documents of other guilds stay, and so do
    their cache entries when neither guild id holds a dash. *)
Theorem resetGuildLevels_clears now g limit (s : State) :
  g <> "" ->
  exists n s',
    resetGuildLevels g s = ((Some n, [GuildLevelsReset g n]), s') /\
    Z.of_nat (size (db s')) + n = Z.of_nat (size (db s)) /\
    (forall u, db s' !! (g, u) = None /\ cache s' !! cacheKey g u = None) /\
    (forall g' u, g' <> g -> db s' !! (g', u) = db s !! (g', u)) /\
    (forall g' u, g' <> g -> dashFree g -> dashFree g' ->
                  cache s' !! cacheKey g' u = cache s !! cacheKey g' u) /\
    getLeaderboard g limit s' = Returned [] /\
    (forall u, u <> "" -> fst (getUserRank now g u s') = Returned 0).
Proof.
  intros Hg. unfold resetGuildLevels. rewrite (missing_false g Hg).
  eexists _, _. split; [reflexivity |].
  set (s' := {| db := filter (fun e : (string * string) * UserLevel =>
                                fst (fst e) <> g) (db s);
                cache := filter (fun e : string * UserLevel =>
                                   String.prefix (guildPrefix g) (fst e)
                                   = false) (cache s);
                events := events s |}).
  assert (Hgone : forall u, db s' !! (g, u) = None /\
                            cache s' !! cacheKey g u = None).
  { intros u. split; cbn; apply map_lookup_filter_None; right;
      intros d _; cbn.
    - intros H. apply H. reflexivity.
    - rewrite prefix_own. discriminate. }
  split.
  { unfold s'. cbn [db].
    rewrite <- !length_map_to_list, map_to_list_filter_perm.
    rewrite <- (filter_app_complement
                  (fun e : (string * string) * UserLevel => fst (fst e) = g)
                  (map_to_list (db s))) at 3.
    rewrite length_app. lia. }
  split; [exact Hgone |]. split.
  { intros g' u Hne. cbn.
    destruct (db s !! (g', u)) as [d |] eqn:Hd.
    - apply map_lookup_filter_Some. split; [exact Hd | exact Hne].
    - apply map_lookup_filter_None. left. exact Hd. }
  split.
  { intros g' u Hne Hdg Hdg'. cbn.
    destruct (cache s !! cacheKey g' u) as [d |] eqn:Hd.
    - apply map_lookup_filter_Some. split; [exact Hd |]. cbn.
      apply prefix_other; auto.
    - apply map_lookup_filter_None. left. exact Hd. }
  split.
  { unfold getLeaderboard. rewrite (missing_false g Hg).
    rewrite (ranked_none g s') by (intros u; apply Hgone).
    change (merge_sort leaderboardOrder [])
      with (@nil ((string * string) * UserLevel)).
    rewrite take_nil. reflexivity. }
  intros u Hu.
  destruct (getUserRank_value now g u s' Hg Hu
              (coherentAt_uncached g u s' (proj2 (Hgone u))))
    as (s2 & Hrun & _).
  rewrite Hrun. cbn [fst]. unfold current.
  rewrite (proj1 (Hgone u)). reflexivity.
Qed.

Lemma resetGuildLevels_clears_witness :
  exists s',
    resetGuildLevels "g1"
      (mkState
         (<[("g1", "u1") := mkUserLevel 900 9 0 0 0 10]>
          (<[("g2", "u1") := mkUserLevel 200 1 0 0 0 20]> ∅))
         {[ cacheKey "g1" "u1" := mkUserLevel 900 9 0 0 0 10 ]} [])
    = ((Some 1, [GuildLevelsReset "g1" 1]), s') /\
    getLeaderboard "g1" 10 s' = Returned [].
Proof.
  destruct (resetGuildLevels_clears 0 "g1" 10
    (mkState
       (<[("g1", "u1") := mkUserLevel 900 9 0 0 0 10]>
        (<[("g2", "u1") := mkUserLevel 200 1 0 0 0 20]> ∅))
       {[ cacheKey "g1" "u1" := mkUserLevel 900 9 0 0 0 10 ]} []))
    as (n & s' & Hrun & _ & _ & _ & _ & Hboard & _); [discriminate |].
  exists s'. split; [| exact Hboard].
  rewrite Hrun. vm_compute in Hrun. injection Hrun as <- _ _. reflexivity.
Defined.

End ResetFacts.

(** ** Voice grants and penalties *)

Section VoiceGrantFacts.
Import Level Ledger GuildConfig XP Standing Upkeep.

Lemma voiceGainedXP_pos cfg roles d : 1 <= voiceGainedXP cfg roles d.
Proof.
  unfold voiceGainedXP, Double.wholeAtLeastOne.
  destruct (Double.floor _); lia.
Qed.

(** What a read returns, with the counters. *)
Lemma getUserLevelData_counters now g u (s : State) :
  g <> "" -> u <> "" -> coherentAt g u s ->
  exists d s1,
    getUserLevelData now g u s = (Returned d, s1) /\
    db s1 !! (g, u) = Some d /\
    events s1 = events s /\
    xp d = xp (current g u s) /\
    level d = level (current g u s) /\
    totalMessages d = totalMessages (current g u s) /\
    totalVoiceDurationMillis d = totalVoiceDurationMillis (current g u s) /\
    (forall k, k <> (g, u) -> db s1 !! k = db s !! k).
Proof.
  intros Hg Hu Hco. unfold getUserLevelData, current.
  rewrite (missing_false g Hg), (missing_false u Hu). cbn [orb].
  destruct (cache s !! cacheKey g u) as [d |] eqn:Hc.
  - exists d, s. rewrite (Hco d Hc). cbn. auto 10.
  - eexists _, _. split; [reflexivity |]. cbn [db cache events].
    rewrite !lookup_insert_eq.
    assert (Hframe : forall k, k <> (g, u) ->
              <[(g, u) := match db s !! (g, u) with
                          | Some d => touch now d
                          | None => zeroRecord now
                          end]> (db s) !! k = db s !! k).
    { intros k Hk. apply lookup_insert_ne. congruence. }
    destruct (db s !! (g, u)) as [d |]; cbn; auto 10.
Qed.

(** A grant of a positive amount, with the counters. *)
Lemma addXP_counters now g u amount source (s : State) :
  0 < amount -> g <> "" -> u <> "" -> coherentAt g u s ->
  exists d' s',
    snd (addXP now g u amount source s) = s' /\
    db s' !! (g, u) = Some d' /\
    cache s' !! cacheKey g u = Some d' /\
    xp d' = xp (current g u s) + amount /\
    level d' = getLevelFromXP (xp (current g u s) + amount) /\
    totalMessages d' = totalMessages (current g u s) /\
    totalVoiceDurationMillis d' = totalVoiceDurationMillis (current g u s) /\
    grants s' = S (grants s) /\
    (forall k, k <> (g, u) -> db s' !! k = db s !! k).
Proof.
  intros Ha Hg Hu Hco. unfold addXP.
  destruct (Z.leb_spec amount 0) as [Hle | _]; [lia |].
  destruct (getUserLevelData_counters now g u s Hg Hu Hco)
    as (d & s1 & Hread & Hdb & Hev & Hxp & Hlv & Hm & Hv & Hframe).
  rewrite Hread, Hdb, <- Hxp, <- Hm, <- Hv.
  eexists (setXpLevel now (xp d + amount) (getLevelFromXP (xp d + amount)) d),
          _.
  split; [reflexivity |].
  cbn [snd emit db cache events setXpLevel xp level totalMessages
       totalVoiceDurationMillis].
  rewrite !lookup_insert_eq.
  repeat (split; [reflexivity |]). split.
  - match goal with
    | |- grants ?st = _ => rewrite (grants_after s1 st _ eq_refl)
    end.
    replace (grants s1) with (grants s)
      by (unfold grants; rewrite Hev; reflexivity).
    cbn [List.filter isXpGained].
    destruct (getLevelFromXP (xp d + amount) >? level d); cbn; lia.
  - intros k Hk. rewrite lookup_insert_ne by congruence.
    apply Hframe. exact Hk.
Qed.

Lemma voiceEligible_false cfg m :
  voiceEligible cfg m = false <->
  m = None \/
  exists vm, m = Some vm /\
    (vm_bot vm = true \/
     (exists role, role ∈ vm_roles vm /\ role ∈ ignoredRoles cfg) \/
     vm_deaf vm = true \/ vm_suppress vm = true \/
     exists c, vm_channel vm = Some c /\ c ∈ ignoredChannels cfg).
Proof.
  destruct m as [vm |]; cbn [voiceEligible].
  - rewrite !andb_false_iff, !negb_false_iff.
    assert (Hroles : existsb (fun role =>
                       bool_decide (role ∈ ignoredRoles cfg)) (vm_roles vm)
                     = true
                     <-> exists role, role ∈ vm_roles vm /\
                                      role ∈ ignoredRoles cfg).
    { rewrite existsb_exists. split; intros (r & Hr & Hi); exists r.
      - apply list_elem_of_In in Hr. apply bool_decide_eq_true in Hi. auto.
      - split; [apply list_elem_of_In; exact Hr
               | apply bool_decide_eq_true; exact Hi]. }
    assert (Hchan : match vm_channel vm with
                    | Some c => bool_decide (c ∈ ignoredChannels cfg)
                    | None => false
                    end = true
                    <-> exists c, vm_channel vm = Some c /\
                                  c ∈ ignoredChannels cfg).
    { destruct (vm_channel vm) as [c |].
      - rewrite bool_decide_eq_true. split.
        + intros H. exists c. auto.
        + intros (c' & [= <-] & H). exact H.
      - split; [discriminate | intros (c & Hc & _); discriminate]. }
    rewrite Hroles, Hchan. split.
    + intros H. right. exists vm. split; [reflexivity | tauto].
    + intros [H | (vm' & [= <-] & H)]; [discriminate | tauto].
  - split; [auto | reflexivity].
Qed.

(** X11.  Voice time is granted exactly when its duration and the
    guild's voice rate are positive and the member is found, is no bot,
    holds no ignored role, is neither deafened nor suppressed and sits
    in no ignored channel; otherwise the ledger stays as it is. *)
Theorem voice_grant_conditions cfg m now g u d (s : State) :
  g <> "" -> u <> "" -> coherentAt g u s ->
  let s' := handleVoiceXP cfg m now g u d s in
  let blocked :=
    d <= 0 \/ xpPerMinuteVoice cfg <= 0 \/ m = None \/
    exists vm, m = Some vm /\
      (vm_bot vm = true \/
       (exists role, role ∈ vm_roles vm /\ role ∈ ignoredRoles cfg) \/
       vm_deaf vm = true \/ vm_suppress vm = true \/
       exists c, vm_channel vm = Some c /\ c ∈ ignoredChannels cfg) in
  (blocked -> s' = s) /\
  (~ blocked -> grants s' = S (grants s)).
Proof.
  intros Hg Hu Hco s' blocked. subst s' blocked. unfold handleVoiceXP.
  pose proof (voiceEligible_false cfg m) as Hel.
  destruct (Z.leb_spec d 0) as [Hd | Hd];
    [split; [reflexivity | intros H; exfalso; apply H; auto] |].
  destruct (Z.leb_spec (xpPerMinuteVoice cfg) 0) as [Hr | Hr];
    [split; [reflexivity | intros H; exfalso; apply H; auto] |].
  destruct (voiceEligible cfg m) eqn:He; cbn [negb];
    [| split; [reflexivity | intros H; exfalso; apply H; tauto]].
  split.
  { intros [H | [H | H]]; [lia | lia |].
    assert (Hf : true = false) by (apply Hel; exact H). discriminate Hf. }
  intros _.
  set (amount := voiceGainedXP cfg (default [] (vm_roles <$> m)) d).
  set (s1 := recordVoice now d g u s).
  assert (Hc1 : cache s1 !! cacheKey g u = None) by apply lookup_delete_eq.
  destruct (addXP_counters now g u amount "voice" s1
              ltac:(pose proof (voiceGainedXP_pos cfg
                                  (default [] (vm_roles <$> m)) d); lia)
              Hg Hu (coherentAt_uncached g u s1 Hc1))
    as (d' & s2 & Hrun & _ & _ & _ & _ & _ & _ & Hgr & _).
  destruct (addXP now g u amount "voice" s1) as [[r | msg] s3];
    cbn [snd] in Hrun; subst s3.
  - exact Hgr.
  - unfold grants in *. cbn [emit events].
    rewrite List.filter_app, length_app. cbn. rewrite Nat.add_0_r.
    exact Hgr.
Qed.

Lemma voice_grant_conditions_witness :
  grants (handleVoiceXP halfRateConfig
            (Some (mkVoiceMember false ["r-half"] false false (Some "c1")))
            100 "g1" "u1" 60000 emptyLedger) = 1%nat.
Proof.
  refine (proj2 (voice_grant_conditions halfRateConfig
            (Some (mkVoiceMember false ["r-half"] false false (Some "c1")))
            100 "g1" "u1" 60000 emptyLedger _ _ _) _).
  - discriminate.
  - discriminate.
  - intros d Hd. cbn in Hd. rewrite lookup_empty in Hd. discriminate Hd.
  - intros [H | [H | [H | (vm & [= <-] & H)]]];
      [cbn in H; lia | cbn in H; lia | discriminate |].
    cbn in H.
    destruct H as [H | [(r & _ & H) | [H | [H | (c & _ & H)]]]];
      try discriminate; apply elem_of_nil in H; exact H.
Defined.

(** X12.  A voice grant adds the computed amount, which is at least 1
    and is floored from the doubles the code computes (34200 ms at 100
    points per minute give 56), to the experience of the member and
    sets the level of the new experience; nobody else's document
    changes.  The duration is added
    to the voice counter of a member who has a document; for a member
    without one the grant makes the document but the duration is not
    counted. *)
Theorem voice_grant_records cfg m now g u d (s : State) :
  g <> "" -> u <> "" -> coherentAt g u s ->
  0 < d -> 0 < xpPerMinuteVoice cfg -> voiceEligible cfg m = true ->
  let s' := handleVoiceXP cfg m now g u d s in
  let amount := voiceGainedXP cfg (default [] (vm_roles <$> m)) d in
  1 <= amount /\
  xp (current g u s') = xp (current g u s) + amount /\
  level (current g u s') = getLevelFromXP (xp (current g u s) + amount) /\
  totalVoiceDurationMillis (current g u s')
  = match db s !! (g, u) with
    | Some doc => totalVoiceDurationMillis doc + d
    | None => 0
    end /\
  is_Some (db s' !! (g, u)) /\
  coherentAt g u s' /\
  (forall k, k <> (g, u) -> db s' !! k = db s !! k).
Proof.
  intros Hg Hu Hco Hd Hr He s' amount. subst s'. unfold handleVoiceXP.
  destruct (Z.leb_spec d 0); [lia |].
  destruct (Z.leb_spec (xpPerMinuteVoice cfg) 0); [lia |].
  rewrite He. cbn [negb]. fold amount.
  pose proof (voiceGainedXP_pos cfg (default [] (vm_roles <$> m)) d) as Hpos.
  fold amount in Hpos.
  set (s1 := recordVoice now d g u s).
  assert (Hc1 : cache s1 !! cacheKey g u = None) by apply lookup_delete_eq.
  assert (Hdb1 : db s1 !! (g, u) = addVoiceTime now d <$> db s !! (g, u)).
  { cbn. apply lookup_alter_eq. }
  destruct (addXP_counters now g u amount "voice" s1 ltac:(lia)
              Hg Hu (coherentAt_uncached g u s1 Hc1))
    as (d' & s2 & Hrun & Hdb2 & Hc2 & Hxp & Hlv & _ & Hv & _ & Hframe).
  assert (Hs' : db (match addXP now g u amount "voice" s1 with
                    | (Thrown msg, s2) =>
                        emit [ErrorEvent ("Voice XP handling error: "
                                          +:+ msg)] s2
                    | (Returned _, s2) => s2
                    end) = db s2 /\
                cache (match addXP now g u amount "voice" s1 with
                       | (Thrown msg, s2) =>
                           emit [ErrorEvent ("Voice XP handling error: "
                                             +:+ msg)] s2
                       | (Returned _, s2) => s2
                       end) = cache s2).
  { destruct (addXP now g u amount "voice" s1) as [[r | msg] s3];
      cbn [snd] in Hrun; subst s3; split; reflexivity. }
  destruct Hs' as [Hsdb Hsc].
  unfold current, coherentAt. rewrite Hsdb, Hsc, Hdb2, Hc2.
  unfold current in Hxp, Hlv, Hv. rewrite Hdb1 in Hxp, Hlv, Hv.
  cbn [default from_option id].
  split; [exact Hpos |].
  split; [rewrite Hxp; destruct (db s !! (g, u)); reflexivity |].
  split; [rewrite Hlv; destruct (db s !! (g, u)); reflexivity |].
  split; [rewrite Hv; destruct (db s !! (g, u)); reflexivity |].
  split; [eexists; reflexivity |].
  split; [auto |].
  intros k Hk. rewrite (Hframe k Hk). cbn. apply lookup_alter_ne. congruence.
Qed.

Lemma voice_grant_records_witness :
  totalVoiceDurationMillis
    (current "g1" "u1"
       (handleVoiceXP boostConfig
          (Some (mkVoiceMember false [] false false None))
          100 "g1" "u1" 34200 emptyLedger)) = 0 /\
  xp (current "g1" "u1"
        (handleVoiceXP boostConfig
           (Some (mkVoiceMember false [] false false None))
           100 "g1" "u1" 34200 emptyLedger)) = 56.
Proof.
  destruct (voice_grant_records boostConfig
              (Some (mkVoiceMember false [] false false None))
              100 "g1" "u1" 34200 emptyLedger)
    as (_ & Hxp & _ & Hv & _);
    [discriminate | discriminate | | lia | cbn; lia | reflexivity |].
  - intros d Hd. cbn in Hd. rewrite lookup_empty in Hd. discriminate Hd.
  - split; [exact Hv |]. rewrite Hxp. vm_compute. reflexivity.
Defined.

(** X13.  A penalty does nothing unless the guild has the penalty
    system enabled and the amount is positive; when it acts it takes
    the amount from the member's experience, stopping at 0, and sets
    the level of what is left.  It never raises anybody's experience
    and leaves every other document as it was. *)
Theorem penalty_only_lowers cfg now g u amount reason (s : State) :
  g <> "" -> u <> "" -> coherentAt g u s -> 0 <= xp (current g u s) ->
  let s' := snd (applyPenalty cfg now g u amount reason s) in
  (enablePenaltySystem cfg = false \/ amount <= 0 ->
   applyPenalty cfg now g u amount reason s = (Returned None, s)) /\
  (enablePenaltySystem cfg = true -> 0 < amount ->
   xp (current g u s') = Z.max 0 (xp (current g u s) - amount) /\
   level (current g u s') = getLevelFromXP (xp (current g u s'))) /\
  xp (current g u s') <= xp (current g u s) /\
  (forall k, k <> (g, u) -> db s' !! k = db s !! k).
Proof.
  intros Hg Hu Hco Hxp s'. subst s'. unfold applyPenalty.
  destruct (Z.leb_spec amount 0) as [Ha | Ha];
    [cbn [snd]; repeat split; try reflexivity; lia |].
  destruct (enablePenaltySystem cfg); cbn [negb snd];
    [| repeat split; try reflexivity; try discriminate; lia].
  destruct (removeXP_revoke now g u amount reason s Ha Hg Hu Hco)
    as (d' & s2 & Hrun & Hdb & _ & Hxp' & Hlv' & _).
  assert (Hframe : forall k, k <> (g, u) ->
            db (snd (removeXP now g u amount reason s)) !! k = db s !! k).
  { intros k Hk. unfold removeXP.
    destruct (Z.leb_spec amount 0) as [Hle | _]; [lia |].
    destruct (getUserLevelData_counters now g u s Hg Hu Hco)
      as (d & s1 & Hread & Hdb1 & _ & _ & _ & _ & _ & Hf).
    rewrite Hread, Hdb1. cbn [snd emit db].
    rewrite lookup_insert_ne by congruence. apply Hf. exact Hk. }
  rewrite Hrun in *. cbn [snd] in *.
  rewrite (current_stored g u s2 d' Hdb), Hxp'.
  split; [intros [H | H]; [discriminate | lia] |].
  split; [intros _ _; split; [reflexivity | rewrite Hlv', Hxp'; reflexivity] |].
  split; [lia | exact Hframe].
Qed.

Lemma penalty_only_lowers_witness :
  xp (current "g1" "u1"
        (snd (applyPenalty halfRateConfig 50 "g1" "u1" 30 "spam"
                (mkState {[ ("g1", "u1") := mkUserLevel 200 1 0 3 0 40 ]}
                         ∅ []))))
  <= 200.
Proof.
  refine (proj1 (proj2 (proj2 (penalty_only_lowers halfRateConfig 50
            "g1" "u1" 30 "spam"
            (mkState {[ ("g1", "u1") := mkUserLevel 200 1 0 3 0 40 ]} ∅ [])
            _ _ _ _)))).
  - discriminate.
  - discriminate.
  - intros d Hd. cbn in Hd. rewrite lookup_empty in Hd. discriminate Hd.
  - vm_compute. discriminate.
Defined.

End VoiceGrantFacts.

(** ** Role rewards: additions, the highest tier, demotions *)

Section RewardFacts.
Import Roles.

Lemma elem_of_unless_removed (X : gset string) (l : list string) r :
  r ∈ (if bool_decide (l = []) then X else X ∖ list_to_set l) <->
  r ∈ X /\ r ∉ l.
Proof.
  case_bool_decide as Hl.
  - subst l. split; [intros Hr; split; [exact Hr | apply not_elem_of_nil]
                    | tauto].
  - rewrite elem_of_difference, elem_of_list_to_set. reflexivity.
Qed.

Lemma rolesToAdd_elem levelRolesMap oldLevel newLevel (held : gset string)
    roleId :
  roleId ∈ rolesToAdd levelRolesMap oldLevel newLevel held <->
  (exists levelStr requiredLevel,
      (levelStr, roleId) ∈ levelRolesMap /\
      parseInt levelStr = Some requiredLevel /\
      oldLevel < requiredLevel <= newLevel) /\
  roleId ∉ held.
Proof.
  unfold rolesToAdd. rewrite list_elem_of_omap. split.
  - intros ([levelStr r] & Hin & Hsel). cbn [fst snd] in Hsel.
    destruct (levelSatisfies _ levelStr) eqn:Hlvl; [| discriminate].
    destruct (bool_decide (r ∈ held)) eqn:Hheld; [discriminate |].
    cbn in Hsel. injection Hsel as <-.
    apply bool_decide_eq_false in Hheld.
    unfold levelSatisfies in Hlvl.
    destruct (parseInt levelStr) as [l |] eqn:Hp; [| discriminate].
    apply andb_true_iff in Hlvl. destruct Hlvl as [Hge Hlt].
    apply Z.geb_le in Hge. apply Z.ltb_lt in Hlt.
    split; [exists levelStr, l; auto with lia | exact Hheld].
  - intros ((levelStr & l & Hin & Hp & Hlo & Hhi) & Hheld).
    exists (levelStr, roleId). split; [exact Hin |]. cbn [fst snd].
    unfold levelSatisfies. rewrite Hp.
    assert (Hge : (newLevel >=? l) = true) by (apply Z.geb_le; lia).
    assert (Hlt : (oldLevel <? l) = true) by (apply Z.ltb_lt; lia).
    rewrite Hge, Hlt, (bool_decide_eq_false_2 _ Hheld). reflexivity.
Qed.

Lemma LevelDown_rolesToRemove_elem levelRolesMap newLevel
    (currentMemberRoles : gset string) roleId :
  roleId ∈ LevelDownHandler.rolesToRemove levelRolesMap newLevel
             currentMemberRoles <->
  (exists levelStr requiredLevel,
      (levelStr, roleId) ∈ levelRolesMap /\
      parseInt levelStr = Some requiredLevel /\
      newLevel < requiredLevel) /\
  roleId ∈ currentMemberRoles.
Proof.
  unfold LevelDownHandler.rolesToRemove. rewrite list_elem_of_omap. split.
  - intros ([levelStr r] & Hin & Hsel). cbn [fst snd] in Hsel.
    destruct (levelSatisfies _ levelStr) eqn:Hlvl; [| discriminate].
    destruct (bool_decide (r ∈ currentMemberRoles)) eqn:Hheld;
      [| discriminate].
    cbn in Hsel. injection Hsel as <-.
    apply bool_decide_eq_true in Hheld.
    unfold levelSatisfies in Hlvl.
    destruct (parseInt levelStr) as [l |] eqn:Hp; [| discriminate].
    apply Z.gtb_lt in Hlvl.
    split; [exists levelStr, l; auto | exact Hheld].
  - intros ((levelStr & l & Hin & Hp & Hlt) & Hheld).
    exists (levelStr, roleId). split; [exact Hin |]. cbn [fst snd].
    unfold levelSatisfies. rewrite Hp.
    assert (Hgt : (l >? newLevel) = true) by (apply Z.gtb_lt; lia).
    rewrite Hgt, (bool_decide_eq_true_2 _ Hheld). reflexivity.
Qed.

Lemma removeHighestOnly_elem levelRolesMap newLevel
    (currentMemberRoles : gset string) roleId :
  roleId ∈ removeHighestOnly levelRolesMap newLevel currentMemberRoles <->
  (exists levelStr, (levelStr, roleId) ∈ levelRolesMap) /\
  Some roleId <> snd (highestQualified levelRolesMap newLevel) /\
  roleId ∈ currentMemberRoles.
Proof.
  unfold removeHighestOnly. rewrite list_elem_of_omap. split.
  - intros ([levelStr r] & Hin & Hsel). cbn [fst snd] in Hsel.
    destruct (bool_decide (Some r = _)) eqn:Hbest; [discriminate |].
    destruct (bool_decide (r ∈ currentMemberRoles)) eqn:Hheld;
      [| discriminate].
    cbn in Hsel. injection Hsel as <-.
    apply bool_decide_eq_false in Hbest. apply bool_decide_eq_true in Hheld.
    split; [exists levelStr; exact Hin | auto].
  - intros ((levelStr & Hin) & Hbest & Hheld).
    exists (levelStr, roleId). split; [exact Hin |]. cbn [fst snd].
    rewrite (bool_decide_eq_false_2 _ Hbest),
            (bool_decide_eq_true_2 _ Hheld).
    reflexivity.
Qed.

(** The loop that looks for the highest level reached, on a prefix of
    the table. *)
Lemma highestQualified_best levelRolesMap newLevel :
  let best := highestQualified levelRolesMap newLevel in
  -1 <= fst best /\
  (snd best = None ->
   fst best = -1 /\
   forall levelStr roleId requiredLevel,
     (levelStr, roleId) ∈ levelRolesMap ->
     parseInt levelStr = Some requiredLevel ->
     ~ (0 <= requiredLevel <= newLevel)) /\
  (forall roleId, snd best = Some roleId ->
     exists levelStr, (levelStr, roleId) ∈ levelRolesMap /\
                      parseInt levelStr = Some (fst best) /\
                      0 <= fst best <= newLevel) /\
  (forall levelStr roleId requiredLevel,
     (levelStr, roleId) ∈ levelRolesMap ->
     parseInt levelStr = Some requiredLevel ->
     requiredLevel <= newLevel -> requiredLevel <= fst best).
Proof.
  unfold highestQualified.
  induction levelRolesMap as [| [levelStr roleId] l IH] using rev_ind.
  - cbn. split; [lia |]. split.
    + intros _. split; [reflexivity |].
      intros ? ? ? Hin. apply elem_of_nil in Hin. contradiction.
    + split; [discriminate |].
      intros ? ? ? Hin. apply elem_of_nil in Hin. contradiction.
  - rewrite fold_left_app. cbn [fold_left fst snd].
    set (acc := fold_left _ l (-1, None)) in *.
    cbn zeta in IH. destruct IH as (Hlow & Hnone & Hsome & Hmax).
    unfold levelSatisfies.
    destruct (parseInt levelStr) as [req |] eqn:Hp.
    + destruct ((newLevel >=? req) && (req >? fst acc)) eqn:Hsel.
      * apply andb_true_iff in Hsel. destruct Hsel as [Hge Hgt].
        apply Z.geb_le in Hge. apply Z.gtb_lt in Hgt.
        cbn [fst snd default from_option id].
        split; [lia |]. split; [discriminate |]. split.
        -- intros r [= <-]. exists levelStr.
           split; [apply elem_of_app; right; left |].
           split; [exact Hp | lia].
        -- intros ls r rq Hin Hq Hle.
           apply elem_of_app in Hin. destruct Hin as [Hin | Hin].
           ++ specialize (Hmax ls r rq Hin Hq Hle). lia.
           ++ apply list_elem_of_singleton in Hin. injection Hin as -> ->.
              rewrite Hp in Hq. injection Hq as <-. lia.
      * apply andb_false_iff in Hsel.
        split; [exact Hlow |]. split.
        -- intros Hn. destruct (Hnone Hn) as [Hm Hno].
           split; [exact Hm |].
           intros ls r rq Hin Hq Hrange.
           apply elem_of_app in Hin. destruct Hin as [Hin | Hin].
           ++ exact (Hno ls r rq Hin Hq Hrange).
           ++ apply list_elem_of_singleton in Hin. injection Hin as -> ->.
              rewrite Hp in Hq. injection Hq as <-.
              destruct Hsel as [Hsel | Hsel].
              ** rewrite Z.geb_leb in Hsel. apply Z.leb_gt in Hsel. lia.
              ** rewrite Z.gtb_ltb in Hsel. apply Z.ltb_ge in Hsel. lia.
        -- split.
           ++ intros r Hr. destruct (Hsome r Hr) as (ls & Hin & Hq & Hrg).
              exists ls. split; [apply elem_of_app; left; exact Hin | auto].
           ++ intros ls r rq Hin Hq Hle.
              apply elem_of_app in Hin. destruct Hin as [Hin | Hin].
              ** exact (Hmax ls r rq Hin Hq Hle).
              ** apply list_elem_of_singleton in Hin.
                 injection Hin as -> ->.
                 rewrite Hp in Hq. injection Hq as <-.
                 destruct Hsel as [Hsel | Hsel].
                 --- rewrite Z.geb_leb in Hsel. apply Z.leb_gt in Hsel. lia.
                 --- rewrite Z.gtb_ltb in Hsel. apply Z.ltb_ge in Hsel. lia.
    + split; [exact Hlow |]. split.
      * intros Hn. destruct (Hnone Hn) as [Hm Hno].
        split; [exact Hm |].
        intros ls r rq Hin Hq Hrange.
        apply elem_of_app in Hin. destruct Hin as [Hin | Hin].
        -- exact (Hno ls r rq Hin Hq Hrange).
        -- apply list_elem_of_singleton in Hin. injection Hin as -> ->.
           rewrite Hp in Hq. discriminate Hq.
      * split.
        -- intros r Hr. destruct (Hsome r Hr) as (ls & Hin & Hq & Hrg).
           exists ls. split; [apply elem_of_app; left; exact Hin | auto].
        -- intros ls r rq Hin Hq Hle.
           apply elem_of_app in Hin. destruct Hin as [Hin | Hin].
           ++ exact (Hmax ls r rq Hin Hq Hle).
           ++ apply list_elem_of_singleton in Hin. injection Hin as -> ->.
              rewrite Hp in Hq. discriminate Hq.
Qed.

Lemma level_down_facts levelRolesMap newLevel (held : gset string) :
  let result := LevelDownHandler.execute levelRolesMap newLevel held in
  (forall roleId,
      roleId ∈ fst result <->
      (exists levelStr requiredLevel,
          (levelStr, roleId) ∈ levelRolesMap /\
          parseInt levelStr = Some requiredLevel /\
          newLevel < requiredLevel) /\
      roleId ∈ held) /\
  (forall roleId,
      roleId ∈ snd result <-> roleId ∈ held /\ roleId ∉ fst result).
Proof.
  intros result. split.
  - intros roleId. subst result. unfold LevelDownHandler.execute.
    destruct (decide (levelRolesMap = [])) as [-> | Hne].
    + cbn. split.
      * intros Hin. apply elem_of_nil in Hin. contradiction.
      * intros [(ls & rq & Hin & _) _]. apply elem_of_nil in Hin.
        contradiction.
    + rewrite (bool_decide_eq_false_2 _ Hne). cbn [fst].
      apply LevelDown_rolesToRemove_elem.
  - intros roleId. subst result. unfold LevelDownHandler.execute.
    destruct (decide (levelRolesMap = [])) as [-> | Hne].
    + cbn. split; [intros H; split; [exact H | apply not_elem_of_nil]
                  | tauto].
    + rewrite (bool_decide_eq_false_2 _ Hne). cbn [fst snd].
      rewrite elem_of_difference, elem_of_list_to_set. reflexivity.
Qed.

(** X14.  A level-up adds exactly the rewards of the levels above the
    old level and up to the new one that the member does not hold yet;
    run again on the roles it leaves, it adds nothing, and it adds
    nothing when the level has not risen. *)
Theorem rolesToAdd_exact levelRolesMap oldLevel newLevel
    (held : gset string) :
  (forall roleId,
      roleId ∈ rolesToAdd levelRolesMap oldLevel newLevel held <->
      (exists levelStr requiredLevel,
          (levelStr, roleId) ∈ levelRolesMap /\
          parseInt levelStr = Some requiredLevel /\
          oldLevel < requiredLevel <= newLevel) /\
      roleId ∉ held) /\
  rolesToAdd levelRolesMap oldLevel newLevel
    (held ∪ list_to_set (rolesToAdd levelRolesMap oldLevel newLevel held))
  = [] /\
  (newLevel <= oldLevel ->
   rolesToAdd levelRolesMap oldLevel newLevel held = []).
Proof.
  split; [intros roleId; apply rolesToAdd_elem |]. split.
  - apply elem_of_nil_inv. intros roleId Hin.
    apply rolesToAdd_elem in Hin. destruct Hin as [Hex Hnot].
    apply Hnot. destruct (decide (roleId ∈ held)) as [Hh | Hh];
      [apply elem_of_union_l; exact Hh |].
    apply elem_of_union_r, elem_of_list_to_set, rolesToAdd_elem. auto.
  - intros Hle. apply elem_of_nil_inv. intros roleId Hin.
    apply rolesToAdd_elem in Hin.
    destruct Hin as [(ls & rq & _ & _ & Hrange) _]. lia.
Qed.

(** X15.  Under [highest_only] the loop settles on a reward of the
    highest level reached, if the table has one for a level from 0 up
    to the new level; once the removal pass has seen the roles just
    added, the only reward of the table the member can still hold is
    that one, and roles outside the table are never touched. *)
Theorem highest_only_keeps_top levelRolesMap oldLevel newLevel
    (held : gset string) :
  let best := highestQualified levelRolesMap newLevel in
  let change :=
    handleLevelUpRoles true "highest_only" levelRolesMap oldLevel newLevel
      held in
  (forall roleId, snd best = Some roleId ->
     exists levelStr, (levelStr, roleId) ∈ levelRolesMap /\
                      parseInt levelStr = Some (fst best) /\
                      0 <= fst best <= newLevel) /\
  (forall levelStr roleId requiredLevel,
     (levelStr, roleId) ∈ levelRolesMap ->
     parseInt levelStr = Some requiredLevel ->
     0 <= requiredLevel <= newLevel ->
     snd best <> None /\ requiredLevel <= fst best) /\
  (forall levelStr roleId,
     (levelStr, roleId) ∈ levelRolesMap -> roleId ∈ holds change ->
     snd best = Some roleId) /\
  (forall roleId,
     (forall levelStr, (levelStr, roleId) ∉ levelRolesMap) ->
     (roleId ∈ holds change <-> roleId ∈ held)).
Proof.
  intros best change.
  destruct (highestQualified_best levelRolesMap newLevel)
    as (_ & Hnone & Hsome & Hmax).
  fold best in Hnone, Hsome, Hmax.
  split; [exact Hsome |]. split.
  { intros ls r rq Hin Hq Hrange. split.
    - intros Hn. exact (proj2 (Hnone Hn) ls r rq Hin Hq Hrange).
    - apply (Hmax ls r rq Hin Hq). lia. }
  subst change. unfold handleLevelUpRoles.
  destruct (decide (levelRolesMap = [])) as [-> | Hne].
  { split.
    - intros ls r Hin. apply elem_of_nil in Hin. contradiction.
    - intros r _. reflexivity. }
  rewrite (bool_decide_eq_false_2 _ Hne). cbn [holds].
  unfold rolesToRemove. cbn [bool_decide]. 
  replace (bool_decide ("highest_only" = "")) with false by reflexivity.
  replace (bool_decide ("highest_only" = "keep_all")) with false
    by reflexivity.
  replace (bool_decide ("highest_only" = "highest_only")) with true
    by reflexivity.
  split.
  - intros ls r Hin Hheld.
    apply elem_of_unless_removed in Hheld. destruct Hheld as [Hcur Hkept].
    rewrite removeHighestOnly_elem in Hkept.
    destruct (decide (Some r = snd best)) as [Heq | Hneq]; [auto |].
    exfalso. apply Hkept. split; [exists ls; exact Hin | auto].
  - intros r Hout. rewrite elem_of_unless_removed, elem_of_union.
    rewrite !elem_of_list_to_set, removeHighestOnly_elem, rolesToAdd_elem.
    split.
    + intros [[Hh | [(ls & rq & Hin & _) _]] _]; [exact Hh |].
      exfalso. exact (Hout ls Hin).
    + intros Hh. split; [left; exact Hh |].
      intros [(ls & Hin) _]. exact (Hout ls Hin).
Qed.

(** X16.  A level-down removes exactly the roles the member holds that
    are the reward of a level above the new one, entries whose level
    is no number being skipped; afterwards the member holds no such
    reward, and every other role is kept. *)
Theorem level_down_strips_higher_tiers levelRolesMap newLevel
    (held : gset string) :
  let result := LevelDownHandler.execute levelRolesMap newLevel held in
  (forall roleId,
      roleId ∈ fst result <->
      (exists levelStr requiredLevel,
          (levelStr, roleId) ∈ levelRolesMap /\
          parseInt levelStr = Some requiredLevel /\
          newLevel < requiredLevel) /\
      roleId ∈ held) /\
  (forall roleId,
      roleId ∈ snd result <-> roleId ∈ held /\ roleId ∉ fst result) /\
  (forall levelStr roleId requiredLevel,
      (levelStr, roleId) ∈ levelRolesMap ->
      parseInt levelStr = Some requiredLevel ->
      newLevel < requiredLevel -> roleId ∉ snd result).
Proof.
  intros result.
  destruct (level_down_facts levelRolesMap newLevel held) as [Hrem Hkeep].
  fold result in Hrem, Hkeep.
  split; [exact Hrem |]. split; [exact Hkeep |].
  intros ls r rq Hin Hq Hlt Hheld.
  apply Hkeep in Hheld. destruct Hheld as [Hh Hnot].
  apply Hnot, Hrem. split; [exists ls, rq; auto | exact Hh].
Qed.

(** X17.  Under [keep_all], a level-up followed by a level-down back to
    the old level leaves the member with the roles held before, when
    none of them was the reward of a level above the old one. *)
Theorem level_up_then_down_restores refreshed levelRolesMap
    oldLevel newLevel (held : gset string) :
  (forall levelStr roleId requiredLevel,
      (levelStr, roleId) ∈ levelRolesMap ->
      parseInt levelStr = Some requiredLevel ->
      oldLevel < requiredLevel -> roleId ∉ held) ->
  snd (LevelDownHandler.execute levelRolesMap oldLevel
         (holds (handleLevelUpRoles refreshed "keep_all" levelRolesMap
                   oldLevel newLevel held)))
  = held.
Proof.
  intros Hfree.
  destruct (level_down_facts levelRolesMap oldLevel
              (holds (handleLevelUpRoles refreshed "keep_all" levelRolesMap
                        oldLevel newLevel held))) as (Hrem & Hkeep).
  assert (Hup : forall roleId,
    roleId ∈ holds (handleLevelUpRoles refreshed "keep_all" levelRolesMap
                      oldLevel newLevel held) <->
    roleId ∈ held \/
    roleId ∈ rolesToAdd levelRolesMap oldLevel newLevel held).
  { intros roleId. unfold handleLevelUpRoles.
    destruct (decide (levelRolesMap = [])) as [-> | Hne].
    - cbn. split; [auto | intros [H | H]; [exact H |]].
      apply elem_of_nil in H. contradiction.
    - rewrite (bool_decide_eq_false_2 _ Hne). cbn [holds].
      unfold rolesToRemove.
      replace (bool_decide ("keep_all" = "")) with false by reflexivity.
      replace (bool_decide ("keep_all" = "keep_all")) with true
        by reflexivity.
      rewrite (bool_decide_eq_true_2 ([] = [])) by reflexivity.
      rewrite elem_of_union, elem_of_list_to_set. reflexivity. }
  apply set_eq. intros roleId. rewrite Hkeep, Hrem, Hup, rolesToAdd_elem.
  split.
  - intros [[Hh | [(ls & rq & Hin & Hq & Hrange) Hnot]] Hkept];
      [exact Hh |].
    exfalso. apply Hkept. split; [exists ls, rq; auto with lia |].
    right. split; [exists ls, rq; auto | exact Hnot].
  - intros Hh. split; [left; exact Hh |].
    intros [(ls & rq & Hin & Hq & Hlt) _].
    exact (Hfree ls roleId rq Hin Hq Hlt Hh).
Qed.

Lemma level_up_then_down_restores_witness :
  snd (LevelDownHandler.execute tierRewards 5
         (holds (handleLevelUpRoles true "keep_all" tierRewards 5 15
                   {[ "A"; "member" ]})))
  = ({[ "A"; "member" ]} : gset string).
Proof.
  apply level_up_then_down_restores.
  intros levelStr roleId requiredLevel Hin Hp Hlt.
  unfold tierRewards in Hin.
  repeat (apply elem_of_cons in Hin; destruct Hin as [[= -> ->] | Hin]);
    [| | | apply elem_of_nil in Hin; contradiction].
  - vm_compute in Hp. injection Hp as <-. lia.
  - decide_by_computation.
  - decide_by_computation.
Defined.

End RewardFacts.

(** ** The configuration store: reading back, deleting, the command *)

Section ConfigStoreFacts.
Import Ledger GuildConfig XP Standing LevelConfigCommand.

Lemma configKey_inj g g' : configKey g = configKey g' -> g = g'.
Proof. unfold configKey. intros H. cbn in H. injection H as H. exact H. Qed.

Lemma configKey_ne g g' : g' <> g -> configKey g <> configKey g'.
Proof. intros Hne Heq. apply Hne. symmetry. exact (configKey_inj _ _ Heq). Qed.

(** What the collection gives for a guild. *)
Lemma getConfig_miss dflt g (st : Store) :
  g <> "" -> ccache st !! configKey g = None ->
  fst (getConfig dflt g st)
  = Returned match docs st !! g with
             | None => dflt
             | Some dbConfig =>
                 _normalizeConfig (Some dflt) (overDefaults dflt dbConfig)
             end.
Proof.
  intros Hg Hc. unfold getConfig. rewrite (missing_false g Hg), Hc.
  reflexivity.
Qed.

Lemma getConfig_hit dflt g (st : Store) c :
  g <> "" -> ccache st !! configKey g = Some c ->
  getConfig dflt g st = (Returned c, st).
Proof.
  intros Hg Hc. unfold getConfig. rewrite (missing_false g Hg), Hc.
  reflexivity.
Qed.

(** A read leaves the answer in the cache and the collection alone. *)
Lemma getConfig_cached dflt g (st : Store) c st1 :
  getConfig dflt g st = (Returned c, st1) ->
  g <> "" /\ ccache st1 !! configKey g = Some c /\ docs st1 = docs st /\
  (forall g', g' <> g ->
     ccache st1 !! configKey g' = ccache st !! configKey g').
Proof.
  unfold getConfig. unfold missing. case_bool_decide as Hg; [discriminate |].
  destruct (ccache st !! configKey g) as [cached |] eqn:Hc.
  - intros [= <- <-]. auto.
  - intros [= <- <-]. cbn. rewrite lookup_insert_eq.
    repeat split; try assumption.
    intros g' Hne. apply lookup_insert_ne, configKey_ne. exact Hne.
Qed.

Lemma other_guild_same dflt (g' : string) (st st' : Store) :
  docs st' !! g' = docs st !! g' ->
  ccache st' !! configKey g' = ccache st !! configKey g' ->
  configOf dflt g' st' = configOf dflt g' st.
Proof.
  intros Hd Hc. unfold configOf, getConfig.
  destruct (missing g'); [reflexivity |].
  rewrite Hc, Hd. destruct (ccache st !! configKey g'); reflexivity.
Qed.

Lemma cacheFresh_perform dflt (st : Store) (op : ConfigOp) :
  cacheFresh dflt st -> cacheFresh dflt (performConfig dflt st op).
Proof.
  assert (Hget : forall g st, cacheFresh dflt st ->
                   cacheFresh dflt (snd (getConfig dflt g st))).
  { intros g s Hs. unfold getConfig. destruct (missing g); [exact Hs |].
    destruct (ccache s !! configKey g) eqn:Hc; [exact Hs |].
    cbn [snd]. intros g' c Hc'. cbn in *.
    destruct (decide (g' = g)) as [-> | Hne].
    - rewrite lookup_insert_eq in Hc'. congruence.
    - rewrite lookup_insert_ne in Hc' by (apply configKey_ne; exact Hne).
      exact (Hs g' c Hc'). }
  assert (Hupd : forall g u st, cacheFresh dflt st ->
                   cacheFresh dflt (snd (updateConfig dflt g u st))).
  { intros g u s Hs. unfold updateConfig. destruct (missing g); [exact Hs |].
    destruct (schemaValid (prepareUpdate u)); cbn [snd]; [| exact Hs].
    intros g' c Hc'. cbn in *.
    destruct (decide (g' = g)) as [-> | Hne].
    - rewrite lookup_insert_eq in Hc'. rewrite lookup_insert_eq. congruence.
    - rewrite lookup_insert_ne in Hc' by (apply configKey_ne; exact Hne).
      rewrite lookup_insert_ne by congruence.
      exact (Hs g' c Hc'). }
  assert (Herr : forall c m st, cacheFresh dflt st ->
                   cacheFresh dflt (commandError c m st)).
  { intros c m s Hs. exact Hs. }
  intros Hs. destruct op as [g | g u | g | g c | g]; cbn [performConfig].
  - apply Hget, Hs.
  - apply Hupd, Hs.
  - unfold deleteConfig. destruct (missing g); [exact Hs |]. cbn [snd].
    intros g' c Hc'. cbn in *.
    destruct (decide (g' = g)) as [-> | Hne].
    + rewrite lookup_delete_eq in Hc'. discriminate Hc'.
    + rewrite lookup_delete_ne in Hc' by (apply configKey_ne; exact Hne).
      rewrite lookup_delete_ne by congruence.
      exact (Hs g' c Hc').
  - unfold execute.
    pose proof (Hget g st Hs) as H1.
    destruct (getConfig dflt g st) as [[cur | m] st1]; cbn [snd] in H1;
      [| apply Herr, H1].
    destruct (buildUpdate cur c) as [u |]; [| exact H1].
    pose proof (Hupd g u st1 H1) as H2.
    destruct (updateConfig dflt g u st1) as [[c2 | m] st2]; cbn [snd] in H2;
      [exact H2 | apply Herr, H2].
  - intros g' c Hc'. cbn in *.
    destruct (decide (g' = g)) as [-> | Hne].
    + rewrite lookup_delete_eq in Hc'. discriminate Hc'.
    + rewrite lookup_delete_ne in Hc' by (apply configKey_ne; exact Hne).
      exact (Hs g' c Hc').
Qed.

(** X18.  In a store that starts empty, whatever is read, updated,
    deleted, configured by command or dropped from the cache, a cached
    configuration is always the one the collection gives for its guild:
    the normalised document over the defaults, or the defaults for a
    guild without a document. *)
Theorem config_cache_stays_fresh dflt (ops : list ConfigOp) :
  cacheFresh dflt (fold_left (performConfig dflt) ops emptyStore).
Proof.
  assert (H : forall st, cacheFresh dflt st ->
                cacheFresh dflt (fold_left (performConfig dflt) ops st)).
  { induction ops as [| op ops IH]; intros st Hst; [exact Hst |].
    cbn [fold_left]. apply IH, cacheFresh_perform, Hst. }
  apply H. intros g c Hc. cbn in Hc. rewrite lookup_empty in Hc.
  discriminate Hc.
Qed.

(** X19.  The configuration that a successful update returns is the
    one that the next read of the guild returns, from the cache and,
    once the cache entry has run out, from the collection; the
    configuration of no other guild changes.  An update that is
    rejected changes neither the collection nor the cache. *)
Theorem updateConfig_read_back dflt g newSettings (st : Store) :
  match updateConfig dflt g newSettings st with
  | (Returned c, st') =>
      getConfig dflt g st' = (Returned c, st') /\
      configOf dflt g (expire g st') = Returned c /\
      (forall g', g' <> g -> configOf dflt g' st' = configOf dflt g' st)
  | (Thrown _, st') => docs st' = docs st /\ ccache st' = ccache st
  end.
Proof.
  unfold updateConfig. unfold missing at 1.
  case_bool_decide as Hg; [split; reflexivity |].
  destruct (schemaValid (prepareUpdate newSettings));
    [| split; reflexivity].
  split; [apply getConfig_hit; [exact Hg | apply lookup_insert_eq] |].
  split.
  - unfold configOf. rewrite getConfig_miss;
      [| exact Hg | apply lookup_delete_eq].
    cbn [expire docs]. rewrite lookup_insert_eq. reflexivity.
  - intros g' Hne. apply other_guild_same; cbn.
    + apply lookup_insert_ne. congruence.
    + apply lookup_insert_ne, configKey_ne. exact Hne.
Qed.

(** X20.  After [deleteConfig] the guild runs under the default
    configuration again, whatever was cached for it; the result tells
    whether there was a document, so a second deletion answers false;
    no other guild is affected. *)
Theorem deleteConfig_restores_defaults dflt g (st : Store) :
  g <> "" ->
  let st' := snd (deleteConfig g st) in
  configOf dflt g st' = Returned dflt /\
  (fst (fst (deleteConfig g st)) = true <-> is_Some (docs st !! g)) /\
  (snd (fst (deleteConfig g st)) = [g] <-> is_Some (docs st !! g)) /\
  fst (deleteConfig g st') = (false, []) /\
  (forall g', g' <> g -> configOf dflt g' st' = configOf dflt g' st).
Proof.
  intros Hg st'. subst st'. unfold deleteConfig.
  rewrite (missing_false g Hg). cbn [fst snd docs ccache].
  split.
  { unfold configOf. rewrite getConfig_miss;
      [| exact Hg | apply lookup_delete_eq].
    cbn [docs]. rewrite lookup_delete_eq. reflexivity. }
  split; [apply bool_decide_eq_true |]. split.
  { case_bool_decide as Hd; split; auto.
    - intros Hnil. discriminate Hnil.
    - intros Hs. contradiction. }
  split.
  { rewrite lookup_delete_eq.
    rewrite bool_decide_eq_false_2; [reflexivity |].
    intros [x Hx]. discriminate Hx. }
  intros g' Hne. apply other_guild_same; cbn.
  - apply lookup_delete_ne. congruence.
  - apply lookup_delete_ne, configKey_ne. exact Hne.
Qed.

Lemma deleteConfig_restores_defaults_witness :
  configOf halfRateConfig "g1" (snd (deleteConfig "g1" highestOnlyStore))
  = Returned halfRateConfig.
Proof.
  exact (proj1 (deleteConfig_restores_defaults halfRateConfig "g1"
                  highestOnlyStore ltac:(discriminate))).
Defined.

(** X21.  The first update of a guild without a document makes the
    document from the schema's defaults: every setting the update does
    not name gets the schema's default (15, 5, 60, no ignored roles or
    channels, no multipliers, notifications on, penalties off), not the
    value of the default configuration the guild ran under before. *)
Theorem first_update_takes_schema_defaults dflt g newSettings (st : Store)
    c st' :
  docs st !! g = None ->
  updateConfig dflt g newSettings st = (Returned c, st') ->
  xpPerMessage c = default 15 (r_xpPerMessage newSettings) /\
  xpPerMinuteVoice c = default 5 (r_xpPerMinuteVoice newSettings) /\
  messageCooldownSeconds c
  = default 60 (r_messageCooldownSeconds newSettings) /\
  ignoredRoles c = default [] (r_ignoredRoles newSettings) /\
  ignoredChannels c = default [] (r_ignoredChannels newSettings) /\
  levelUpMessageEnabled c
  = default true (r_levelUpMessageEnabled newSettings) /\
  enablePenaltySystem c
  = default false (r_enablePenaltySystem newSettings) /\
  (r_roleMultipliers newSettings = DAbsent -> roleMultipliers c = ∅) /\
  (r_channelMultipliers newSettings = DAbsent -> channelMultipliers c = ∅) /\
  (r_levelRoles newSettings = DAbsent -> levelRoles c = []).
Proof.
  intros Hnone. unfold updateConfig.
  destruct (missing g); [discriminate |].
  destruct (schemaValid (prepareUpdate newSettings)); [| discriminate].
  intros [= <- _]. rewrite Hnone. cbn.
  destruct newSettings as [rm cm lr ir ic xm xv cd lu pen style strat].
  cbn.
  split; [destruct xm; reflexivity |].
  split; [destruct xv; reflexivity |].
  split; [destruct cd; reflexivity |].
  split; [destruct ir; reflexivity |].
  split; [destruct ic; reflexivity |].
  split; [destruct lu as [[|] |]; reflexivity |].
  split; [destruct pen as [[|] |]; reflexivity |].
  split; [intros ->; reflexivity |].
  split; intros ->; reflexivity.
Qed.

Lemma first_update_takes_schema_defaults_witness :
  exists c st',
    updateConfig
      (makeDefault (settings DAbsent DAbsent None None (Some 25) None None
                             None None JUndefined JUndefined))
      "g1"
      (settings DAbsent DAbsent None None None None (Some 30)
                None None JUndefined JUndefined)
      emptyStore
    = (Returned c, st') /\
    xpPerMessage c = 15 /\ messageCooldownSeconds c = 30.
Proof.
  eexists _, _. split; [reflexivity |].
  destruct (first_update_takes_schema_defaults
    (makeDefault (settings DAbsent DAbsent None None (Some 25) None None
                           None None JUndefined JUndefined))
    "g1"
    (settings DAbsent DAbsent None None None None (Some 30)
              None None JUndefined JUndefined)
    emptyStore _ _ (lookup_empty _) eq_refl) as (H1 & _ & H3 & _).
  split; [exact H1 | exact H3].
Defined.

(** What a command leaves as the configuration of its guild. *)
Lemma execute_outcome dflt g c (st : Store) :
  g <> "" ->
  exists cur st1,
    getConfig dflt g st = (Returned cur, st1) /\
    configOf dflt g (execute dflt g c st)
    = Returned
        match buildUpdate cur c with
        | None => cur
        | Some update =>
            if schemaValid (prepareUpdate update)
            then _normalizeConfig (Some dflt)
                   (overDefaults dflt
                      (applySet (prepareUpdate update)
                         (default schemaDefaults (docs st !! g))))
            else cur
        end.
Proof.
  intros Hg. unfold execute.
  destruct (getConfig dflt g st) as [[cur | m] st1] eqn:Hget.
  2:{ unfold getConfig in Hget. rewrite (missing_false g Hg) in Hget.
      destruct (ccache st !! configKey g); discriminate Hget. }
  destruct (getConfig_cached dflt g st cur st1 Hget)
    as (_ & Hc1 & Hd1 & _).
  exists cur, st1. split; [reflexivity |].
  destruct (buildUpdate cur c) as [update |].
  - unfold updateConfig. rewrite (missing_false g Hg).
    destruct (schemaValid (prepareUpdate update)).
    + unfold configOf. cbn [fst snd].
      erewrite getConfig_hit; [| exact Hg | apply lookup_insert_eq].
      rewrite Hd1. reflexivity.
    + unfold configOf, commandError.
      rewrite (getConfig_hit dflt g _ cur Hg); [reflexivity | exact Hc1].
  - unfold configOf. rewrite (getConfig_hit dflt g st1 cur Hg Hc1).
    reflexivity.
Qed.

Lemma execute_step dflt g :
  g <> "" ->
  forall c st,
    exists cur,
      configOf dflt g st = Returned cur /\
      configOf dflt g (execute dflt g c st)
      = Returned
          match buildUpdate cur c with
          | None => cur
          | Some update =>
              if schemaValid (prepareUpdate update)
              then _normalizeConfig (Some dflt)
                     (overDefaults dflt
                        (applySet (prepareUpdate update)
                           (default schemaDefaults (docs st !! g))))
              else cur
          end.
Proof.
  intros Hg c s. destruct (execute_outcome dflt g c s Hg)
    as (cur & s1 & Hget & Hout).
  exists cur. split; [unfold configOf; rewrite Hget; reflexivity |].
  exact Hout.
Qed.

Lemma filter_ne_app (l : list string) (id : string) :
  id ∉ l -> filter (fun x => x <> id) (l ++ [id]) = l.
Proof.
  intros Hout. rewrite filter_app.
  rewrite (filter_cons_False _ id []) by (intros H; apply H; reflexivity).
  rewrite filter_nil, app_nil_r.
  induction l as [| x l IH]; [reflexivity |].
  apply not_elem_of_cons in Hout. destruct Hout as [Hne Hout].
  rewrite filter_cons_True by congruence. rewrite IH by exact Hout.
  reflexivity.
Qed.

(** X22.  Once a role has been put on the ignore list by the command,
    the guild's configuration lists it, and under that configuration
    no message and no voice time of a member holding the role is
    granted anything: the ledger stays as it is. *)
Theorem ignored_role_earns_nothing dflt g role (st : Store) :
  g <> "" ->
  exists cfg,
    configOf dflt g (execute dflt g (IgnoresAddRole role) st)
    = Returned cfg /\
    role ∈ ignoredRoles cfg /\
    (forall now msg s,
        role ∈ default [] (member msg) ->
        handleMessageXP cfg now msg s = s) /\
    (forall vm now u d s,
        role ∈ vm_roles vm ->
        handleVoiceXP cfg (Some vm) now g u d s = s).
Proof.
  intros Hg.
  destruct (execute_outcome dflt g (IgnoresAddRole role) st Hg)
    as (cur & st1 & _ & Hout).
  eexists. split; [exact Hout |].
  match goal with
  | |- role ∈ ignoredRoles ?c /\ _ =>
      assert (Hin : role ∈ ignoredRoles c)
  end.
  { cbn [buildUpdate]. case_bool_decide as Hheld; cbn [negb].
    - exact Hheld.
    - cbn. apply elem_of_app. right. left. }
  split; [exact Hin |]. split.
  - intros now msg s Hrole. unfold handleMessageXP.
    replace (passesFilters _ msg) with false; [reflexivity |].
    symmetry. unfold passesFilters.
    apply andb_false_iff. right. apply negb_false_iff.
    apply existsb_exists. exists role.
    split; [apply list_elem_of_In; exact Hrole |].
    apply bool_decide_eq_true. exact Hin.
  - intros vm now u d s Hrole. unfold handleVoiceXP.
    destruct (d <=? 0); [reflexivity |].
    destruct (xpPerMinuteVoice _ <=? 0); [reflexivity |].
    replace (voiceEligible _ (Some vm)) with false; [reflexivity |].
    symmetry. apply voiceEligible_false. right. exists vm.
    split; [reflexivity |]. right. left. exists role. auto.
Qed.

Lemma ignored_role_earns_nothing_witness :
  exists cfg,
    configOf halfRateConfig "g1"
      (execute halfRateConfig "g1" (IgnoresAddRole "r-half") emptyStore)
    = Returned cfg /\
    handleMessageXP cfg 1000 (sampleMessage "hello") emptyLedger
    = emptyLedger.
Proof.
  destruct (ignored_role_earns_nothing halfRateConfig "g1" "r-half"
              emptyStore ltac:(discriminate)) as (cfg & Hcfg & _ & Hmsg & _).
  exists cfg. split; [exact Hcfg |].
  apply Hmsg. cbn. left.
Defined.

(** X23.  Adding a role or channel that is not on the ignore list and
    then removing it leaves the list as it was; adding one that is
    listed changes nothing; after a removal the list no longer holds
    it. *)
Theorem ignores_add_remove dflt g id (st : Store) cfg0 :
  g <> "" -> configOf dflt g st = Returned cfg0 ->
  (id ∉ ignoredRoles cfg0 ->
   exists cfg,
     configOf dflt g (execute dflt g (IgnoresRemoveRole id)
                        (execute dflt g (IgnoresAddRole id) st))
     = Returned cfg /\ ignoredRoles cfg = ignoredRoles cfg0) /\
  (id ∉ ignoredChannels cfg0 ->
   exists cfg,
     configOf dflt g (execute dflt g (IgnoresRemoveChannel id)
                        (execute dflt g (IgnoresAddChannel id) st))
     = Returned cfg /\ ignoredChannels cfg = ignoredChannels cfg0) /\
  (id ∈ ignoredRoles cfg0 ->
   configOf dflt g (execute dflt g (IgnoresAddRole id) st) = Returned cfg0) /\
  (id ∈ ignoredChannels cfg0 ->
   configOf dflt g (execute dflt g (IgnoresAddChannel id) st)
   = Returned cfg0) /\
  (exists cfg,
     configOf dflt g (execute dflt g (IgnoresRemoveRole id) st)
     = Returned cfg /\ id ∉ ignoredRoles cfg) /\
  (exists cfg,
     configOf dflt g (execute dflt g (IgnoresRemoveChannel id) st)
     = Returned cfg /\ id ∉ ignoredChannels cfg).
Proof.
  intros Hg Hcfg0.
  pose proof (execute_step dflt g Hg) as Hstep.
  split; [| split; [| split; [| split; [| split]]]].
  - intros Hout.
    destruct (Hstep (IgnoresAddRole id) st) as (cur & Hc & H1).
    rewrite Hcfg0 in Hc. injection Hc as <-.
    cbn [buildUpdate] in H1.
    rewrite (bool_decide_eq_false_2 _ Hout) in H1. cbn in H1.
    destruct (Hstep (IgnoresRemoveRole id)
                (execute dflt g (IgnoresAddRole id) st))
      as (cur & Hc & H2).
    rewrite H1 in Hc. injection Hc as <-.
    eexists. split; [exact H2 |].
    cbn [buildUpdate ignoredRoles].
    rewrite bool_decide_eq_true_2 by (apply elem_of_app; right; left).
    cbn. apply filter_ne_app. exact Hout.
  - intros Hout.
    destruct (Hstep (IgnoresAddChannel id) st) as (cur & Hc & H1).
    rewrite Hcfg0 in Hc. injection Hc as <-.
    cbn [buildUpdate] in H1.
    rewrite (bool_decide_eq_false_2 _ Hout) in H1. cbn in H1.
    destruct (Hstep (IgnoresRemoveChannel id)
                (execute dflt g (IgnoresAddChannel id) st))
      as (cur & Hc & H2).
    rewrite H1 in Hc. injection Hc as <-.
    eexists. split; [exact H2 |].
    cbn [buildUpdate ignoredChannels].
    rewrite bool_decide_eq_true_2 by (apply elem_of_app; right; left).
    cbn. apply filter_ne_app. exact Hout.
  - intros Hin.
    destruct (Hstep (IgnoresAddRole id) st) as (cur & Hc & H1).
    rewrite Hcfg0 in Hc. injection Hc as <-.
    cbn [buildUpdate] in H1.
    rewrite (bool_decide_eq_true_2 _ Hin) in H1. exact H1.
  - intros Hin.
    destruct (Hstep (IgnoresAddChannel id) st) as (cur & Hc & H1).
    rewrite Hcfg0 in Hc. injection Hc as <-.
    cbn [buildUpdate] in H1.
    rewrite (bool_decide_eq_true_2 _ Hin) in H1. exact H1.
  - destruct (Hstep (IgnoresRemoveRole id) st) as (cur & Hc & H1).
    eexists. split; [exact H1 |].
    cbn [buildUpdate]. case_bool_decide as Hin; [| exact Hin].
    cbn. intros Hbad. apply list_elem_of_filter in Hbad.
    destruct Hbad as [Hne _]. apply Hne. reflexivity.
  - destruct (Hstep (IgnoresRemoveChannel id) st) as (cur & Hc & H1).
    eexists. split; [exact H1 |].
    cbn [buildUpdate]. case_bool_decide as Hin; [| exact Hin].
    cbn. intros Hbad. apply list_elem_of_filter in Hbad.
    destruct Hbad as [Hne _]. apply Hne. reflexivity.
Qed.

Lemma ignores_add_remove_witness :
  exists cfg,
    configOf halfRateConfig "g1"
      (execute halfRateConfig "g1" (IgnoresRemoveRole "r1")
         (execute halfRateConfig "g1" (IgnoresAddRole "r1") emptyStore))
    = Returned cfg /\ ignoredRoles cfg = [].
Proof.
  destruct (ignores_add_remove halfRateConfig "g1" "r1" emptyStore
              halfRateConfig ltac:(discriminate) eq_refl) as [H _].
  destruct (H ltac:(apply not_elem_of_nil)) as (cfg & Hcfg & Hl).
  exists cfg. split; [exact Hcfg | exact Hl].
Defined.

(** X24.  After the command has set a multiplier for a role or a
    channel, the guild's configuration maps it to that multiplier and
    every other role or channel to what it had; after the command has
    removed one, it has none.  Setting a multiplier where there was
    none and removing it again restores the table. *)
Theorem multipliers_set_remove dflt g id multiplier (st : Store) cfg0 :
  g <> "" -> configOf dflt g st = Returned cfg0 ->
  (exists cfg,
     configOf dflt g (execute dflt g (MultipliersSetRole id multiplier) st)
     = Returned cfg /\
     roleMultipliers cfg = <[id := multiplier]> (roleMultipliers cfg0)) /\
  (exists cfg,
     configOf dflt g (execute dflt g (MultipliersSetChannel id multiplier) st)
     = Returned cfg /\
     channelMultipliers cfg
     = <[id := multiplier]> (channelMultipliers cfg0)) /\
  (exists cfg,
     configOf dflt g (execute dflt g (MultipliersRemoveRole id) st)
     = Returned cfg /\
     roleMultipliers cfg = delete id (roleMultipliers cfg0)) /\
  (exists cfg,
     configOf dflt g (execute dflt g (MultipliersRemoveChannel id) st)
     = Returned cfg /\
     channelMultipliers cfg = delete id (channelMultipliers cfg0)) /\
  (roleMultipliers cfg0 !! id = None ->
   exists cfg,
     configOf dflt g
       (execute dflt g (MultipliersRemoveRole id)
          (execute dflt g (MultipliersSetRole id multiplier) st))
     = Returned cfg /\
     roleMultipliers cfg = roleMultipliers cfg0).
Proof.
  intros Hg Hcfg0.
  pose proof (execute_step dflt g Hg) as Hstep.
  assert (Hset : exists cfg,
     configOf dflt g (execute dflt g (MultipliersSetRole id multiplier) st)
     = Returned cfg /\
     roleMultipliers cfg = <[id := multiplier]> (roleMultipliers cfg0)).
  { destruct (Hstep (MultipliersSetRole id multiplier) st)
      as (cur & Hc & H1).
    rewrite Hcfg0 in Hc. injection Hc as <-.
    eexists. split; [exact H1 | reflexivity]. }
  split; [exact Hset |]. split.
  { destruct (Hstep (MultipliersSetChannel id multiplier) st)
      as (cur & Hc & H1).
    rewrite Hcfg0 in Hc. injection Hc as <-.
    eexists. split; [exact H1 | reflexivity]. }
  split.
  { destruct (Hstep (MultipliersRemoveRole id) st) as (cur & Hc & H1).
    rewrite Hcfg0 in Hc. injection Hc as <-.
    eexists. split; [exact H1 |].
    cbn [buildUpdate]. case_bool_decide as Hin; [reflexivity |].
    symmetry. apply delete_id.
    destruct (roleMultipliers cfg0 !! id) eqn:Hl; [| reflexivity].
    exfalso. apply Hin. eexists. reflexivity. }
  split.
  { destruct (Hstep (MultipliersRemoveChannel id) st) as (cur & Hc & H1).
    rewrite Hcfg0 in Hc. injection Hc as <-.
    eexists. split; [exact H1 |].
    cbn [buildUpdate]. case_bool_decide as Hin; [reflexivity |].
    symmetry. apply delete_id.
    destruct (channelMultipliers cfg0 !! id) eqn:Hl; [| reflexivity].
    exfalso. apply Hin. eexists. reflexivity. }
  intros Hnone. destruct Hset as (cfg1 & Hcfg1 & Hm1).
  destruct (Hstep (MultipliersRemoveRole id)
              (execute dflt g (MultipliersSetRole id multiplier) st))
    as (cur & Hc & H2).
  rewrite Hcfg1 in Hc. injection Hc as <-.
  eexists. split; [exact H2 |].
  cbn [buildUpdate]. rewrite Hm1.
  rewrite bool_decide_eq_true_2
    by (rewrite lookup_insert_eq; eexists; reflexivity).
  cbn. rewrite delete_insert_eq. apply delete_id. exact Hnone.
Qed.

Lemma multipliers_set_remove_witness :
  exists cfg,
    configOf halfRateConfig "g1"
      (execute halfRateConfig "g1" (MultipliersSetRole "r2" (2 # 1)%Q)
         emptyStore)
    = Returned cfg /\
    roleMultipliers cfg !! "r2" = Some (2 # 1)%Q /\
    roleMultipliers cfg !! "r-half" = Some (1 # 2)%Q.
Proof.
  destruct (multipliers_set_remove halfRateConfig "g1" "r2" (2 # 1)%Q
              emptyStore halfRateConfig ltac:(discriminate) eq_refl)
    as ((cfg & Hcfg & Hm) & _).
  exists cfg. split; [exact Hcfg |]. rewrite Hm. split; reflexivity.
Defined.

End ConfigStoreFacts.

(** ** The voice event filter, the credits, the keys of the tracker *)

Section VoiceEventFacts.
Import Voice VoiceStateUpdateEvent.

Lemma flushOf_fair timer i key t c :
  c ∈ flushOf timer i key t -> fairCredit c.
Proof.
  unfold fairCredit, flushOf.
  destruct i as [now key' isUser oldState newState | now presence finished
                | now].
  - destruct (_ && (now - t >? 10000)) eqn:Hsel.
    + apply andb_true_iff in Hsel. destruct Hsel as [_ Hd].
      apply Z.gtb_lt in Hd.
      intros Hc. apply list_elem_of_singleton in Hc. subst c. cbn. lia.
    + intros Hc. apply elem_of_nil in Hc. contradiction.
  - destruct (presence key) as [| flushedAt |].
    + intros Hc. apply elem_of_nil in Hc. contradiction.
    + destruct (Z.gtb_spec (flushedAt - t) 10000) as [Hd | _].
      * intros Hc. apply list_elem_of_singleton in Hc. subst c. cbn. lia.
      * intros Hc. apply elem_of_nil in Hc. contradiction.
    + destruct (Z.geb_spec (now - t) sweepThreshold) as [Hd | _].
      * intros Hc. apply list_elem_of_singleton in Hc. subst c. cbn. lia.
      * intros Hc. apply elem_of_nil in Hc. contradiction.
  - destruct (timer && (now - t >? 1000)) eqn:Hsel.
    + apply andb_true_iff in Hsel. destruct Hsel as [_ Hd].
      apply Z.gtb_lt in Hd.
      intros Hc. apply list_elem_of_singleton in Hc. subst c. cbn. lia.
    + intros Hc. apply elem_of_nil in Hc. contradiction.
Qed.

Lemma step_fair (s : Tracker) (i : Input) :
  (forall c, c ∈ calls s -> fairCredit c) ->
  forall c, c ∈ calls (step s i) -> fairCredit c.
Proof.
  intros Hs c Hc.
  assert (Hk : c ∈ callsFor (f_key c) (step s i)).
  { unfold callsFor. apply list_elem_of_filter. auto. }
  rewrite step_calls in Hk. apply elem_of_app in Hk.
  destruct Hk as [Hk | Hk].
  - apply Hs. unfold callsFor in Hk. apply list_elem_of_filter in Hk.
    exact (proj2 Hk).
  - destruct (voiceJoinTimes s !! f_key c) as [t |].
    + exact (flushOf_fair _ _ _ _ _ Hk).
    + apply elem_of_nil in Hk. contradiction.
Qed.

Lemma split_dash_free (id : string) :
  dashFree_string id -> split_dash id = [id].
Proof.
  induction id as [| ch id IH]; intros Hfree; [reflexivity |].
  cbn [split_dash]. cbn in Hfree. apply not_elem_of_cons in Hfree.
  destruct Hfree as [Hne Hfree].
  destruct (Ascii.eqb_spec ch "-") as [-> | _]; [contradiction |].
  rewrite (IH Hfree). reflexivity.
Qed.

Lemma split_dash_app (id rest : string) :
  dashFree_string id ->
  split_dash (id +:+ "-" +:+ rest) = id :: split_dash rest.
Proof.
  induction id as [| ch id IH]; intros Hfree; [reflexivity |].
  change (split_dash (String ch (id +:+ "-" +:+ rest))
          = String ch id :: split_dash rest).
  cbn [split_dash]. cbn in Hfree. apply not_elem_of_cons in Hfree.
  destruct Hfree as [Hne Hfree].
  destruct (Ascii.eqb_spec ch "-") as [-> | _]; [contradiction |].
  rewrite (IH Hfree). reflexivity.
Qed.

(** X25.  The filter of the [voiceStateUpdate] event loses nothing:
    with a voice manager in place, the tracker ends in the same state,
    with the same calls made, as if every event had been handed to
    [handleVoiceStateUpdate]. *)
Theorem voice_filter_loses_nothing now key isUser oldState newState
    (s : Tracker) :
  execute true now key isUser oldState newState s
  = handleVoiceStateUpdate now key isUser oldState newState s.
Proof.
  unfold execute. cbn [negb].
  destruct (_ && Bool.eqb (suppress oldState) (suppress newState)) eqn:Hsame;
    [| reflexivity].
  apply andb_true_iff in Hsame. destruct Hsame as [Hsame Hs].
  apply andb_true_iff in Hsame. destruct Hsame as [Hc Hd].
  apply bool_decide_eq_true in Hc. apply Bool.eqb_prop in Hd, Hs.
  unfold handleVoiceStateUpdate.
  assert (Hv : validForXp oldState = validForXp newState).
  { unfold validForXp. rewrite Hc, Hd, Hs. reflexivity. }
  rewrite Hv. destruct isUser; [| reflexivity]. cbn [negb].
  destruct (validForXp newState); reflexivity.
Qed.

(** X26.  Whatever the tracker goes through from its start, every
    duration it hands to [handleVoiceXP] is either the span it measured
    between the tracked start and the clock reading, and then longer
    than a second, or the fixed five minutes of a sweep for a span of
    at least 285 seconds: it is never more than 15 seconds above the
    span. *)
Theorem voice_credits_are_fair (inputs : list Input) (c : Flush) :
  c ∈ calls (run start inputs) ->
  fairCredit c /\
  1000 < f_duration c <= f_stop c - f_start c + 15000.
Proof.
  assert (H : forall s, (forall c, c ∈ calls s -> fairCredit c) ->
                forall c, c ∈ calls (run s inputs) -> fairCredit c).
  { unfold run. induction inputs as [| i inputs IH]; intros s Hs;
      [exact Hs |].
    cbn [fold_left]. apply IH, step_fair, Hs. }
  intros Hc.
  assert (Hfair : fairCredit c).
  { apply (H start); [| exact Hc].
    intros c' Hc'. cbn in Hc'. apply elem_of_nil in Hc'. contradiction. }
  split; [exact Hfair |].
  destruct Hfair as [[Heq Hlong] | [Heq Hspan]].
  - lia.
  - rewrite Heq. unfold intervalMillis, sweepThreshold in *. lia.
Qed.

Lemma voice_credits_are_fair_witness :
  fairCredit (mkFlush "g1-u1" 1000 301000 300000).
Proof.
  refine (proj1 (voice_credits_are_fair sampleSession
                   (mkFlush "g1-u1" 1000 301000 300000) _)).
  vm_compute. left.
Defined.

(** X27.  The sweep gets back the guild and the user of a key from
    [key.split("-")] when neither id holds a dash; of a user id with a
    dash it gets only the part before the dash. *)
Theorem sweep_recovers_ids (guildId userId rest : string) :
  dashFree_string guildId -> dashFree_string userId ->
  sweepIds (voiceKey guildId userId) = (Some guildId, Some userId) /\
  sweepIds (voiceKey guildId (userId +:+ "-" +:+ rest))
  = (Some guildId, Some userId).
Proof.
  intros Hg Hu. unfold sweepIds, voiceKey.
  rewrite !split_dash_app by assumption.
  rewrite split_dash_free by exact Hu. split; reflexivity.
Qed.

Lemma sweep_recovers_ids_witness :
  sweepIds (voiceKey "1001" "2002") = (Some "1001", Some "2002").
Proof.
  refine (proj1 (sweep_recovers_ids "1001" "2002" "" _ _));
    unfold dashFree_string; decide_by_computation.
Defined.

End VoiceEventFacts.

(** ** The progress shown by the [rank] command *)

Section RankCard.
Import Level Ledger Standing.

(** X28.  For a record with experience whose level is the level of its
    experience, the progress that the [rank] command shows lies inside
    the level: the experience gathered in the level is not negative and
    below the experience the level spans, which is 155 at level 0 and
    [10 * level + 55] above. *)
Theorem rank_progress_within_level (userData : UserLevel) :
  sound userData -> 0 < xp userData ->
  0 <= currentLevelXP userData < requiredXPForNext userData /\
  requiredXPForNext userData
  = (if level userData =? 0 then 155 else 10 * level userData + 55).
Proof.
  intros [_ Hlv] Hpos. unfold currentLevelXP, requiredXPForNext.
  destruct (getLevelFromXP_bracket (xp userData) Hpos) as (Hnn & Hlo & Hhi).
  rewrite <- Hlv in Hnn, Hlo, Hhi.
  split; [lia |].
  destruct (Z.eqb_spec (level userData) 0) as [-> | Hne].
  - reflexivity.
  - rewrite !xpForLevel_pos by lia. lia.
Qed.

Lemma rank_progress_within_level_witness :
  0 <= currentLevelXP (mkUserLevel 200 1 0 3 0 40)
     < requiredXPForNext (mkUserLevel 200 1 0 3 0 40).
Proof.
  refine (proj1 (rank_progress_within_level (mkUserLevel 200 1 0 3 0 40)
                   _ _)).
  - split; [cbn; lia | reflexivity].
  - cbn. lia.
Defined.

End RankCard.

(** ** Message grants: the counters and the role multiplier *)

Section MessageGrantFacts.
Import Level Ledger GuildConfig XP Standing.

Lemma raises_false_le (highest multiplier : Q) :
  (1 <= highest)%Q -> raises highest multiplier = false ->
  (multiplier <= highest)%Q.
Proof.
  intros Hhi. unfold raises.
  destruct (Qeq_bool multiplier 0) eqn:Hz; cbn [negb andb].
  - intros _. apply Qeq_bool_iff in Hz. rewrite Hz.
    apply Qle_trans with 1%Q; [discriminate | exact Hhi].
  - destruct (Qlt_le_dec highest multiplier) as [_ | Hle];
      [discriminate | intros _; exact Hle].
Qed.

Lemma roleLoop_max cfg roles (start : Q) :
  (1 <= start)%Q ->
  let h :=
    fold_left
      (fun highest role =>
         match roleMultipliers cfg !! role with
         | Some multiplier =>
             if raises highest multiplier then multiplier else highest
         | None => highest
         end)
      roles start in
  (start <= h)%Q /\
  (forall role multiplier,
      role ∈ roles -> roleMultipliers cfg !! role = Some multiplier ->
      (multiplier <= h)%Q) /\
  (h = start \/
   exists role, role ∈ roles /\ roleMultipliers cfg !! role = Some h).
Proof.
  revert start. induction roles as [| r roles IH]; intros start Hstart.
  - cbn. split; [apply Qle_refl |]. split; [| left; reflexivity].
    intros role m Hin. apply elem_of_nil in Hin. contradiction.
  - cbn [fold_left].
    set (next := match roleMultipliers cfg !! r with
                 | Some multiplier =>
                     if raises start multiplier then multiplier else start
                 | None => start
                 end).
    assert (Hnext : (start <= next)%Q /\
                    (forall m, roleMultipliers cfg !! r = Some m ->
                               (m <= next)%Q) /\
                    (next = start \/ roleMultipliers cfg !! r = Some next)).
    { subst next. destruct (roleMultipliers cfg !! r) as [m |].
      - destruct (raises start m) eqn:Hr.
        + split.
          * unfold raises in Hr. apply andb_true_iff in Hr.
            destruct Hr as [_ Hr].
            destruct (Qlt_le_dec start m) as [Hlt | _]; [| discriminate].
            apply Qlt_le_weak. exact Hlt.
          * split; [intros m' [= <-]; apply Qle_refl | right; reflexivity].
        + split; [apply Qle_refl |].
          split; [| left; reflexivity].
          intros m' [= <-]. apply raises_false_le; assumption.
      - split; [apply Qle_refl |].
        split; [discriminate | left; reflexivity]. }
    destruct Hnext as (Hle & Hown & Hfrom).
    destruct (IH next (Qle_trans _ _ _ Hstart Hle)) as (Hge & Hall & Hpick).
    cbn zeta in *.
    split; [exact (Qle_trans _ _ _ Hle Hge) |]. split.
    + intros role m Hin Hm. apply elem_of_cons in Hin.
      destruct Hin as [-> | Hin].
      * exact (Qle_trans _ _ _ (Hown m Hm) Hge).
      * exact (Hall role m Hin Hm).
    + destruct Hpick as [Heq | (role & Hin & Hm)].
      * rewrite Heq. destruct Hfrom as [-> | Hm]; [left; reflexivity |].
        right. exists r. split; [left | exact Hm].
      * right. exists role. split; [right; exact Hin | exact Hm].
Qed.

(** X29.  The role multiplier of a grant is the largest of 1 and the
    multipliers configured for the roles the member holds: it is at
    least 1 and at least each of them, and it is 1 or the multiplier of
    one of the roles held. *)
Theorem highestRoleMultiplier_is_max cfg roles :
  (1 <= highestRoleMultiplier cfg roles)%Q /\
  (forall role multiplier,
      role ∈ roles -> roleMultipliers cfg !! role = Some multiplier ->
      (multiplier <= highestRoleMultiplier cfg roles)%Q) /\
  (highestRoleMultiplier cfg roles = 1%Q \/
   exists role,
     role ∈ roles /\
     roleMultipliers cfg !! role = Some (highestRoleMultiplier cfg roles)).
Proof.
  exact (roleLoop_max cfg roles 1%Q (Qle_refl 1)).
Qed.

(** X30.  A message that passes the filters, handled with no other
    handler in between, changes the member's record only when it is
    granted: inside the cooldown the experience, the level and the
    message counter stay as they are; at or after its end the message
    counter goes up by one, the time of the message is kept, the
    experience goes up by the grant, the floor of the product of the
    rate and the multiplier as the doubles give it (100 points at a
    multiplier of 1.15 give 114), and the level is the level of the
    new experience. *)
Theorem message_counts_when_granted cfg now msg g (s : State) :
  passesFilters cfg msg = true -> guild msg = Some g ->
  g <> "" -> author_id msg <> "" -> coherentAt g (author_id msg) s ->
  let before := current g (author_id msg) s in
  let after := current g (author_id msg) (handleMessageXP cfg now msg s) in
  if now <? lastMessageTimestamp before + messageCooldownSeconds cfg * 1000
  then xp after = xp before /\ level after = level before /\
       totalMessages after = totalMessages before
  else xp after
       = xp before
         + gainedXP cfg (default [] (member msg)) (channel_id msg) /\
       level after = getLevelFromXP (xp after) /\
       totalMessages after = totalMessages before + 1 /\
       lastMessageTimestamp after = now.
Proof.
  intros Hpass Hguild Hg Hu Hco before after. subst before after.
  unfold handleMessageXP.
  rewrite Hpass, Hguild. cbn [negb default from_option id].
  set (u := author_id msg) in *.
  destruct (getUserLevelData_read now g u s Hg Hu Hco)
    as (d & s1 & Hread & Hdb & Hcache & _ & _ & _ & Hts).
  destruct (getUserLevelData_counters now g u s Hg Hu Hco)
    as (d0 & s0 & Hread0 & _ & _ & Hxp & Hlv & Hm & _).
  rewrite Hread in Hread0. injection Hread0 as <- <-.
  rewrite Hread, Hts.
  destruct (now <? lastMessageTimestamp (current g u s)
                   + messageCooldownSeconds cfg * 1000).
  - rewrite (current_stored g u s1 d Hdb). auto.
  - set (s2 := recordMessage now g u s1).
    assert (Hdb2 : db s2 !! (g, u) = Some (stampMessage now d))
      by (cbn; rewrite lookup_alter_eq, Hdb; reflexivity).
    assert (Hc2 : cache s2 !! cacheKey g u = None)
      by (cbn; apply lookup_delete_eq).
    set (amount := gainedXP cfg (default [] (member msg)) (channel_id msg)).
    destruct (addXP_grant now g u amount "message" s2)
      as (d' & s3 & Hrun & Hdb3 & _ & Hxp3 & Hlv3 & Hts3 & _);
      [pose proof (gainedXP_pos cfg (default [] (member msg))
                     (channel_id msg)); subst amount; lia
      | exact Hg | exact Hu | exact (coherentAt_uncached g u s2 Hc2) |].
    destruct (addXP_counters now g u amount "message" s2)
      as (d3 & s3' & Hrun' & Hdb3' & _ & _ & _ & Hm3 & _);
      [pose proof (gainedXP_pos cfg (default [] (member msg))
                     (channel_id msg)); subst amount; lia
      | exact Hg | exact Hu | exact (coherentAt_uncached g u s2 Hc2) |].
    rewrite Hrun in Hrun'. cbn [snd] in Hrun'. subst s3'.
    rewrite Hdb3 in Hdb3'. injection Hdb3' as <-.
    rewrite Hrun.
    rewrite (current_stored g u s3 d' Hdb3).
    rewrite (current_stored g u s2 _ Hdb2) in Hxp3, Hlv3, Hts3, Hm3.
    cbn in Hxp3, Hlv3, Hts3, Hm3.
    rewrite Hxp3, Hlv3, Hm3, Hts3, Hxp, Hm. auto.
Qed.

Lemma message_counts_when_granted_witness :
  xp (current "g1" "u2"
        (handleMessageXP boostConfig 1700000000000
           (boostedMessage "hello") emptyLedger)) = 114 /\
  totalMessages
    (current "g1" "u2"
       (handleMessageXP boostConfig 1700000000000
          (boostedMessage "hello") emptyLedger)) = 1.
Proof.
  pose proof (message_counts_when_granted boostConfig 1700000000000
                (boostedMessage "hello") "g1" emptyLedger
                eq_refl eq_refl ltac:(discriminate) ltac:(discriminate)
                ltac:(intros d Hd; cbn in Hd; rewrite lookup_empty in Hd;
                      discriminate Hd)) as H.
  cbn zeta in H.
  change (1700000000000 <?
          lastMessageTimestamp (current "g1" "u2" emptyLedger)
          + messageCooldownSeconds boostConfig * 1000)
    with false in H.
  destruct H as (Hx & _ & Hm & _). split; [exact Hx | exact Hm].
Defined.

End MessageGrantFacts.
